(** * Trading-Dashboard: the analytics and discipline-correlation engine

    A shallow embedding of the pure computations of the dashboard
    (hooks/use-checklist.ts, the chart components, the checklist form,
    the discipline and psychology pages and the date utilities) together
    with the properties stated about them.

    JavaScript numbers are modelled as exact rationals extended with
    [NaN] and the two infinities: rounding and overflow of binary64
    arithmetic are idealised away, the special values and their
    propagation are kept.
    Strings are [string]; one [ascii] stands for one code unit. *)

From Stdlib Require Import ZArith QArith Qabs Qround String Ascii List Bool Lia Lqa.
From Stdlib Require Import Sorted Permutation DecimalString.
From Stdlib Require DecimalNat DecimalFacts.
From stdpp Require Import base gmap strings fin_maps sorting.
Import ListNotations.

#[local] Set Warnings "-register-all".
Local Open Scope string_scope.
Local Open Scope Z_scope.

(** ** The platform: numbers *)

Module JS.

Inductive number : Type :=
| NaN
| PInf
| NInf
| Fin (q : Q).

Definition numZ (z : Z) : number := Fin (inject_Z z).
Definition num_of_nat (n : nat) : number := numZ (Z.of_nat n).

(** Three-way comparison; [None] when an operand is [NaN]. *)
Definition num_cmp (a b : number) : option comparison :=
  match a, b with
  | NaN, _ | _, NaN => None
  | Fin x, Fin y => Some (x ?= y)%Q
  | PInf, PInf | NInf, NInf => Some Eq
  | PInf, _ | _, NInf => Some Gt
  | NInf, _ | _, PInf => Some Lt
  end.

Definition num_gt (a b : number) : bool :=
  match num_cmp a b with Some Gt => true | _ => false end.
Definition num_lt (a b : number) : bool :=
  match num_cmp a b with Some Lt => true | _ => false end.
Definition num_ge (a b : number) : bool :=
  match num_cmp a b with Some Gt | Some Eq => true | _ => false end.
Definition num_le (a b : number) : bool :=
  match num_cmp a b with Some Lt | Some Eq => true | _ => false end.

Definition num_neg (a : number) : number :=
  match a with
  | NaN => NaN
  | PInf => NInf
  | NInf => PInf
  | Fin x => Fin (Qred (- x))
  end.

Definition num_add (a b : number) : number :=
  match a, b with
  | NaN, _ | _, NaN => NaN
  | PInf, NInf | NInf, PInf => NaN
  | PInf, _ | _, PInf => PInf
  | NInf, _ | _, NInf => NInf
  | Fin x, Fin y => Fin (Qred (x + y))
  end.

Definition num_sub (a b : number) : number := num_add a (num_neg b).

(** An infinity with the sign of [s] times the sign of the infinity
    [pos]; [NaN] when [s] is zero. *)
Definition signed_inf (pos : bool) (s : comparison) : number :=
  match s with
  | Eq => NaN
  | Gt => if pos then PInf else NInf
  | Lt => if pos then NInf else PInf
  end.

Definition num_mul (a b : number) : number :=
  match a, b with
  | NaN, _ | _, NaN => NaN
  | PInf, PInf | NInf, NInf => PInf
  | PInf, NInf | NInf, PInf => NInf
  | PInf, Fin y | Fin y, PInf => signed_inf true (y ?= 0)%Q
  | NInf, Fin y | Fin y, NInf => signed_inf false (y ?= 0)%Q
  | Fin x, Fin y => Fin (Qred (x * y))
  end.

(** Division; the zero of the model is the positive zero. *)
Definition num_div (a b : number) : number :=
  match a, b with
  | NaN, _ | _, NaN => NaN
  | (PInf | NInf), (PInf | NInf) => NaN
  | PInf, Fin y => match (y ?= 0)%Q with Lt => NInf | _ => PInf end
  | NInf, Fin y => match (y ?= 0)%Q with Lt => PInf | _ => NInf end
  | Fin _, (PInf | NInf) => Fin 0
  | Fin x, Fin y =>
      match (y ?= 0)%Q with
      | Eq => signed_inf true (x ?= 0)%Q
      | _ => Fin (Qred (x / y))
      end
  end.

(** Math.abs *)
Definition Math_abs (a : number) : number :=
  match a with
  | NaN => NaN
  | PInf | NInf => PInf
  | Fin x => Fin (Qred (Qabs x))
  end.

Definition is_finite (a : number) : bool :=
  match a with Fin _ => true | _ => false end.

Definition isNaN (a : number) : bool :=
  match a with NaN => true | _ => false end.

(** ** The platform: values, truthiness and abrupt completion *)

(** Values as [JSON.parse] and property reads produce them.  An object is
    the list of its own enumerable string-keyed properties in enumeration
    order; [VNative] stands for a built-in function or object reached
    through a prototype. *)
Inductive value : Type :=
| VUndef
| VNull
| VBool (b : bool)
| VNum (n : number)
| VStr (s : string)
| VArr (elems : list value)
| VObj (props : list (string * value))
| VNative (name : string).

Inductive exn : Type := TypeError | SyntaxError | RangeError.

Inductive completion (A : Type) : Type :=
| Normal (a : A)
| Throw (e : exn).
Arguments Normal {A} a.
Arguments Throw {A} e.

Definition bind {A B} (c : completion A) (k : A -> completion B) : completion B :=
  match c with
  | Normal a => k a
  | Throw e => Throw e
  end.

(** [try { body } catch (error) { handler }] *)
Definition try_catch {A} (body : completion A) (handler : exn -> completion A) : completion A :=
  match body with
  | Normal a => Normal a
  | Throw e => handler e
  end.

Fixpoint mapM {A B} (f : A -> completion B) (l : list A) : completion (list B) :=
  match l with
  | [] => Normal []
  | x :: l' => bind (f x) (fun y => bind (mapM f l') (fun ys => Normal (y :: ys)))
  end.

(** ToBoolean *)
Definition Boolean (v : value) : bool :=
  match v with
  | VUndef | VNull => false
  | VBool b => b
  | VNum NaN => false
  | VNum (Fin q) => negb (Qeq_bool q 0)
  | VNum _ => true
  | VStr s => negb (s =? "")%string
  | VArr _ | VObj _ | VNative _ => true
  end.

(** [a || b] on values *)
Definition js_or (a b : value) : value := if Boolean a then a else b.

Definition typeof (v : value) : string :=
  match v with
  | VUndef => "undefined"
  | VNull | VArr _ | VObj _ => "object"
  | VBool _ => "boolean"
  | VNum _ => "number"
  | VStr _ => "string"
  | VNative name => if (name =? "__proto__")%string then "object" else "function"
  end.

(** [v === b] for a boolean literal [b]. *)
Definition strict_equals_bool (v : value) (b : bool) : bool :=
  match v with
  | VBool b' => Bool.eqb b' b
  | _ => false
  end.

(** Members every ordinary object inherits from [Object.prototype]. *)
Definition Object_prototype : list string :=
  [ "constructor"; "toString"; "toLocaleString"; "valueOf"; "hasOwnProperty";
    "isPrototypeOf"; "propertyIsEnumerable"; "__proto__"; "__defineGetter__";
    "__defineSetter__"; "__lookupGetter__"; "__lookupSetter__" ].

(** Members of the other built-in prototypes (ECMAScript 2023). *)
Definition Array_prototype : list string :=
  [ "length"; "at"; "concat"; "copyWithin"; "entries"; "every"; "fill"; "filter";
    "find"; "findIndex"; "findLast"; "findLastIndex"; "flat"; "flatMap"; "forEach";
    "includes"; "indexOf"; "join"; "keys"; "lastIndexOf"; "map"; "pop"; "push";
    "reduce"; "reduceRight"; "reverse"; "shift"; "slice"; "some"; "sort"; "splice";
    "toReversed"; "toSorted"; "toSpliced"; "unshift"; "values"; "with" ].

Definition String_prototype : list string :=
  [ "length"; "at"; "charAt"; "charCodeAt"; "codePointAt"; "concat"; "endsWith";
    "includes"; "indexOf"; "lastIndexOf"; "localeCompare"; "match"; "matchAll";
    "normalize"; "padEnd"; "padStart"; "repeat"; "replace"; "replaceAll"; "search";
    "slice"; "split"; "startsWith"; "substring"; "substr"; "toLocaleLowerCase";
    "toLocaleUpperCase"; "toLowerCase"; "toUpperCase"; "trim"; "trimEnd";
    "trimStart"; "anchor"; "big"; "blink"; "bold"; "fixed"; "fontcolor"; "fontsize";
    "italics"; "link"; "small"; "strike"; "sub"; "sup"; "isWellFormed";
    "toWellFormed" ].

Definition Number_prototype : list string :=
  [ "toExponential"; "toFixed"; "toPrecision" ].

Definition Function_prototype : list string :=
  [ "length"; "name"; "prototype"; "apply"; "bind"; "call"; "arguments"; "caller" ].

Definition mem (k : string) (l : list string) : bool :=
  existsb (String.eqb k) l.

Definition string_of_nat (n : nat) : string :=
  NilZero.string_of_uint (Nat.to_uint n).

(** An array index: the canonical decimal numeral of an integer below
    [2^32 - 1]. *)
Fixpoint digits_value (acc : N) (l : list ascii) : option N :=
  match l with
  | [] => Some acc
  | c :: l' =>
      let n := N_of_ascii c in
      if ((48 <=? n) && (n <=? 57))%N then digits_value (10 * acc + (n - 48))%N l'
      else None
  end.

Definition array_index (k : string) : option N :=
  let numeral :=
    match list_ascii_of_string k with
    | [] => None
    | [c] => digits_value 0 [c]
    | c :: l => if (N_of_ascii c =? 48)%N then None else digits_value 0 (c :: l)
    end in
  match numeral with
  | Some i => if (i <? 4294967295)%N then Some i else None
  | None => None
  end.

Fixpoint assoc {A} (k : string) (props : list (string * A)) : option A :=
  match props with
  | [] => None
  | (k', v) :: props' => if (k =? k')%string then Some v else assoc k props'
  end.

(** Creating the property [k] of an object that has none: an array
    index goes among the index keys, in ascending order and before every
    other key; any other key goes last. *)
Fixpoint insert_index {A} (i : N) (k : string) (v : A) (props : list (string * A))
  : list (string * A) :=
  match props with
  | [] => [(k, v)]
  | (k', v') :: rest =>
      match array_index k' with
      | Some j => if (i <? j)%N then (k, v) :: props else (k', v') :: insert_index i k v rest
      | None => (k, v) :: props
      end
  end.

Definition define_property {A} (k : string) (v : A) (props : list (string * A))
  : list (string * A) :=
  match array_index k with
  | Some i => insert_index i k v props
  | None => (props ++ [(k, v)])%list
  end.

(** Updating the property [k] in place. *)
Fixpoint update_property {A} (k : string) (f : A -> A) (props : list (string * A))
  : list (string * A) :=
  match props with
  | [] => []
  | (k', v) :: rest =>
      if (k =? k')%string then (k', f v) :: rest else (k', v) :: update_property k f rest
  end.

(** The own property [k] of a value, if it has one. *)
Definition own_property (v : value) (k : string) : option value :=
  match v with
  | VObj props => assoc k props
  | VArr elems =>
      match array_index k with
      | Some i => nth_error elems (N.to_nat i)
      | None => if (k =? "length")%string then Some (VNum (num_of_nat (length elems))) else None
      end
  | VStr s =>
      match array_index k with
      | Some i =>
          option_map (fun c => VStr (String c "")) (nth_error (list_ascii_of_string s) (N.to_nat i))
      | None => if (k =? "length")%string then Some (VNum (num_of_nat (String.length s))) else None
      end
  | _ => None
  end.

(** Whether [k] is found on the prototype chain of [v]. *)
Definition inherited (v : value) (k : string) : bool :=
  match v with
  | VUndef | VNull => false
  | VBool _ | VObj _ => mem k Object_prototype
  | VNum _ => mem k Number_prototype || mem k Object_prototype
  | VStr _ => mem k String_prototype || mem k Object_prototype
  | VArr _ => mem k Array_prototype || mem k Object_prototype
  | VNative _ => mem k Function_prototype || mem k Object_prototype
  end.

(** The property read [v[k]]. *)
Definition get (v : value) (k : string) : completion value :=
  match v with
  | VUndef | VNull => Throw TypeError
  | _ =>
      match own_property v k with
      | Some x => Normal x
      | None => Normal (if inherited v k then VNative k else VUndef)
      end
  end.

Fixpoint filterM {A} (p : A -> completion bool) (l : list A) : completion (list A) :=
  match l with
  | [] => Normal []
  | x :: l' =>
      bind (p x) (fun b =>
      bind (filterM p l') (fun r => Normal (if b then x :: r else r)))
  end.

(** [k in v] *)
Definition js_in (k : string) (v : value) : completion bool :=
  match v with
  | VArr _ | VObj _ | VNative _ =>
      Normal (match own_property v k with Some _ => true | None => inherited v k end)
  | _ => Throw TypeError
  end.

(** Object.values *)
Definition Object_values (v : value) : completion (list value) :=
  match v with
  | VUndef | VNull => Throw TypeError
  | VObj props => Normal (map snd props)
  | VArr elems => Normal elems
  | VStr s => Normal (map (fun c => VStr (String c "")) (list_ascii_of_string s))
  | VBool _ | VNum _ | VNative _ => Normal []
  end.

(** Object.keys *)
Definition Object_keys (v : value) : completion (list string) :=
  match v with
  | VUndef | VNull => Throw TypeError
  | VObj props => Normal (map fst props)
  | VArr elems => Normal (map string_of_nat (seq 0 (length elems)))
  | VStr s => Normal (map string_of_nat (seq 0 (String.length s)))
  | VBool _ | VNum _ | VNative _ => Normal []
  end.

(** ** The platform: parseFloat *)

Definition is_digit (c : ascii) : bool :=
  let n := nat_of_ascii c in ((48 <=? n) && (n <=? 57))%nat.

(** StrWhiteSpaceChar, as far as one code unit below 256 goes. *)
Definition is_space (c : ascii) : bool :=
  let n := nat_of_ascii c in
  (((9 <=? n) && (n <=? 13)) || (n =? 32) || (n =? 160))%nat.

Fixpoint skip_spaces (l : list ascii) : list ascii :=
  match l with
  | c :: l' => if is_space c then skip_spaces l' else l
  | [] => []
  end.

(** The longest run of decimal digits at the head, and what follows it. *)
Fixpoint span_digits (l : list ascii) : list ascii * list ascii :=
  match l with
  | c :: l' =>
      if is_digit c then let (ds, rest) := span_digits l' in (c :: ds, rest)
      else ([], l)
  | [] => ([], [])
  end.

Definition digits_Z (ds : list ascii) : Z :=
  fold_left (fun acc c => 10 * acc + Z.of_nat (nat_of_ascii c - 48)) ds 0.

Fixpoint starts_with (p l : list ascii) : bool :=
  match p, l with
  | [], _ => true
  | a :: p', b :: l' => Ascii.eqb a b && starts_with p' l'
  | _ :: _, [] => false
  end.

(** ExponentPart: [e] or [E], an optional sign, at least one digit;
    absent or incomplete, the exponent is 0. *)
Definition exponent_part (l : list ascii) : Z :=
  match l with
  | c :: l' =>
      if (Ascii.eqb c "e" || Ascii.eqb c "E")%char then
        match l' with
        | s :: l'' =>
            if Ascii.eqb s "-"%char then
              match fst (span_digits l'') with [] => 0 | ds => - digits_Z ds end
            else if Ascii.eqb s "+"%char then digits_Z (fst (span_digits l''))
            else digits_Z (fst (span_digits l'))
        | [] => 0
        end
      else 0
  | [] => 0
  end.

(** StrUnsignedDecimalLiteral: the value of the longest prefix that is
    one, [None] when there is none. *)
Definition unsigned_literal (l : list ascii) : option number :=
  if starts_with (list_ascii_of_string "Infinity") l then Some PInf
  else
    let (ip, r1) := span_digits l in
    let (fp, r2) :=
      match r1 with
      | c :: r =>
          if Ascii.eqb c "."%char then
            match ip, span_digits r with
            | [], ([], _) => ([], r1)
            | _, p => p
            end
          else ([], r1)
      | [] => ([], r1)
      end in
    match ip, fp with
    | [], [] => None
    | _, _ =>
        let mantissa := (inject_Z (digits_Z (ip ++ fp)) / inject_Z (10 ^ Z.of_nat (length fp)))%Q in
        Some (Fin (Qred (mantissa * Qpower 10 (exponent_part r2))))
    end.

Definition parseFloat (s : string) : number :=
  match skip_spaces (list_ascii_of_string s) with
  | c :: l =>
      if Ascii.eqb c "-"%char then
        match unsigned_literal l with Some n => num_neg n | None => NaN end
      else if Ascii.eqb c "+"%char then
        match unsigned_literal l with Some n => n | None => NaN end
      else
        match unsigned_literal (c :: l) with Some n => n | None => NaN end
  | [] => NaN
  end.

(** ** The platform: arrays *)

Section Arrays.
Context {A : Type}.

(** [Array.prototype.sort] with a comparison function: a stable sort; a
    positive result of [cmp a b] moves [b] before [a], any other result
    (negative, zero, [NaN]) keeps [a] first. *)
Fixpoint sort_insert (cmp : A -> A -> number) (x : A) (l : list A) : list A :=
  match l with
  | [] => [x]
  | y :: l' => if num_gt (cmp x y) (Fin 0) then y :: sort_insert cmp x l' else x :: l
  end.

Fixpoint Array_sort (cmp : A -> A -> number) (l : list A) : list A :=
  match l with
  | [] => []
  | x :: l' => sort_insert cmp x (Array_sort cmp l')
  end.

(** [l.slice(-n)]: the last [n] elements. *)
Definition slice_last (n : nat) (l : list A) : list A :=
  skipn (length l - n) l.

(** [l.slice(0, n)] *)
Definition slice_first (n : nat) (l : list A) : list A := firstn n l.

End Arrays.

(** ** The platform: text, object construction, the greatest number *)

(** String.prototype.trim *)
Definition trim (s : string) : string :=
  string_of_list_ascii
    (rev (skip_spaces (rev (skip_spaces (list_ascii_of_string s))))).

(** The decimal text of an integer, as a template literal prints it. *)
Definition text_of_Z (z : Z) : string := NilZero.string_of_int (Z.to_int z).

(** Setting the property [k] of an object: in place when it has the
    property, created otherwise. *)
Definition set_property {A} (k : string) (v : A) (props : list (string * A))
  : list (string * A) :=
  match assoc k props with
  | Some _ => update_property k (fun _ => v) props
  | None => define_property k v props
  end.

(** Object.fromEntries *)
Definition Object_fromEntries (entries : list (string * value)) : value :=
  VObj (fold_left (fun props kv => set_property (fst kv) (snd kv) props) entries []).

(** The greater of two numbers, [NaN] when one of them is. *)
Definition num_max (a b : number) : number :=
  match num_cmp a b with
  | None => NaN
  | Some Lt => b
  | Some _ => a
  end.

(** [Math.max(...l)] *)
Definition Math_max (l : list number) : number := fold_left num_max l NInf.

End JS.

(** ** The platform: dates *)

Module JSDate.
Import JS.

(** Days since 1970-01-01 of a day of the proleptic Gregorian calendar,
    and back. *)
Definition days_from_civil (y m d : Z) : Z :=
  let y' := if m <=? 2 then y - 1 else y in
  let era := y' / 400 in
  let yoe := y' - era * 400 in
  let doy := (153 * (m + (if 2 <? m then -3 else 9)) + 2) / 5 + d - 1 in
  let doe := yoe * 365 + yoe / 4 - yoe / 100 + doy in
  era * 146097 + doe - 719468.

Definition civil_from_days (z : Z) : Z * Z * Z :=
  let z := z + 719468 in
  let era := z / 146097 in
  let doe := z - era * 146097 in
  let yoe := (doe - doe / 1460 + doe / 36524 - doe / 146096) / 365 in
  let y := yoe + era * 400 in
  let doy := doe - (365 * yoe + yoe / 4 - yoe / 100) in
  let mp := (5 * doy + 2) / 153 in
  let d := doy - (153 * mp + 2) / 5 + 1 in
  let m := if mp <? 10 then mp + 3 else mp - 9 in
  (if m <=? 2 then y + 1 else y, m, d).

Definition is_leap (y : Z) : bool :=
  ((y mod 4 =? 0) && negb (y mod 100 =? 0)) || (y mod 400 =? 0).

Definition days_in_month (y m : Z) : Z :=
  if m =? 2 then (if is_leap y then 29 else 28)
  else if (m =? 4) || (m =? 6) || (m =? 9) || (m =? 11) then 30
  else 31.

Definition msPerDay : Z := 86400000.
Definition msPerMinute : Z := 60000.

(** The calendar date of a text of the form [YYYY-MM-DD]. *)
Definition parse_ymd (s : string) : option (Z * Z * Z) :=
  match list_ascii_of_string s with
  | [y1; y2; y3; y4; d1; m1; m2; d2; a1; a2] =>
      if forallb is_digit [y1; y2; y3; y4; m1; m2; a1; a2]
         && Ascii.eqb d1 "-" && Ascii.eqb d2 "-" then
        let y := digits_Z [y1; y2; y3; y4] in
        let m := digits_Z [m1; m2] in
        let d := digits_Z [a1; a2] in
        if (1 <=? m) && (m <=? 12) && (1 <=? d) && (d <=? days_in_month y m)
        then Some (y, m, d) else None
      else None
  | _ => None
  end.

(** A [Date] object: its time value in milliseconds since the epoch, or
    [None] for an invalid date. *)
Definition Date : Type := option Z.

Definition pad_left (width : nat) (s : string) : string :=
  string_of_list_ascii (repeat "0"%char (width - String.length s)) ++ s.

Definition digits (width : nat) (z : Z) : string :=
  pad_left width (string_of_nat (Z.to_nat z)).

(** The date part of the ISO format of a calendar date. *)
Definition iso_date (ymd : Z * Z * Z) : string :=
  let '(y, m, d) := ymd in
  (if (0 <=? y) && (y <=? 9999) then digits 4 y
   else if y <? 0 then "-" ++ digits 6 (- y) else "+" ++ digits 6 y)
  ++ "-" ++ digits 2 m ++ "-" ++ digits 2 d.

Definition month_short (m : Z) : string :=
  nth (Z.to_nat (m - 1))
    ["Jan"; "Feb"; "Mar"; "Apr"; "May"; "Jun"; "Jul"; "Aug"; "Sep"; "Oct"; "Nov"; "Dec"] "".

Section Zone.

(** The offset of local time from UTC in minutes (330 for UTC+05:30),
    taken as constant over the dates at hand. *)
Variable tz : Z.

(** [new Date(text)] for a text outside the ISO formats, and its time
    value: left to the implementation by the language definition. *)
Variable legacy_parse : string -> number.

(** [new Date(date + 'T00:00:00')]: a date-time without offset is local
    time.  A text of the form [YYYY-MM-DD] whose day the month does not
    have is no date of the ISO format; it is taken for an invalid date
    here, as the language definition has it, while an engine may carry
    the day over (2024-02-30 read as 1 March).  What is stated below of
    this function and of its callers is stated for calendar dates. *)
Definition new_Date_local_midnight (date : string) : Date :=
  match parse_ymd date with
  | Some (y, m, d) => Some (days_from_civil y m d * msPerDay - tz * msPerMinute)
  | None => None
  end.

(** [new Date(text).getTime()]: a date-only ISO text is UTC midnight. *)
Definition new_Date_getTime (text : string) : number :=
  match parse_ymd text with
  | Some (y, m, d) => numZ (days_from_civil y m d * msPerDay)
  | None => legacy_parse text
  end.

Definition local_day (t : Z) : Z := (t + tz * msPerMinute) / msPerDay.
Definition local_ms_in_day (t : Z) : Z := (t + tz * msPerMinute) mod msPerDay.

(** getDay: the local day of the week, Sunday is 0. *)
Definition getDay (t : Z) : Z := (local_day t + 4) mod 7.

(** getDate: the local day of the month. *)
Definition getDate (t : Z) : Z := snd (civil_from_days (local_day t)).

(** setDate: the local day of the month becomes [n], the month, year
    and time of day stay. *)
Definition setDate (t : Z) (n : Z) : Z :=
  let '(y, m, _) := civil_from_days (local_day t) in
  (days_from_civil y m 1 + n - 1) * msPerDay + local_ms_in_day t - tz * msPerMinute.

(** [toISOString().split('T')[0]]: the UTC calendar date. *)
Definition toISOString_date (t : Z) : string :=
  iso_date (civil_from_days (t / msPerDay)).

(** [toLocaleDateString("en-US", { month: "short", day: "numeric" })] *)
Definition toLocaleDateString_short (t : Z) : string :=
  let '(_, m, d) := civil_from_days (local_day t) in
  month_short m ++ " " ++ string_of_nat (Z.to_nat d).

End Zone.

End JSDate.

Import JS.

Notation "'let*' x ':=' c 'in' k" := (bind c (fun x => k))
  (at level 10, x name, c at level 100, k at level 200).

(** ** The records of shared/schema *)

Module Schema.

(** Modelled from the spec: the declaration of [Trade] (shared/schema) is
    not part of the sources at hand.  Section 3 of the specification lists
    the fields; the price and profit/loss columns are text or null, which
    is how the charts read them ([?.toString()] followed by
    [parseFloat]). *)
Record Trade : Type := {
  id : string;
  strategy : option string;
  stockName : string;
  tradeDate : string;
  entryPrice : option string;
  exitPrice : option string;
  stopLoss : option string;
  quantity : number;
  profitLoss : option string;
  emotion : option string;
  notes : option string
}.

(** Modelled from the spec: a strategy record is an identifier and a
    status ([active], [testing] or anything else). *)
Record Strategy : Type := {
  name : string;
  status : string
}.

(** Truthiness of a nullable text field. *)
Definition present (f : option string) : bool :=
  match f with
  | Some s => negb (s =? "")%string
  | None => false
  end.

(** [field?.toString() || "0"] *)
Definition text_or_zero (f : option string) : string :=
  match f with
  | Some s => if (s =? "")%string then "0" else s
  | None => "0"
  end.

End Schema.

(** ** lib/calculations *)

Module Calculations.
Import Schema.

(** Modelled from the spec: [getActiveStrategyTrades] (lib/calculations)
    is not part of the sources at hand.  Section 4.1: a trade passes if its
    strategy reference resolves to a strategy record whose status is
    [active]; a trade without reference, or one that resolves to anything
    else, is excluded; with an empty strategies list the filter is skipped
    and all trades pass. *)
Definition resolves_active (strategies : list Strategy) (t : Trade) : bool :=
  match strategy t with
  | None => false
  | Some ref =>
      match find (fun s => (name s =? ref)%string) strategies with
      | Some s => (status s =? "active")%string
      | None => false
      end
  end.

Definition getActiveStrategyTrades (trades : list Trade) (strategies : list Strategy)
  : list Trade :=
  match strategies with
  | [] => trades
  | _ :: _ => List.filter (resolves_active strategies) trades
  end.

(** Modelled from the spec: the numeric fallback of sections 4.4 and 7(a),
    text that does not parse to a finite number counts as 0. *)
Definition parsedPnL (t : Trade) : number :=
  match profitLoss t with
  | None => Fin 0
  | Some s => match parseFloat s with Fin q => Fin q | _ => Fin 0 end
  end.

Definition sum (l : list number) : number :=
  fold_left num_add l (Fin 0).

(** Modelled from the spec: [calculateTotalPnL] (lib/calculations) is not
    part of the sources at hand.  Section 4.4: the sum of the parsed
    profit/loss over the trades, taken after the activity filter that the
    [strategies] argument configures. *)
Definition calculateTotalPnL (trades : list Trade) (strategies : list Strategy) : number :=
  sum (map parsedPnL (getActiveStrategyTrades trades strategies)).

End Calculations.

(** ** hooks/use-checklist.ts *)

Module UseChecklist.

Inductive Category : Type := PreTrade | PostTrade.

Record ChecklistItem : Type := {
  id : string;
  name : string;
  category : Category;
  description : option string
}.

(** [interface ChecklistAdherence { [itemId: string]: boolean }] *)
Abbreviation ChecklistAdherence := (gmap string bool).

(** A typed adherence map as the object it is at run time. *)
Definition adherence_object (m : ChecklistAdherence) : value :=
  VObj (map (fun kv => (fst kv, VBool (snd kv))) (map_to_list m)).

(** [interface TradeWithChecklist]; [VUndef] is an absent member. *)
Record TradeWithChecklist : Type := {
  checklist : value;
  userNotes : value
}.

Definition category_eqb (a b : Category) : bool :=
  match a, b with
  | PreTrade, PreTrade | PostTrade, PostTrade => true
  | _, _ => false
  end.

(** The item lists the three editing callbacks hand to
    [saveChecklistItems]. *)
Definition addChecklistItem (newItem : ChecklistItem) (checklistItems : list ChecklistItem)
  : list ChecklistItem :=
  (checklistItems ++ [newItem])%list.

Definition updateChecklistItem (id' : string) (updates : ChecklistItem -> ChecklistItem)
    (checklistItems : list ChecklistItem) : list ChecklistItem :=
  map (fun item => if (id item =? id')%string then updates item else item) checklistItems.

Definition deleteChecklistItem (id' : string) (checklistItems : list ChecklistItem)
  : list ChecklistItem :=
  List.filter (fun item => negb (id item =? id')%string) checklistItems.

Definition calculateAdherenceScore (checklist : value) : completion number :=
  let* items := Object_values checklist in
  if (length items =? 0)%nat then Normal (Fin 0)
  else
    let followedItems := length (List.filter Boolean items) in
    Normal (num_mul (num_div (num_of_nat followedItems) (num_of_nat (length items))) (Fin 100)).

Definition getAdherenceLevel (score : number) : string :=
  if num_ge score (Fin 90) then "Excellent"
  else if num_ge score (Fin 75) then "Good"
  else if num_ge score (Fin 50) then "Fair"
  else if num_ge score (Fin 25) then "Poor"
  else "Very Poor".

Section WithJSON.

(** [JSON.parse]: what it returns for a text, or the [SyntaxError] it
    throws, is the platform's and is taken as given. *)
Variable JSON_parse : string -> completion value.

Definition parseTradeNotes (notes : option string) : completion TradeWithChecklist :=
  match notes with
  | None => Normal {| checklist := VUndef; userNotes := VStr "" |}
  | Some text =>
      if (text =? "")%string then Normal {| checklist := VUndef; userNotes := VStr "" |}
      else
        let* attempt := try_catch
          (let* parsed := JSON_parse text in
           if Boolean parsed && (typeof parsed =? "object")%string then
             let* has := js_in "checklist" parsed in
             if has then
               let* c := get parsed "checklist" in
               let* u := get parsed "userNotes" in
               Normal (Some {| checklist := js_or c (VObj []);
                               userNotes := js_or u (VStr "") |})
             else Normal None
           else Normal None)
          (fun error => Normal None) in
        match attempt with
        | Some result => Normal result
        | None => Normal {| checklist := VUndef; userNotes := VStr text |}
        end
  end.

(** What the hook returns for the current item list. *)
Record Hook : Type := {
  checklistItems : list ChecklistItem;
  hook_parseTradeNotes : option string -> completion TradeWithChecklist;
  hook_calculateAdherenceScore : value -> completion number;
  hook_getAdherenceLevel : number -> string;
  preTradeItems : list ChecklistItem;
  postTradeItems : list ChecklistItem
}.

Definition useChecklist (items : list ChecklistItem) : Hook := {|
  checklistItems := items;
  hook_parseTradeNotes := parseTradeNotes;
  hook_calculateAdherenceScore := calculateAdherenceScore;
  hook_getAdherenceLevel := getAdherenceLevel;
  preTradeItems := List.filter (fun item => category_eqb (category item) PreTrade) items;
  postTradeItems := List.filter (fun item => category_eqb (category item) PostTrade) items
|}.

End WithJSON.

(** *** The stored item list and the writer of the notes *)

Definition STORAGE_KEY : string := "tradingDashboard_checklistItems".

Definition defaultItems : list ChecklistItem :=
  [ {| id := "market-trend"; name := "Checked overall market trend";
       category := PreTrade; description := Some "Verified market direction before entry" |};
    {| id := "volume-confirmation"; name := "Volume confirmation present";
       category := PreTrade; description := Some "Adequate volume to support the move" |};
    {| id := "risk-reward"; name := "Risk-reward ratio calculated";
       category := PreTrade; description := Some "Minimum 1:2 risk-reward ratio" |};
    {| id := "stop-loss-set"; name := "Stop loss level defined";
       category := PreTrade; description := Some "Clear exit strategy in place" |};
    {| id := "position-size"; name := "Position size calculated";
       category := PreTrade; description := Some "Risk per trade within limits" |};
    {| id := "exit-plan"; name := "Exit plan executed";
       category := PostTrade; description := Some "Followed predetermined exit strategy" |};
    {| id := "emotion-control"; name := "Emotions controlled";
       category := PostTrade; description := Some "Did not let emotions drive decisions" |};
    {| id := "lesson-learned"; name := "Key lesson identified";
       category := PostTrade; description := Some "Identified learning from this trade" |} ].

(** [Omit<ChecklistItem, 'id'>] *)
Record ChecklistItemDraft : Type := {
  draft_name : string;
  draft_category : Category;
  draft_description : option string
}.

(** [{ ...item, id: `item-${Date.now()}-${Math.random().toString(36).substr(2, 9)}` }];
    [now] is what [Date.now()] returned and [random36] the text of the
    random number in base 36. *)
Definition newItem (now : Z) (random36 : string) (item : ChecklistItemDraft) : ChecklistItem :=
  {| id := "item-" ++ text_of_Z now ++ "-" ++ substring 2 9 random36;
     name := draft_name item;
     category := draft_category item;
     description := draft_description item |}.

(** [Partial<ChecklistItem>]: [None] is a member the object does not
    have; a [description] that is present may hold [undefined]. *)
Record ChecklistItemUpdates : Type := {
  updated_id : option string;
  updated_name : option string;
  updated_category : option Category;
  updated_description : option (option string)
}.

(** [{ ...item, ...updates }] *)
Definition spread (updates : ChecklistItemUpdates) (item : ChecklistItem) : ChecklistItem :=
  {| id := match updated_id updates with Some x => x | None => id item end;
     name := match updated_name updates with Some x => x | None => name item end;
     category := match updated_category updates with Some x => x | None => category item end;
     description :=
       match updated_description updates with Some x => x | None => description item end |}.

Section Storage.

(** [JSON.stringify] and [JSON.parse] at the declared type of the item
    list, and whether [localStorage.setItem] takes a text (it throws when
    the quota is exceeded). *)
Variable stringify_items : list ChecklistItem -> string.
Variable parse_items : string -> completion (list ChecklistItem).
Variable fits : string -> bool.

(** What [localStorage] holds under [STORAGE_KEY] ([None] when nothing),
    and the state [checklistItems] of the hook. *)
Record Store : Type := {
  saved : option string;
  current : list ChecklistItem
}.

Definition setChecklistItems (items : list ChecklistItem) (st : Store) : Store :=
  {| saved := saved st; current := items |}.

Definition saveChecklistItems (items : list ChecklistItem) (st : Store) : Store :=
  let text := stringify_items items in
  if fits text then setChecklistItems items {| saved := Some text; current := current st |}
  else st.

Definition loadChecklistItems (st : Store) : Store :=
  let initialise := saveChecklistItems defaultItems (setChecklistItems defaultItems st) in
  match saved st with
  | Some text =>
      if (text =? "")%string then initialise
      else
        match parse_items text with
        | Normal items => setChecklistItems items st
        | Throw _ => setChecklistItems [] st
        end
  | None => initialise
  end.

(** The three editing callbacks as transitions of the store. *)
Definition store_add (now : Z) (random36 : string) (item : ChecklistItemDraft) (st : Store) : Store :=
  saveChecklistItems (addChecklistItem (newItem now random36 item) (current st)) st.

Definition store_update (id' : string) (updates : ChecklistItemUpdates) (st : Store) : Store :=
  saveChecklistItems (updateChecklistItem id' (spread updates) (current st)) st.

Definition store_delete (id' : string) (st : Store) : Store :=
  saveChecklistItems (deleteChecklistItem id' (current st)) st.

End Storage.

Section Serialize.
Variable JSON_stringify : value -> string.

Definition serializeTradeNotes (checklist : ChecklistAdherence) (userNotes : string) : string :=
  let data := VObj [("checklist", adherence_object checklist);
                    ("userNotes", VStr (trim userNotes))] in
  JSON_stringify data.

End Serialize.

End UseChecklist.

(** ** components/checklist/trade-checklist *)

Module TradeChecklist.
Import UseChecklist.


(** [Object.fromEntries(items.map(item => [item.id, checklist[item.id] || false]))] *)
Definition sectionChecklist (items : list ChecklistItem) (checklist : ChecklistAdherence)
  : completion value :=
  let* entries :=
    mapM (fun item =>
            let* v := get (adherence_object checklist) (id item) in
            Normal (id item, js_or v (VBool false)))
         items in
  Normal (Object_fromEntries entries).

Section WithHook.
Variable hook : Hook.

Definition preTradeScore (checklist : ChecklistAdherence) : completion number :=
  let* section := sectionChecklist (preTradeItems hook) checklist in
  hook_calculateAdherenceScore hook section.

Definition postTradeScore (checklist : ChecklistAdherence) : completion number :=
  let* section := sectionChecklist (postTradeItems hook) checklist in
  hook_calculateAdherenceScore hook section.


End WithHook.

End TradeChecklist.

(** ** components/charts/checklist-adherence-chart *)

Module ChecklistAdherenceChart.
Import Schema Calculations.

(** An element of [tradesWithChecklist]: the trade with the parsed
    checklist and the figures derived from it. *)
Record TradeEx : Type := {
  trade : Trade;
  checklist : value;
  userNotes : value;
  adherenceScore : number;
  adherenceLevel : string;
  pnl : number;
  isWin : bool
}.

(** One bar of the adherence chart. *)
Record LevelRow : Type := {
  level : string;
  trades : nat;
  totalPnL : number;
  winRate : number;
  avgPnL : number;
  color : string
}.

(** One entry of the per-item analysis. *)
Record ItemRow : Type := {
  item : string;
  category : UseChecklist.Category;
  followedTrades : nat;
  notFollowedTrades : nat;
  followedPnL : number;
  notFollowedPnL : number;
  followedWinRate : number;
  notFollowedWinRate : number;
  impact : number;
  winRateImpact : number
}.

Definition getAdherenceColor (level : string) : string :=
  if (level =? "Excellent")%string then "hsl(142, 76%, 36%)"
  else if (level =? "Good")%string then "hsl(45, 93%, 47%)"
  else if (level =? "Fair")%string then "hsl(221, 83%, 53%)"
  else if (level =? "Poor")%string then "hsl(0, 84%, 60%)"
  else if (level =? "Very Poor")%string then "hsl(0, 70%, 50%)"
  else "hsl(210, 40%, 60%)".

Definition getAdherenceSortOrder (level : string) : number :=
  if (level =? "Excellent")%string then Fin 1
  else if (level =? "Good")%string then Fin 2
  else if (level =? "Fair")%string then Fin 3
  else if (level =? "Poor")%string then Fin 4
  else if (level =? "Very Poor")%string then Fin 5
  else Fin 6.

(** [l.length > 0 ? (l.filter(t => t.isWin).length / l.length) * 100 : 0] *)
Definition winRateOf (l : list TradeEx) : number :=
  if (0 <? length l)%nat
  then num_mul (num_div (num_of_nat (length (List.filter isWin l))) (num_of_nat (length l)))
               (Fin 100)
  else Fin 0.

(** [l.length > 0 ? calculateTotalPnL(l, strategies) / l.length : 0] *)
Definition averagePnLOf (strategies : list Strategy) (l : list TradeEx) : number :=
  if (0 <? length l)%nat
  then num_div (calculateTotalPnL (map trade l) strategies) (num_of_nat (length l))
  else Fin 0.

(** The grouping [reduce]: the accumulator is an object from level to
    array, held as its entries in enumeration order.  The keys are
    results of [getAdherenceLevel], none of which [Object.prototype]
    defines, so [acc[level]] is an own property or undefined. *)
Definition push_group (acc : list (string * list TradeEx)) (t : TradeEx)
  : list (string * list TradeEx) :=
  let level := adherenceLevel t in
  let acc :=
    match assoc level acc with
    | Some _ => acc
    | None => define_property level [] acc
    end in
  update_property level (fun ts => (ts ++ [t])%list) acc.

Definition adherenceGroups (tradesWithChecklist : list TradeEx) : list (string * list TradeEx) :=
  fold_left push_group tradesWithChecklist [].

Definition levelRow (strategies : list Strategy) (entry : string * list TradeEx) : LevelRow :=
  let (level, levelTrades) := entry in
  let totalPnL := calculateTotalPnL (map trade levelTrades) strategies in
  {| level := level;
     trades := length levelTrades;
     totalPnL := totalPnL;
     winRate := winRateOf levelTrades;
     avgPnL := if (0 <? length levelTrades)%nat
               then num_div totalPnL (num_of_nat (length levelTrades)) else Fin 0;
     color := getAdherenceColor level |}.

Definition adherenceData (strategies : list Strategy) (tradesWithChecklist : list TradeEx)
  : list LevelRow :=
  Array_sort
    (fun a b => num_sub (getAdherenceSortOrder (level a)) (getAdherenceSortOrder (level b)))
    (map (levelRow strategies) (adherenceGroups tradesWithChecklist)).

(** [trade.checklist[itemId] === b] *)
Definition follows (b : bool) (itemId : string) (t : TradeEx) : completion bool :=
  let* v := get (checklist t) itemId in
  Normal (strict_equals_bool v b).

Definition analyseItem (strategies : list Strategy) (tradesWithChecklist : list TradeEx)
    (it : UseChecklist.ChecklistItem) : completion ItemRow :=
  let* followed := filterM (follows true (UseChecklist.id it)) tradesWithChecklist in
  let* notFollowed := filterM (follows false (UseChecklist.id it)) tradesWithChecklist in
  let followedPnL := averagePnLOf strategies followed in
  let notFollowedPnL := averagePnLOf strategies notFollowed in
  let followedWinRate := winRateOf followed in
  let notFollowedWinRate := winRateOf notFollowed in
  Normal {| item := UseChecklist.name it;
            category := UseChecklist.category it;
            followedTrades := length followed;
            notFollowedTrades := length notFollowed;
            followedPnL := followedPnL;
            notFollowedPnL := notFollowedPnL;
            followedWinRate := followedWinRate;
            notFollowedWinRate := notFollowedWinRate;
            impact := num_sub followedPnL notFollowedPnL;
            winRateImpact := num_sub followedWinRate notFollowedWinRate |}.

Definition itemAnalysis (checklistItems : list UseChecklist.ChecklistItem)
    (strategies : list Strategy) (tradesWithChecklist : list TradeEx)
  : completion (list ItemRow) :=
  let* rows := mapM (analyseItem strategies tradesWithChecklist) checklistItems in
  Normal
    (List.filter (fun r => (0 <? followedTrades r)%nat || (0 <? notFollowedTrades r)%nat) rows).

Section WithHook.

(** What [useChecklist()] returned to the component. *)
Variable hook : UseChecklist.Hook.

(** The callback of [activeTrades.map(...)]. *)
Definition withChecklist (t : Trade) : completion TradeEx :=
  let* parsed := UseChecklist.hook_parseTradeNotes hook (notes t) in
  let* adherenceScore :=
    (if Boolean (UseChecklist.checklist parsed)
     then UseChecklist.hook_calculateAdherenceScore hook (UseChecklist.checklist parsed)
     else Normal (Fin 0)) in
  let pnl := parseFloat (text_or_zero (profitLoss t)) in
  Normal {| trade := t;
            checklist := js_or (UseChecklist.checklist parsed) (VObj []);
            userNotes := js_or (UseChecklist.userNotes parsed) (VStr "");
            adherenceScore := adherenceScore;
            adherenceLevel := UseChecklist.hook_getAdherenceLevel hook adherenceScore;
            pnl := pnl;
            isWin := num_gt pnl (Fin 0) |}.

Definition tradesWithChecklist (trades : list Trade) (strategies : list Strategy)
  : completion (list TradeEx) :=
  let activeTrades := getActiveStrategyTrades trades strategies in
  mapM withChecklist activeTrades.

(** The two data sets the component renders. *)
Definition ChecklistAdherenceChart (trades : list Trade) (strategies : list Strategy)
  : completion (list LevelRow * list ItemRow) :=
  let* twc := tradesWithChecklist trades strategies in
  let* items := itemAnalysis (UseChecklist.checklistItems hook) strategies twc in
  Normal (adherenceData strategies twc, items).

End WithHook.

End ChecklistAdherenceChart.

(** ** pages/discipline *)

Module Discipline.
Import Schema Calculations ChecklistAdherenceChart.

(** One entry of the "Top Impact Items" card: the item (its members are
    spread into the entry) with its impact and cohort sizes. *)
Record TopItem : Type := {
  definition : UseChecklist.ChecklistItem;
  impact : number;
  followedTrades : nat;
  notFollowedTrades : nat
}.

(** [Object.keys(trade.checklist).length > 0] *)
Definition hasChecklistData (t : TradeEx) : completion bool :=
  let* keys := Object_keys (checklist t) in
  Normal (0 <? length keys)%nat.

Definition rankItem (strategies : list Strategy) (tradesWithChecklistData : list TradeEx)
    (it : UseChecklist.ChecklistItem) : completion TopItem :=
  let* followed := filterM (follows true (UseChecklist.id it)) tradesWithChecklistData in
  let* notFollowed := filterM (follows false (UseChecklist.id it)) tradesWithChecklistData in
  let followedPnL := averagePnLOf strategies followed in
  let notFollowedPnL := averagePnLOf strategies notFollowed in
  Normal {| definition := it;
            impact := num_sub followedPnL notFollowedPnL;
            followedTrades := length followed;
            notFollowedTrades := length notFollowed |}.

(** [(a, b) => Math.abs(b.impact) - Math.abs(a.impact)] *)
Definition byAbsImpact (a b : TopItem) : number :=
  num_sub (Math_abs (impact b)) (Math_abs (impact a)).

(** [item => item.followedTrades > 0 || item.notFollowedTrades > 0] *)
Definition hasTrades (r : TopItem) : bool :=
  (0 <? followedTrades r)%nat || (0 <? notFollowedTrades r)%nat.

Section WithHook.
Variable hook : UseChecklist.Hook.

(** [filteredTrades] is the page's time-range selection of the trades. *)
Definition tradesWithChecklistData (filteredTrades : list Trade) : completion (list TradeEx) :=
  let* twc := mapM (withChecklist hook) filteredTrades in
  filterM hasChecklistData twc.

Definition topImpactItems (filteredTrades : list Trade) (strategies : list Strategy)
  : completion (list TopItem) :=
  let* data := tradesWithChecklistData filteredTrades in
  let* rows := mapM (rankItem strategies data) (UseChecklist.checklistItems hook) in
  Normal (slice_first 5 (Array_sort byAbsImpact (List.filter hasTrades rows))).

End WithHook.

(** *** The time range, the two cohorts and the distribution *)

Section TimeRange.

(** The time value of [new Date()], and the reading of date texts
    outside the ISO format. *)
Variable now : Z.
Variable legacy_parse : string -> number.

(** [new Date(now.getTime() - days * 24 * 60 * 60 * 1000)] *)
Definition daysAgo (days : Z) : number := numZ (now - days * 24 * 60 * 60 * 1000).

(** [trades.filter(trade => new Date(trade.tradeDate) >= startDate)] *)
Definition since (startDate : number) (trades : list Trade) : list Trade :=
  List.filter (fun trade => num_ge (JSDate.new_Date_getTime legacy_parse (tradeDate trade)) startDate)
              trades.

Definition filteredTrades (timeRange customStartDate customEndDate : string)
    (trades : list Trade) : list Trade :=
  if (timeRange =? "all")%string then trades
  else if (timeRange =? "7d")%string then since (daysAgo 7) trades
  else if (timeRange =? "30d")%string then since (daysAgo 30) trades
  else if (timeRange =? "90d")%string then since (daysAgo 90) trades
  else if (timeRange =? "1y")%string then since (daysAgo 365) trades
  else if (timeRange =? "custom")%string then
    if (customStartDate =? "")%string || (customEndDate =? "")%string then trades
    else
      List.filter
        (fun trade =>
           let tradeDate := JSDate.new_Date_getTime legacy_parse (tradeDate trade) in
           num_ge tradeDate (JSDate.new_Date_getTime legacy_parse customStartDate)
           && num_le tradeDate (JSDate.new_Date_getTime legacy_parse customEndDate))
        trades
  else trades.

End TimeRange.

Definition highAdherenceTradesData (tradesWithChecklistData : list TradeEx) : list TradeEx :=
  List.filter (fun trade => num_ge (adherenceScore trade) (Fin 75)) tradesWithChecklistData.

Definition lowAdherenceTradesData (tradesWithChecklistData : list TradeEx) : list TradeEx :=
  List.filter (fun trade => num_lt (adherenceScore trade) (Fin 50)) tradesWithChecklistData.

Definition avgAdherenceScore (tradesWithChecklistData : list TradeEx) : number :=
  if (0 <? length tradesWithChecklistData)%nat
  then num_div
         (fold_left (fun sum trade => num_add sum (adherenceScore trade))
                    tradesWithChecklistData (Fin 0))
         (num_of_nat (length tradesWithChecklistData))
  else Fin 0.

(** One row of the card "Adherence Distribution". *)
Definition levelTrades (level : string) (tradesWithChecklistData : list TradeEx)
  : list TradeEx :=
  List.filter (fun trade => (adherenceLevel trade =? level)%string) tradesWithChecklistData.

Definition percentage (level : string) (tradesWithChecklistData : list TradeEx) : number :=
  if (0 <? length tradesWithChecklistData)%nat
  then num_mul
         (num_div (num_of_nat (length (levelTrades level tradesWithChecklistData)))
                  (num_of_nat (length tradesWithChecklistData)))
         (Fin 100)
  else Fin 0.

Definition adherenceDistribution (tradesWithChecklistData : list TradeEx)
  : list (string * nat * number) :=
  map (fun level =>
         (level, length (levelTrades level tradesWithChecklistData),
          percentage level tradesWithChecklistData))
      ["Excellent"; "Good"; "Fair"; "Poor"; "Very Poor"].

End Discipline.

(** ** components/charts/risk-reward-chart *)

Module RiskRewardChart.
Import Schema Calculations.

Record Point : Type := {
  risk : number;
  reward : number;
  ratio : number;
  pnl : number;
  stockName : string;
  tradeDate : string;
  isWin : bool
}.

Definition point (t : Trade) : Point :=
  let entryPrice := parseFloat (text_or_zero (Schema.entryPrice t)) in
  let exitPrice := parseFloat (text_or_zero (Schema.exitPrice t)) in
  let stopLoss := parseFloat (text_or_zero (Schema.stopLoss t)) in
  let pnl := parseFloat (text_or_zero (profitLoss t)) in
  let risk := Math_abs (num_sub entryPrice stopLoss) in
  let reward := Math_abs (num_sub exitPrice entryPrice) in
  let riskRewardRatio := if num_gt risk (Fin 0) then num_div reward risk else Fin 0 in
  {| risk := risk;
     reward := reward;
     ratio := riskRewardRatio;
     pnl := pnl;
     stockName := Schema.stockName t;
     tradeDate := Schema.tradeDate t;
     isWin := num_gt pnl (Fin 0) |}.

(** [trade.entryPrice && trade.exitPrice && trade.stopLoss] *)
Definition hasAllInputs (t : Trade) : bool :=
  present (Schema.entryPrice t) && present (Schema.exitPrice t) && present (Schema.stopLoss t).

Definition riskRewardData (trades : list Trade) (strategies : list Strategy) : list Point :=
  let activeTrades := getActiveStrategyTrades trades strategies in
  map point (List.filter hasAllInputs activeTrades).

Definition avgRiskReward (riskRewardData : list Point) : number :=
  if (0 <? length riskRewardData)%nat
  then num_div (fold_left (fun sum p => num_add sum (ratio p)) riskRewardData (Fin 0))
               (num_of_nat (length riskRewardData))
  else Fin 0.

(** *** The figures under the chart *)

(** [Math.max(...riskRewardData.map(trade => trade.ratio))] *)
Definition bestRiskReward (riskRewardData : list Point) : number :=
  Math_max (map ratio riskRewardData).

(** [riskRewardData.filter(trade => trade.ratio > 1).length] *)
Definition goodRiskReward (riskRewardData : list Point) : nat :=
  length (List.filter (fun trade => num_gt (ratio trade) (Fin 1)) riskRewardData).

End RiskRewardChart.

(** ** components/charts/trade-frequency-chart *)

Module TradeFrequencyChart.
Import Schema Calculations JSDate.

Record Week : Type := {
  week : string;
  trades : nat;
  totalVolume : number;
  avgPnL : number;
  pnlSum : number
}.

Section Zone.
Variable tz : Z.
Variable legacy_parse : string -> number.

(** The key and the label of the week of a trade date.  [toISOString]
    throws a [RangeError] on an invalid date. *)
Definition weekOf (tradeDate : string) : completion (string * string) :=
  match new_Date_local_midnight tz tradeDate with
  | None => Throw RangeError
  | Some date =>
      let weekStart := setDate tz date (getDate tz date - getDay tz date) in
      Normal (toISOString_date weekStart, toLocaleDateString_short tz weekStart)
  end.

(** The callback of the [reduce]; the keys are ISO dates, which are
    neither array indices nor names that [Object.prototype] defines. *)
Definition addTrade (acc : list (string * Week)) (t : Trade) : completion (list (string * Week)) :=
  let* kl := weekOf (tradeDate t) in
  let (weekKey, weekLabel) := kl : string * string in
  let acc :=
    match assoc weekKey acc with
    | Some _ => acc
    | None =>
        define_property weekKey
          {| week := weekLabel; trades := 0; totalVolume := Fin 0; avgPnL := Fin 0;
             pnlSum := Fin 0 |} acc
    end in
  let pnl := parseFloat (text_or_zero (profitLoss t)) in
  let volume := num_mul (parseFloat (text_or_zero (entryPrice t))) (quantity t) in
  Normal
    (update_property weekKey
       (fun w =>
          let trades' := S (trades w) in
          let pnlSum' := num_add (pnlSum w) pnl in
          {| week := week w;
             trades := trades';
             totalVolume := num_add (totalVolume w) volume;
             avgPnL := num_div pnlSum' (num_of_nat trades');
             pnlSum := pnlSum' |})
       acc).

Fixpoint reduce {A B} (f : B -> A -> completion B) (l : list A) (acc : B) : completion B :=
  match l with
  | [] => Normal acc
  | x :: l' => let* acc' := f acc x in reduce f l' acc'
  end.

Definition weeklyData (trades : list Trade) (strategies : list Strategy)
  : completion (list (string * Week)) :=
  let activeTrades := getActiveStrategyTrades trades strategies in
  reduce addTrade activeTrades [].

Definition byWeekLabel (a b : Week) : number :=
  num_sub (new_Date_getTime legacy_parse (week a)) (new_Date_getTime legacy_parse (week b)).

Definition chartData (trades : list Trade) (strategies : list Strategy) : completion (list Week) :=
  let* weeklyData := weeklyData trades strategies in
  Normal (slice_last 12 (Array_sort byWeekLabel (map snd weeklyData))).

End Zone.

(** *** The figures under the chart *)

(** The four figures under the chart, shown when [chartData] is not
    empty. *)
Definition avgTradesPerWeek (chartData : list Week) : number :=
  num_div (fold_left (fun sum week => num_add sum (num_of_nat (trades week))) chartData (Fin 0))
          (num_of_nat (length chartData)).

Definition mostActiveWeek (chartData : list Week) : number :=
  Math_max (map (fun week => num_of_nat (trades week)) chartData).

Definition totalVolumeShown (chartData : list Week) : number :=
  fold_left (fun sum week => num_add sum (totalVolume week)) chartData (Fin 0).

Definition consistency (chartData : list Week) : number :=
  num_mul
    (num_div (num_of_nat (length (List.filter (fun week => (0 <? trades week)%nat) chartData)))
             (num_of_nat (length chartData)))
    (Fin 100).

End TradeFrequencyChart.

(** ** components/charts/psychology-mood-tracker *)

Module PsychologyMoodTracker.
Import Schema Calculations JSDate.

Definition EMOTION_SCORES : value :=
  VObj [ ("Confident", VNum (Fin 5));
         ("Excited", VNum (Fin 4));
         ("Disciplined", VNum (Fin 4));
         ("Neutral", VNum (Fin 3));
         ("Anxious", VNum (Fin 2));
         ("Fearful", VNum (Fin 1));
         ("Greedy", VNum (Fin 1)) ].

Record Day : Type := {
  date : string;
  emotions : list value;
  pnls : list number;
  trades : nat
}.

(** One point of the chart; [label] is the member [date] of the source
    and [dayTrades] its member [trades], which share their names with the
    members of [Day]. *)
Record MoodPoint : Type := {
  label : string;
  fullDate : string;
  moodScore : number;
  pnl : number;
  dayTrades : nat;
  moodLabel : string
}.

(** [trade.emotion || "Neutral"] *)
Definition emotionOf (t : Trade) : string :=
  match emotion t with
  | Some e => if (e =? "")%string then "Neutral" else e
  | None => "Neutral"
  end.

(** [EMOTION_SCORES[emotion] || 3] *)
Definition emotionScore (emotion : string) : completion value :=
  let* v := get EMOTION_SCORES emotion in
  Normal (js_or v (VNum (Fin 3))).

(** The callback of the [reduce].  The keys are the trade dates as they
    come: for a date that is a name [Object.prototype] defines,
    [acc[date]] is the inherited member, the day is not created, and
    [acc[date].emotions.push] throws. *)
Definition addTrade (acc : list (string * Day)) (t : Trade) : completion (list (string * Day)) :=
  let date := tradeDate t in
  let* score := emotionScore (emotionOf t) in
  let pnl := parseFloat (text_or_zero (profitLoss t)) in
  let* acc :=
    match assoc date acc with
    | Some _ => Normal acc
    | None =>
        if mem date Object_prototype then Throw TypeError
        else Normal (define_property date
                       {| date := date; emotions := []; pnls := []; trades := 0 |} acc)
    end in
  Normal
    (update_property date
       (fun d => {| date := PsychologyMoodTracker.date d;
                    emotions := (emotions d ++ [score])%list;
                    pnls := (pnls d ++ [pnl])%list;
                    trades := S (trades d) |})
       acc).

Definition dailyMoodData (trades : list Trade) (strategies : list Strategy)
  : completion (list (string * Day)) :=
  let activeTrades := getActiveStrategyTrades trades strategies in
  TradeFrequencyChart.reduce addTrade activeTrades [].

Fixpoint numbers_of (l : list value) : option (list number) :=
  match l with
  | [] => Some []
  | VNum n :: l' => option_map (cons n) (numbers_of l')
  | _ :: _ => None
  end.

(** [emotions.reduce((sum, score) => sum + score, 0) / emotions.length].
    Between numbers [+] adds; once a score is not a number (it is then a
    built-in function or object) [+] concatenates text, and the quotient
    of that text by the length is [NaN]. *)
Definition avgMood (emotions : list value) : number :=
  match numbers_of emotions with
  | Some scores => num_div (sum scores) (num_of_nat (length emotions))
  | None => NaN
  end.

Definition getMoodLabel (score : number) : string :=
  if num_ge score (Fin (9 # 2)) then "Very Positive"
  else if num_ge score (Fin (7 # 2)) then "Positive"
  else if num_ge score (Fin (5 # 2)) then "Neutral"
  else if num_ge score (Fin (3 # 2)) then "Negative"
  else "Very Negative".

Section Zone.
Variable tz : Z.
Variable legacy_parse : string -> number.

Definition dayLabel (date : string) : string :=
  match new_Date_local_midnight tz date with
  | Some t => toLocaleDateString_short tz t
  | None => "Invalid Date"
  end.

Definition moodPoint (day : Day) : MoodPoint :=
  let avgMood := avgMood (emotions day) in
  let totalPnL := sum (pnls day) in
  {| label := dayLabel (date day);
     fullDate := date day;
     moodScore := avgMood;
     pnl := totalPnL;
     dayTrades := trades day;
     moodLabel := getMoodLabel avgMood |}.

Definition byFullDate (a b : MoodPoint) : number :=
  num_sub (new_Date_getTime legacy_parse (fullDate a))
          (new_Date_getTime legacy_parse (fullDate b)).

Definition chartData (trades : list Trade) (strategies : list Strategy)
  : completion (list MoodPoint) :=
  let* dailyMoodData := dailyMoodData trades strategies in
  Normal (slice_last 30 (Array_sort byFullDate (map moodPoint (map snd dailyMoodData)))).

Definition avgMoodScore (chartData : list MoodPoint) : number :=
  if (0 <? length chartData)%nat
  then num_div (sum (map moodScore chartData)) (num_of_nat (length chartData))
  else Fin 3.

End Zone.

(** *** The figures under the chart *)

(** The figures under the chart, shown when [chartData] is not empty. *)
Definition bestDay (chartData : list MoodPoint) : number :=
  Math_max (map moodScore chartData).

Definition positiveDays (chartData : list MoodPoint) : nat :=
  length (List.filter (fun day => num_gt (moodScore day) (Fin 3)) chartData).

Definition moodConsistency (chartData : list MoodPoint) : number :=
  num_mul
    (num_div (num_of_nat (length (List.filter (fun day => num_ge (moodScore day) (Fin 3))
                                              chartData)))
             (num_of_nat (length chartData)))
    (Fin 100).

End PsychologyMoodTracker.

(** ** components/charts/pnl-chart *)

Module PnLChart.
Import Schema Calculations JSDate.

(** What a member of [dailyData] holds: a number, or the text that [+=]
    makes of a member inherited from [Object.prototype] (the source text of
    a built-in function followed by numerals). *)
Inductive Total : Type :=
| Amount (n : number)
| Text.

(** What the read [acc[date]] finds. *)
Inductive Slot : Type :=
| Own (v : Total)
| Inherited
| Absent.

Definition read (acc : list (string * Total)) (date : string) : Slot :=
  match assoc date acc with
  | Some v => Own v
  | None => if mem date Object_prototype then Inherited else Absent
  end.

(** [!acc[date]] *)
Definition falsy (s : Slot) : bool :=
  match s with
  | Own (Amount n) => negb (Boolean (VNum n))
  | Own Text | Inherited => false
  | Absent => true
  end.

(** [acc[date] = v]; the setter of [__proto__] ignores a value that is
    not an object. *)
Definition write (date : string) (v : Total) (acc : list (string * Total))
  : list (string * Total) :=
  if (date =? "__proto__")%string then acc else set_property date v acc.

(** [acc[date] + pnl] *)
Definition plus (s : Slot) (pnl : number) : Total :=
  match s with
  | Own (Amount n) => Amount (num_add n pnl)
  | Own Text | Inherited => Text
  | Absent => Amount NaN
  end.

(** The callback of the [reduce]. *)
Definition addTrade (acc : list (string * Total)) (t : Trade) : list (string * Total) :=
  let date := tradeDate t in
  let pnl := parseFloat (text_or_zero (profitLoss t)) in
  let acc := if falsy (read acc date) then write date (Amount (Fin 0)) acc else acc in
  write date (plus (read acc date) pnl) acc.

Definition dailyData (trades : list Trade) (strategies : list Strategy)
  : list (string * Total) :=
  let activeTrades := getActiveStrategyTrades trades strategies in
  fold_left addTrade activeTrades [].

(** One bar of the chart; [label] is the member [date] of the source. *)
Record Bar : Type := {
  label : string;
  fullDate : string;
  pnl : Total;
  profit : number;
  loss : number
}.

Section Zone.
Variable tz : Z.
Variable legacy_parse : string -> number.

Definition dayLabel (date : string) : string :=
  match new_Date_local_midnight tz date with
  | Some t => toLocaleDateString_short tz t
  | None => "Invalid Date"
  end.

(** A text that starts with the source text of a function is no numeral:
    compared with 0 it is [NaN], and both comparisons fail. *)
Definition bar (entry : string * Total) : Bar :=
  let (date, pnl) := entry in
  {| label := dayLabel date;
     fullDate := date;
     pnl := pnl;
     profit := match pnl with
               | Amount n => if num_gt n (Fin 0) then n else Fin 0
               | Text => Fin 0
               end;
     loss := match pnl with
             | Amount n => if num_lt n (Fin 0) then n else Fin 0
             | Text => Fin 0
             end |}.

Definition byFullDate (a b : Bar) : number :=
  num_sub (new_Date_getTime legacy_parse (fullDate a))
          (new_Date_getTime legacy_parse (fullDate b)).

Definition chartData (trades : list Trade) (strategies : list Strategy) : list Bar :=
  slice_last 30 (Array_sort byFullDate (map bar (dailyData trades strategies))).

End Zone.

End PnLChart.

(** ** lib/date-utils *)

Module DateUtils.
Import JSDate.

(** The argument [date: string | Date]. *)
Inductive DateInput : Type :=
| Text (s : string)
| DateObject (d : Date).

(** [/^\d{4}-\d{2}-\d{2}$/.test(s)] *)
Definition matches_ymd (s : string) : bool :=
  match list_ascii_of_string s with
  | [y1; y2; y3; y4; d1; m1; m2; d2; a1; a2] =>
      forallb is_digit [y1; y2; y3; y4; m1; m2; a1; a2]
      && Ascii.eqb d1 "-" && Ascii.eqb d2 "-"
  | _ => false
  end.

(** [s.split('-').map(Number)] for a text of that form. *)
Definition split_ymd (s : string) : Z * Z * Z :=
  match list_ascii_of_string s with
  | [y1; y2; y3; y4; _; m1; m2; _; a1; a2] =>
      (digits_Z [y1; y2; y3; y4], digits_Z [m1; m2], digits_Z [a1; a2])
  | _ => (0, 0, 0)
  end.

(** TimeClip: a time value further than 8.64e15 ms from the epoch is no
    date. *)
Definition TimeClip (t : Z) : Date :=
  if Z.abs t <=? 8640000000000000 then Some t else None.

Definition is_valid (d : Date) : bool :=
  match d with Some _ => true | None => false end.

Section Zone.

(** The zone offset in minutes, the reading of texts that are not of the
    form [YYYY-MM-DD], and the time value of [new Date()]. *)
Variable tz : Z.
Variable legacy_parse : string -> number.
Variable now : Z.

(** [new Date(year, month, day)]: local midnight; a year from 0 to 99
    stands for 1900 + year, and months and days out of range carry over. *)
Definition new_Date_fields (year month day : Z) : Date :=
  let yr := if (0 <=? year) && (year <=? 99) then 1900 + year else year in
  let ym := yr + month / 12 in
  let mn := month mod 12 in
  TimeClip ((days_from_civil ym (mn + 1) 1 + day - 1) * msPerDay - tz * msPerMinute).

(** [new Date(text)] *)
Definition new_Date_text (text : string) : Date :=
  match new_Date_getTime legacy_parse text with
  | Fin q => Some (Qfloor q)
  | _ => None
  end.

(** The date object that [formatDateForDisplay], [isValidDate] and
    [parseDate] make of a text. *)
Definition read_text (s : string) : Date :=
  if matches_ymd s then
    let '(year, month, day) := split_ymd s in
    new_Date_fields year (month - 1) day
  else new_Date_text s.

(** [new Date().toISOString().split('T')[0]] *)
Definition today : string := toISOString_date now.

Definition formatDateForInput (date : DateInput) : string :=
  match date with
  | Text s =>
      if (s =? "")%string then today
      else if matches_ymd s then s
      else
        match new_Date_text s with
        | Some t => toISOString_date t
        | None => today
        end
  | DateObject (Some t) => toISOString_date t
  | DateObject None => today
  end.

Definition isValidDate (date : DateInput) : bool :=
  match date with
  | Text s => if (s =? "")%string then false else is_valid (read_text s)
  | DateObject d => is_valid d
  end.

(** [parseDate]; [None] is [null]. *)
Definition parseDate (dateString : string) : Date :=
  if (dateString =? "")%string then None else read_text dateString.

End Zone.

End DateUtils.

(** ** pages/psychology-enhanced *)

Module PsychologyEnhanced.
Import Schema Calculations JSDate.

(** [trades.filter(trade => trade.tradeDate === today)], where [today]
    is [new Date().toISOString().split('T')[0]]. *)
Definition todaysTrades (today : string) (trades : list Trade) : list Trade :=
  List.filter (fun trade => (tradeDate trade =? today)%string) trades.

(** The callbacks of the two [reduce] calls. *)
Definition better (best trade : Trade) : Trade :=
  let pnl := parseFloat (text_or_zero (profitLoss trade)) in
  let bestPnl := parseFloat (text_or_zero (profitLoss best)) in
  if num_gt pnl bestPnl then trade else best.

Definition worse (worst trade : Trade) : Trade :=
  let pnl := parseFloat (text_or_zero (profitLoss trade)) in
  let worstPnl := parseFloat (text_or_zero (profitLoss worst)) in
  if num_lt pnl worstPnl then trade else worst.

(** [todaysTrades.reduce(..., todaysTrades[0])]; [None] is [undefined],
    the initial value that an empty list gives back. *)
Definition bestTrade (todaysTrades : list Trade) : option Trade :=
  match todaysTrades with
  | [] => None
  | first :: _ => Some (fold_left better todaysTrades first)
  end.

Definition worstTrade (todaysTrades : list Trade) : option Trade :=
  match todaysTrades with
  | [] => None
  | first :: _ => Some (fold_left worse todaysTrades first)
  end.

End PsychologyEnhanced.

(** * Derived definitions

    What the statements below are phrased with: closed forms of the
    results of the components, the cohorts and averages in the words of
    the specification, and the inputs of the worked examples. *)

Import Schema Calculations UseChecklist.

(** ** Scores and envelopes *)

(** The rational a finite number holds (0 for the others). *)
Definition to_Q (a : number) : Q :=
  match a with Fin q => q | _ => 0%Q end.

(** A value that is neither [null] nor [undefined]. *)
Definition not_nullish (v : value) : bool :=
  match v with VUndef | VNull => false | _ => true end.

(** The number the last line of [calculateAdherenceScore] returns for
    [f] truthy values out of [n]. *)
Definition ratio100 (f n : nat) : number :=
  num_mul (num_div (num_of_nat f) (num_of_nat n)) (Fin 100).

(** The number of entries of an adherence map whose value is [true]. *)
Definition followed_count (m : gmap string bool) : nat :=
  size (filter (fun kv : string * bool => kv.2 = true) m).

(** The score of a checklist that is not [null] or [undefined]. *)
Definition score_of (c : value) : number :=
  match Object_values c with
  | Normal (x :: items) =>
      ratio100 (length (List.filter Boolean (x :: items))) (length (x :: items))
  | _ => Fin 0
  end.

(** The member [k] of an object with the own properties [props], for a
    name that [Object.prototype] does not define. *)
Definition member (props : list (string * value)) (k : string) : value :=
  match assoc k props with Some v => v | None => VUndef end.

(** What [parseTradeNotes] returns for a text that is not an envelope. *)
Definition plain_notes (text : string) : TradeWithChecklist :=
  {| checklist := VUndef; userNotes := VStr text |}.

(** The adherence map the charts take from a parse result,
    [parsed.checklist || {}]. *)
Definition adherence_of (r : TradeWithChecklist) : value :=
  js_or (checklist r) (VObj []).

(** The result of [parseTradeNotes], by cases on the notes and on what
    [JSON.parse] makes of them. *)
Definition parsed_notes (JSON_parse : string -> completion value) (notes : option string)
  : TradeWithChecklist :=
  match notes with
  | None => plain_notes ""
  | Some text =>
      if (text =? "")%string then plain_notes ""
      else
        match JSON_parse text with
        | Normal (VObj props) =>
            match assoc "checklist" props with
            | Some c => {| checklist := js_or c (VObj []);
                           userNotes := js_or (member props "userNotes") (VStr "") |}
            | None => plain_notes text
            end
        | _ => plain_notes text
        end
  end.

(** ** The trades with their checklists *)

Import ChecklistAdherenceChart.

(** The element of [tradesWithChecklist] that a trade gives. *)
Definition enrich (JSON_parse : string -> completion value) (t : Trade) : TradeEx :=
  let parsed := parsed_notes JSON_parse (notes t) in
  let c := UseChecklist.checklist parsed in
  let adherenceScore := if Boolean c then score_of c else Fin 0 in
  let pnl := parseFloat (text_or_zero (profitLoss t)) in
  {| trade := t;
     ChecklistAdherenceChart.checklist := js_or c (VObj []);
     ChecklistAdherenceChart.userNotes := js_or (UseChecklist.userNotes parsed) (VStr "");
     adherenceScore := adherenceScore;
     adherenceLevel := getAdherenceLevel adherenceScore;
     ChecklistAdherenceChart.pnl := pnl;
     ChecklistAdherenceChart.isWin := num_gt pnl (Fin 0) |}.

(** Every trade of the list passes the activity filter that the
    strategies configure. *)
Definition all_active (strategies : list Strategy) (l : list Trade) : Prop :=
  strategies = [] \/ Forall (fun t => resolves_active strategies t = true) l.

(** ** Bands *)

(** The five bands, in display order. *)
Definition bands : list string := ["Excellent"; "Good"; "Fair"; "Poor"; "Very Poor"].

(** The rank of a level as a rational. *)
Definition rankQ (level : string) : Q := to_Q (getAdherenceSortOrder level).

(** Whether some trade of the list is in the band. *)
Definition has_band (twc : list TradeEx) (band : string) : bool :=
  existsb (fun t => (adherenceLevel t =? band)%string) twc.

(** ** Cohorts *)

(** Whether the checklist of a trade holds the boolean [b] under the
    item id as an own property: [true] puts the trade in the followed
    cohort, [false] in the other one, and a checklist without the key
    puts it in neither. *)
Definition in_cohort (b : bool) (itemId : string) (t : TradeEx) : bool :=
  match own_property (ChecklistAdherenceChart.checklist t) itemId with
  | Some (VBool b') => Bool.eqb b' b
  | _ => false
  end.

Definition cohort (b : bool) (itemId : string) (twc : list TradeEx) : list TradeEx :=
  List.filter (in_cohort b itemId) twc.

(** The average P&L of a cohort: the sum of the parsed profit/loss of
    its trades over their number, 0 for an empty cohort. *)
Definition mean_pnl (l : list TradeEx) : number :=
  match l with
  | [] => Fin 0
  | _ :: _ => num_div (sum (map (fun t => parsedPnL (trade t)) l)) (num_of_nat (length l))
  end.

(** The entry of an item as the specification words it. *)
Definition item_row (twc : list TradeEx) (it : ChecklistItem) : ItemRow :=
  let followed := cohort true (UseChecklist.id it) twc in
  let notFollowed := cohort false (UseChecklist.id it) twc in
  {| item := UseChecklist.name it;
     ChecklistAdherenceChart.category := UseChecklist.category it;
     followedTrades := length followed;
     notFollowedTrades := length notFollowed;
     followedPnL := mean_pnl followed;
     notFollowedPnL := mean_pnl notFollowed;
     followedWinRate := winRateOf followed;
     notFollowedWinRate := winRateOf notFollowed;
     impact := num_sub (mean_pnl followed) (mean_pnl notFollowed);
     winRateImpact := num_sub (winRateOf followed) (winRateOf notFollowed) |}.

(** An entry with a trade in one of its two cohorts. *)
Definition has_cohort (r : ItemRow) : bool :=
  (0 <? followedTrades r)%nat || (0 <? notFollowedTrades r)%nat.

(** ** The ranking of the discipline page *)

Import Discipline.

(** A trade whose checklist has at least one key. *)
Definition has_data (t : TradeEx) : bool :=
  match Object_keys (ChecklistAdherenceChart.checklist t) with
  | Normal keys => (0 <? length keys)%nat
  | Throw _ => false
  end.

(** The entry of an item before filtering and ranking. *)
Definition rank_row (strategies : list Strategy) (data : list TradeEx) (it : ChecklistItem)
  : TopItem :=
  let followed := cohort true (UseChecklist.id it) data in
  let notFollowed := cohort false (UseChecklist.id it) data in
  {| Discipline.definition := it;
     Discipline.impact :=
       num_sub (averagePnLOf strategies followed) (averagePnLOf strategies notFollowed);
     Discipline.followedTrades := length followed;
     Discipline.notFollowedTrades := length notFollowed |}.

(** Descending order of the absolute impact. *)
Definition by_abs_impact_desc (a b : TopItem) : Prop :=
  num_ge (Math_abs (Discipline.impact a)) (Math_abs (Discipline.impact b)) = true.

(** ** Weeks *)

(** The Sunday on or before a day, both as days since the epoch (which
    was a Thursday). *)
Definition sunday_on_or_before (day : Z) : Z := day - (day + 4) mod 7.

(** The label of the week that starts on a day. *)
Definition week_label (day : Z) : string :=
  let '(_, m, d) := JSDate.civil_from_days day in
  JSDate.month_short m ++ " " ++ string_of_nat (Z.to_nat d).

(** ** Sample data *)

(** A trade of ACME bought at 100 and sold at 110. *)
Definition sample_trade (id' date pl : string) (stop label notes' : option string) : Trade :=
  {| Schema.id := id'; strategy := None; stockName := "ACME"; tradeDate := date;
     entryPrice := Some "100"; exitPrice := Some "110"; stopLoss := stop;
     quantity := Fin 1; profitLoss := Some pl; emotion := label; notes := notes' |}.

(** The trade of the risk-reward example, with or without its stop. *)
Definition example_trade (stop : option string) : Trade :=
  sample_trade "t1" "2024-03-04" "10" stop None None.

(** A trade of 2024-03-04 with the given emotion label. *)
Definition mood_trade (label : string) : Trade :=
  sample_trade "t1" "2024-03-04" "10" (Some "95") (Some label) None.

(** A trade of 2024-03-04 with the given profit/loss and notes. *)
Definition noted_trade (id' pl : string) (notes' : option string) : Trade :=
  sample_trade id' "2024-03-04" pl (Some "95") None notes'.

(** A trade of the given date. *)
Definition dated_trade (date pl : string) : Trade :=
  sample_trade date date pl (Some "95") None None.

(** A parser given by the finite table of the texts it accepts. *)
Definition table_parser (table : list (string * value)) (text : string) : completion value :=
  match assoc text table with
  | Some v => Normal v
  | None => Throw SyntaxError
  end.

(** A parser that rejects every text. *)
Definition table_parser_none : string -> completion value := table_parser [].

Definition quote : string := String (ascii_of_nat 34) EmptyString.

(** The text [{"checklist":{"a":true},"userNotes":"ok"}] and a parser
    that knows this envelope only. *)
Definition envelope_text : string :=
  "{" ++ quote ++ "checklist" ++ quote ++ ":{" ++ quote ++ "a" ++ quote ++ ":true},"
      ++ quote ++ "userNotes" ++ quote ++ ":" ++ quote ++ "ok" ++ quote ++ "}".

Definition one_envelope : string -> completion value :=
  table_parser
    [(envelope_text,
      VObj [("checklist", VObj [("a", VBool true)]); ("userNotes", VStr "ok")])].

(** The text [{"checklist":{"X":b},"userNotes":"-"}] and its parse. *)
Definition envelope_X_text (b : bool) : string :=
  "{" ++ quote ++ "checklist" ++ quote ++ ":{" ++ quote ++ "X" ++ quote ++ ":"
      ++ (if b then "true" else "false") ++ "},"
      ++ quote ++ "userNotes" ++ quote ++ ":" ++ quote ++ "-" ++ quote ++ "}".

Definition envelope_X (b : bool) : value :=
  VObj [("checklist", VObj [("X", VBool b)]); ("userNotes", VStr "-")].

Definition example_parser : string -> completion value :=
  table_parser [(envelope_X_text true, envelope_X true); (envelope_X_text false, envelope_X false)].

Definition example_items : list ChecklistItem :=
  [ {| UseChecklist.id := "X"; UseChecklist.name := "Item X";
       UseChecklist.category := PreTrade; description := None |};
    {| UseChecklist.id := "Y"; UseChecklist.name := "Item Y";
       UseChecklist.category := PostTrade; description := None |} ].

(** Two trades that followed X (+100, +200), two that did not (-50,
    +10), and one whose notes hold no checklist (+1000). *)
Definition example_trades : list Trade :=
  [ noted_trade "t1" "100" (Some (envelope_X_text true));
    noted_trade "t2" "-50" (Some (envelope_X_text false));
    noted_trade "t3" "200" (Some (envelope_X_text true));
    noted_trade "t4" "1000" (Some "bought the dip");
    noted_trade "t5" "10" (Some (envelope_X_text false)) ].









(** ** The checklist editor, the charts and the date utilities *)

(** A text that does not start with white space. *)
Definition no_leading_space (l : list ascii) : Prop :=
  match l with
  | c :: _ => is_space c = false
  | [] => True
  end.

(** The ids of an item list. *)
Definition ids (items : list UseChecklist.ChecklistItem) : list string :=
  map UseChecklist.id items.

(** [{ ...first, ...second }] on two sets of updates. *)
Definition merge_updates (first second : ChecklistItemUpdates) : ChecklistItemUpdates :=
  let pick {A} (a b : option A) := match b with Some _ => b | None => a end in
  {| updated_id := pick (updated_id first) (updated_id second);
     updated_name := pick (updated_name first) (updated_name second);
     updated_category := pick (updated_category first) (updated_category second);
     updated_description := pick (updated_description first) (updated_description second) |}.

(** Updates without members. *)
Definition no_updates : ChecklistItemUpdates :=
  {| updated_id := None; updated_name := None; updated_category := None;
     updated_description := None |}.

(** Whether the read [checklist[item.id] || false] of the checklist
    form is truthy: the entry of the id where the map has one, and
    otherwise whether the id names a member that every object inherits. *)
Definition ticked (checklist : UseChecklist.ChecklistAdherence)
    (item : UseChecklist.ChecklistItem) : bool :=
  match checklist !! UseChecklist.id item with
  | Some b => b
  | None => mem (UseChecklist.id item) Object_prototype
  end.


(** The number of trades that a list of weekly buckets counts. *)
Definition trades_counted (weeks : list TradeFrequencyChart.Week) : nat :=
  list_sum (map TradeFrequencyChart.trades weeks).

(** A bucket that holds a trade, with its average the quotient of its
    sum by its count. *)
Definition bucket_ok (w : TradeFrequencyChart.Week) : Prop :=
  (1 <= TradeFrequencyChart.trades w)%nat /\
  TradeFrequencyChart.avgPnL w =
    num_div (TradeFrequencyChart.pnlSum w) (num_of_nat (TradeFrequencyChart.trades w)).

(** A total that is 0 or [NaN] is read as falsy, and the next trade of
    the day starts from 0 again. *)
Definition restart (n : number) : number := if Boolean (VNum n) then n else Fin 0.

(** The total of a day that stands at [n] after trades with the given
    profits and losses. *)
Definition running_total (ps : list number) (n : number) : number :=
  fold_left (fun n p => num_add (restart n) p) ps n.

(** The parsed profit/loss of a trade as the charts read it. *)
Definition pnl_read (t : Schema.Trade) : number :=
  parseFloat (Schema.text_or_zero (Schema.profitLoss t)).

(** The trades of a date, and what they made or lost. *)
Definition trades_on (date : string) (l : list Schema.Trade) : list Schema.Trade :=
  List.filter (fun t => (Schema.tradeDate t =? date)%string) l.

Definition pnls_on (date : string) (l : list Schema.Trade) : list number :=
  map pnl_read (trades_on date l).

(** The day count of a date text (0 when it is no calendar date). *)
Definition day_of (date : string) : Z :=
  match JSDate.parse_ymd date with
  | Some (y, m, d) => JSDate.days_from_civil y m d
  | None => 0
  end.

(** A date text that is a calendar date. *)
Definition is_calendar_date (date : string) : bool :=
  match JSDate.parse_ymd date with Some _ => true | None => false end.

(** The number a day stands at; 0 for a day without member. *)
Definition stands_at (acc : list (string * PnLChart.Total)) (date : string) : number :=
  match assoc date acc with
  | Some (PnLChart.Amount n) => n
  | _ => Fin 0
  end.

(** A day whose member is not a text. *)
Definition no_text_at (acc : list (string * PnLChart.Total)) (date : string) : Prop :=
  assoc date acc <> Some PnLChart.Text.

(** A finite number between two bounds. *)
Definition between (lo hi : Q) (n : number) : Prop :=
  exists q, n = Fin q /\ (lo <= q <= hi)%Q.

(** A day of the mood tracker whose scores are numbers from 1 to 5, one
    per trade, with at least one trade. *)
Definition day_ok (d : PsychologyMoodTracker.Day) : Prop :=
  exists scores,
    PsychologyMoodTracker.emotions d = map VNum scores /\
    Forall (between 1 5) scores /\
    length scores = PsychologyMoodTracker.trades d /\
    (1 <= PsychologyMoodTracker.trades d)%nat.

(** A trade whose three prices parse to finite numbers. *)
Definition numeric_prices (t : Schema.Trade) : bool :=
  is_finite (parseFloat (Schema.text_or_zero (Schema.entryPrice t)))
  && is_finite (parseFloat (Schema.text_or_zero (Schema.exitPrice t)))
  && is_finite (parseFloat (Schema.text_or_zero (Schema.stopLoss t))).

(** The magnitude up to which the figures of the risk-reward chart are
    stated: 10^15.  Differences of two such prices are at most twice
    that, far from the overflow of the number format. *)
Definition price_limit : Q := 1000000000000000.

(** A finite number of magnitude at most [price_limit]. *)
Definition moderate (n : number) : bool :=
  match n with
  | Fin q => Qle_bool (Qabs q) price_limit
  | _ => false
  end.

(** A trade whose three prices parse to numbers of that magnitude. *)
Definition moderate_prices (t : Schema.Trade) : bool :=
  moderate (parseFloat (Schema.text_or_zero (Schema.entryPrice t)))
  && moderate (parseFloat (Schema.text_or_zero (Schema.exitPrice t)))
  && moderate (parseFloat (Schema.text_or_zero (Schema.stopLoss t))).

(** The ranges that the selector of the discipline page offers. *)
Definition known_ranges : list string := ["all"; "7d"; "30d"; "90d"; "1y"; "custom"].

(** ** Further sample data *)

(** A writer that knows the one envelope: every object is written as
    its text. *)
Definition envelope_writer (v : value) : string :=
  match v with
  | VObj _ => envelope_text
  | _ => "null"
  end.

(** An engine that reads no date text outside the ISO format. *)
Definition no_legacy (text : string) : number := NaN.

(** Trades of a Monday, of the Friday of that week and of the Sunday
    after it. *)
Definition week_trades : list Schema.Trade :=
  [dated_trade "2024-03-04" "10"; dated_trade "2024-03-08" "20";
   dated_trade "2024-03-10" "5"].

(** Three trades of one day, the second with a profit/loss that is no
    numeral. *)
Definition unparsed_trade : Schema.Trade := dated_trade "2024-03-04" "abc".

Definition unparsed_day : list Schema.Trade :=
  [dated_trade "2024-03-04" "10"; unparsed_trade; dated_trade "2024-03-04" "5"].

(** Two trades of one day and a trade of another one. *)
Definition day_trades : list Schema.Trade :=
  [dated_trade "2024-03-04" "10"; dated_trade "2024-03-08" "20";
   dated_trade "2024-03-04" "-4"].

(** A confident and a fearful trade of the same day. *)
Definition mood_trades : list Schema.Trade := [mood_trade "Confident"; mood_trade "Fearful"].

(** * Properties *)

Import Schema Calculations UseChecklist.

Lemma num_cmp_Fin x y : num_cmp (Fin x) (Fin y) = Some (x ?= y)%Q.
Proof. reflexivity. Qed.

Lemma num_ge_Fin x y : num_ge (Fin x) (Fin y) = true <-> (y <= x)%Q.
Proof.
  unfold num_ge; rewrite num_cmp_Fin.
  destruct (Qcompare_spec x y) as [E|L|G]; split; intros H; try reflexivity; try discriminate; lra.
Qed.

Lemma num_lt_Fin x y : num_lt (Fin x) (Fin y) = true <-> (x < y)%Q.
Proof.
  unfold num_lt; rewrite num_cmp_Fin.
  destruct (Qcompare_spec x y) as [E|L|G]; split; intros H; try reflexivity; try discriminate; lra.
Qed.

Lemma num_gt_Fin x y : num_gt (Fin x) (Fin y) = true <-> (y < x)%Q.
Proof.
  unfold num_gt; rewrite num_cmp_Fin.
  destruct (Qcompare_spec x y) as [E|L|G]; split; intros H; try reflexivity; try discriminate; lra.
Qed.

Lemma num_ge_Fin_false x y : num_ge (Fin x) (Fin y) = false <-> (x < y)%Q.
Proof.
  unfold num_ge; rewrite num_cmp_Fin.
  destruct (Qcompare_spec x y) as [E|L|G]; split; intros H; try reflexivity; try discriminate; lra.
Qed.

(** ** The adherence scorer *)

Lemma getAdherenceLevel_Fin q :
  getAdherenceLevel (Fin q) =
    if Qle_bool 90 q then "Excellent"
    else if Qle_bool 75 q then "Good"
    else if Qle_bool 50 q then "Fair"
    else if Qle_bool 25 q then "Poor"
    else "Very Poor".
Proof.
  unfold getAdherenceLevel.
  assert (E : forall y, num_ge (Fin q) (Fin y) = Qle_bool y q).
  { intros y. destruct (Qle_bool y q) eqn:Hb.
    - apply num_ge_Fin. now apply Qle_bool_iff.
    - apply num_ge_Fin_false. apply Qnot_le_lt. intros H.
      apply Qle_bool_iff in H. congruence. }
  now rewrite !E.
Qed.

Ltac band_cases q :=
  rewrite getAdherenceLevel_Fin;
  destruct (Qle_bool 90 q) eqn:H90; destruct (Qle_bool 75 q) eqn:H75;
  destruct (Qle_bool 50 q) eqn:H50; destruct (Qle_bool 25 q) eqn:H25;
  repeat match goal with
  | H : Qle_bool _ _ = true |- _ => apply Qle_bool_iff in H
  | H : Qle_bool ?a ?b = false |- _ =>
      assert (b < a)%Q by (apply Qnot_le_lt; intros Hle; apply Qle_bool_iff in Hle; congruence);
      clear H
  end.

(** C2: the band of a score.  [Excellent] exactly from 90 up, [Good] on
    [75, 90), [Fair] on [50, 75), [Poor] on [25, 50), [Very Poor] for
    everything else (a score that is not at least 25, [NaN] included);
    the four boundary scores fall in the higher band, and the empty
    adherence map scores 0, which is [Very Poor]. *)
Theorem getAdherenceLevel_bands :
  (forall s : number,
     (getAdherenceLevel s = "Excellent" <-> num_ge s (Fin 90) = true) /\
     (getAdherenceLevel s = "Good" <-> num_ge s (Fin 75) = true /\ num_lt s (Fin 90) = true) /\
     (getAdherenceLevel s = "Fair" <-> num_ge s (Fin 50) = true /\ num_lt s (Fin 75) = true) /\
     (getAdherenceLevel s = "Poor" <-> num_ge s (Fin 25) = true /\ num_lt s (Fin 50) = true) /\
     (getAdherenceLevel s = "Very Poor" <-> num_ge s (Fin 25) = false)) /\
  getAdherenceLevel (Fin 90) = "Excellent" /\
  getAdherenceLevel (Fin 75) = "Good" /\
  getAdherenceLevel (Fin 50) = "Fair" /\
  getAdherenceLevel (Fin 25) = "Poor" /\
  calculateAdherenceScore (adherence_object ∅) = Normal (Fin 0) /\
  getAdherenceLevel (Fin 0) = "Very Poor".
Proof.
  split; [| repeat split; reflexivity].
  intros [ | | | q].
  - cbn. intuition discriminate.
  - cbn. intuition discriminate.
  - cbn. intuition discriminate.
  - rewrite !num_ge_Fin, !num_lt_Fin, num_ge_Fin_false.
    band_cases q; repeat split; intros; try discriminate; try reflexivity;
      try lra; try (destruct_and?; lra).
Qed.

Lemma Qcompare_nat_pos (n : nat) :
  (0 < n)%nat -> (inject_Z (Z.of_nat n) ?= 0)%Q = Gt.
Proof.
  intros H. apply Qgt_alt. change 0%Q with (inject_Z 0).
  rewrite <- Zlt_Qlt. lia.
Qed.

Lemma ratio100_value (f n : nat) :
  (0 < n)%nat ->
  ratio100 f n = Fin (Qred (Qred (inject_Z (Z.of_nat f) / inject_Z (Z.of_nat n)) * 100)).
Proof.
  intros H. unfold ratio100, num_of_nat, numZ, num_div.
  now rewrite (Qcompare_nat_pos n H).
Qed.

Lemma ratio100_range (f n : nat) :
  (0 < n)%nat -> (f <= n)%nat ->
  exists q, ratio100 f n = Fin q /\ (0 <= q <= 100)%Q.
Proof.
  intros Hn Hf. rewrite (ratio100_value f n Hn). eexists; split; [reflexivity|].
  rewrite !Qred_correct.
  assert (Hn' : (0 < inject_Z (Z.of_nat n))%Q).
  { change 0%Q with (inject_Z 0). rewrite <- Zlt_Qlt. lia. }
  assert (Hf0 : (0 <= inject_Z (Z.of_nat f))%Q).
  { change 0%Q with (inject_Z 0). rewrite <- Zle_Qle. lia. }
  assert (Hfn : (inject_Z (Z.of_nat f) <= inject_Z (Z.of_nat n))%Q).
  { rewrite <- Zle_Qle. lia. }
  assert (H0 : (0 <= inject_Z (Z.of_nat f) / inject_Z (Z.of_nat n))%Q).
  { apply Qle_shift_div_l; [assumption | lra]. }
  assert (H1 : (inject_Z (Z.of_nat f) / inject_Z (Z.of_nat n) <= 1)%Q).
  { apply Qle_shift_div_r; [assumption | lra]. }
  split; lra.
Qed.

Lemma filter_length_le {A} (p : A -> bool) (l : list A) :
  (length (List.filter p l) <= length l)%nat.
Proof.
  induction l as [|x l IH]; simpl; [lia|]. destruct (p x); simpl; lia.
Qed.

(** Whatever [Object.values] lists, the score is 0 for no values and the
    percentage of truthy ones otherwise. *)
Lemma calculateAdherenceScore_values (checklist : value) (items : list value) :
  Object_values checklist = Normal items ->
  calculateAdherenceScore checklist =
    Normal (match items with
            | [] => Fin 0
            | _ :: _ => ratio100 (length (List.filter Boolean items)) (length items)
            end).
Proof.
  intros H. unfold calculateAdherenceScore. rewrite H. simpl.
  destruct items; reflexivity.
Qed.

Lemma calculateAdherenceScore_in_range (checklist : value) (items : list value) :
  Object_values checklist = Normal items ->
  exists q, calculateAdherenceScore checklist = Normal (Fin q) /\ (0 <= q <= 100)%Q.
Proof.
  intros H. rewrite (calculateAdherenceScore_values _ _ H).
  destruct items as [|x items].
  - exists 0%Q. split; [reflexivity | lra].
  - destruct (ratio100_range (length (List.filter Boolean (x :: items))) (length (x :: items)))
      as (q & Hq & Hr).
    + simpl; lia.
    + apply filter_length_le.
    + exists q. now rewrite Hq.
Qed.

(** C1: for every adherence map the score is returned (nothing is
    thrown) and lies between 0 and 100; the empty map scores exactly 0. *)
Theorem calculateAdherenceScore_bounds :
  (forall m : gmap string bool,
     exists q : Q,
       calculateAdherenceScore (adherence_object m) = Normal (Fin q) /\ (0 <= q <= 100)%Q) /\
  calculateAdherenceScore (adherence_object ∅) = Normal (Fin 0).
Proof.
  split; [| reflexivity].
  intros m. eapply calculateAdherenceScore_in_range. reflexivity.
Qed.

Lemma adherence_object_values (m : gmap string bool) :
  Object_values (adherence_object m) = Normal (map (fun kv => VBool (snd kv)) (map_to_list m)).
Proof. unfold adherence_object, Object_values. now rewrite map_map. Qed.

Lemma truthy_entries_length (l : list (string * bool)) :
  length (List.filter Boolean (map (fun kv => VBool (snd kv)) l)) =
  length (filter (fun kv : string * bool => kv.2 = true) l).
Proof.
  induction l as [|[k b] l IH]; [reflexivity|].
  rewrite filter_cons. simpl. destruct b; simpl.
  - now rewrite IH.
  - exact IH.
Qed.

Lemma followed_count_list (m : gmap string bool) :
  length (filter (fun kv : string * bool => kv.2 = true) (map_to_list m)) = followed_count m.
Proof.
  unfold followed_count. rewrite map_filter_alt.
  rewrite map_size_list_to_map; [reflexivity|].
  apply NoDup_fmap_fst.
  - intros k x y Hx Hy. apply list_elem_of_filter in Hx as [_ Hx], Hy as [_ Hy].
    apply elem_of_map_to_list in Hx, Hy. congruence.
  - apply NoDup_filter, NoDup_map_to_list.
Qed.

(** The score of a typed adherence map, in closed form. *)
Lemma calculateAdherenceScore_map (m : gmap string bool) :
  calculateAdherenceScore (adherence_object m) =
    Normal (if (size m =? 0)%nat then Fin 0 else ratio100 (followed_count m) (size m)).
Proof.
  rewrite (calculateAdherenceScore_values _ _ (adherence_object_values m)).
  rewrite <- (length_map_to_list m), <- followed_count_list, <- truthy_entries_length.
  destruct (map_to_list m) as [|kv l] eqn:E; [reflexivity|].
  cbn [length Nat.eqb]. now rewrite length_map.
Qed.

(** C10: the score of an adherence map is a function of the map alone.
    The hook returns the same scoring function whatever the configured
    item list is, so deleting or editing a definition changes no score;
    the score counts every entry of the map, the tally over the entries
    whose value is [true] and the denominator over all of them, with no
    reference to the item list; and a further entry under any id, one of
    a configured item or not, adds one to the denominator and its value
    to the tally. *)
Theorem calculateAdherenceScore_ignores_definitions
    (JSON_parse : string -> completion value) (items : list ChecklistItem) :
  (forall (id' : string) (m : gmap string bool),
     hook_calculateAdherenceScore (useChecklist JSON_parse (deleteChecklistItem id' items))
       (adherence_object m)
     = hook_calculateAdherenceScore (useChecklist JSON_parse items) (adherence_object m)) /\
  (forall (id' : string) (updates : ChecklistItem -> ChecklistItem) (m : gmap string bool),
     hook_calculateAdherenceScore (useChecklist JSON_parse (updateChecklistItem id' updates items))
       (adherence_object m)
     = hook_calculateAdherenceScore (useChecklist JSON_parse items) (adherence_object m)) /\
  (forall m : gmap string bool,
     hook_calculateAdherenceScore (useChecklist JSON_parse items) (adherence_object m)
     = Normal (if (size m =? 0)%nat then Fin 0 else ratio100 (followed_count m) (size m))) /\
  (forall (m : gmap string bool) (k : string) (b : bool),
     m !! k = None ->
     hook_calculateAdherenceScore (useChecklist JSON_parse items) (adherence_object (<[k:=b]> m))
     = Normal (ratio100 (followed_count m + (if b then 1 else 0)) (size m + 1))).
Proof.
  repeat split; intros; cbn [hook_calculateAdherenceScore useChecklist].
  - apply calculateAdherenceScore_map.
  - rewrite calculateAdherenceScore_map.
    rewrite map_size_insert_None by assumption.
    replace (S (size m)) with (size m + 1)%nat by lia.
    replace (size m + 1 =? 0)%nat with false by (symmetry; apply Nat.eqb_neq; lia).
    f_equal. f_equal. unfold followed_count.
    destruct b.
    + rewrite map_filter_insert_True by done.
      rewrite map_size_insert_None; [lia|].
      apply map_lookup_filter_None. now left.
    + rewrite map_filter_insert_not'; [lia | simpl; discriminate | congruence].
Qed.

(** An entry under an id that no configured item has, [dangling]. *)
Lemma calculateAdherenceScore_ignores_definitions_witness :
  (∅ : gmap string bool) !! "dangling" = None /\
  hook_calculateAdherenceScore (useChecklist table_parser_none [])
    (adherence_object (<["dangling" := true]> ∅))
  = Normal (ratio100 (followed_count ∅ + 1) (size (∅ : gmap string bool) + 1)).
Proof.
  split; [reflexivity|].
  exact (proj2 (proj2 (proj2 (calculateAdherenceScore_ignores_definitions table_parser_none [])))
           ∅ "dangling" true eq_refl).
Defined.

(** ** The notes envelope *)

Lemma js_in_checklist (parsed : value) :
  Boolean parsed && (typeof parsed =? "object")%string = true ->
  js_in "checklist" parsed =
    Normal (match parsed with
            | VObj props => match assoc "checklist" props with Some _ => true | None => false end
            | _ => false
            end).
Proof.
  destruct parsed as [ | |b|n|s|elems|props|nm]; cbn [Boolean typeof]; intros H;
    try (rewrite ?andb_false_r in H; discriminate).
  - reflexivity.
  - cbn. destruct (assoc "checklist" props); reflexivity.
  - reflexivity.
Qed.

(** The result of [parseTradeNotes] on a non-empty text, by cases on what
    [JSON.parse] does with it. *)
Lemma parseTradeNotes_cases (JSON_parse : string -> completion value) (text : string) :
  text <> "" ->
  parseTradeNotes JSON_parse (Some text) =
    Normal (match JSON_parse text with
            | Normal (VObj props) =>
                match assoc "checklist" props with
                | Some c => {| checklist := js_or c (VObj []);
                               userNotes := js_or (member props "userNotes") (VStr "") |}
                | None => plain_notes text
                end
            | _ => plain_notes text
            end).
Proof.
  intros Hne. unfold parseTradeNotes.
  apply String.eqb_neq in Hne. rewrite Hne.
  destruct (JSON_parse text) as [parsed|e]; [|reflexivity].
  cbn [bind try_catch].
  destruct (Boolean parsed && (typeof parsed =? "object")%string) eqn:Hobj.
  - rewrite (js_in_checklist parsed Hobj).
    destruct parsed as [ | |b|n|s|elems|props|nm]; try reflexivity.
    cbn [bind]. destruct (assoc "checklist" props) as [c|] eqn:Hc; [|reflexivity].
    unfold get, own_property. rewrite Hc. cbn [bind].
    unfold member. destruct (assoc "userNotes" props); reflexivity.
  - destruct parsed as [ | |b|n|s|elems|props|nm]; try reflexivity; discriminate.
Qed.

(** C3: [parseTradeNotes] never throws; a text that parses as an object
    with a [checklist] member yields that member and the object's
    [userNotes] (with [{}] and the empty string standing in for falsy
    ones), so a well-typed envelope is returned as it is; any other text,
    whether [JSON.parse] throws on it or returns something that is not
    such an object, is returned whole as the user notes with no checklist,
    and the adherence map taken from that result is empty. *)
Theorem parseTradeNotes_envelope_or_plain (JSON_parse : string -> completion value) :
  (forall notes : option string,
     exists r, parseTradeNotes JSON_parse notes = Normal r) /\
  (forall (text : string) (props : list (string * value)) (c : value),
     text <> "" ->
     JSON_parse text = Normal (VObj props) ->
     assoc "checklist" props = Some c ->
     parseTradeNotes JSON_parse (Some text) =
       Normal {| checklist := js_or c (VObj []);
                 userNotes := js_or (member props "userNotes") (VStr "") |}) /\
  (forall (text : string) (props : list (string * value)) (m : gmap string bool) (u : string),
     text <> "" ->
     JSON_parse text = Normal (VObj props) ->
     assoc "checklist" props = Some (adherence_object m) ->
     assoc "userNotes" props = Some (VStr u) ->
     parseTradeNotes JSON_parse (Some text) =
       Normal {| checklist := adherence_object m; userNotes := VStr u |}) /\
  (forall text : string,
     (forall props, JSON_parse text = Normal (VObj props) -> assoc "checklist" props = None) ->
     parseTradeNotes JSON_parse (Some text) = Normal (plain_notes text) /\
     adherence_of (plain_notes text) = VObj [] /\
     Object_keys (adherence_of (plain_notes text)) = Normal []) /\
  parseTradeNotes JSON_parse None = Normal (plain_notes "").
Proof.
  repeat split.
  - intros [text|]; [|eexists; reflexivity].
    destruct (String.eqb_spec text "") as [->|Hne]; [eexists; reflexivity|].
    rewrite (parseTradeNotes_cases _ _ Hne). eexists; reflexivity.
  - intros text props c Hne Hp Hc.
    now rewrite (parseTradeNotes_cases _ _ Hne), Hp, Hc.
  - intros text props m u Hne Hp Hc Hu.
    rewrite (parseTradeNotes_cases _ _ Hne), Hp, Hc. unfold member. rewrite Hu.
    unfold js_or, adherence_object. cbn [Boolean].
    destruct (String.eqb_spec u "") as [->|_]; reflexivity.
  - destruct (String.eqb_spec text "") as [->|Hne]; [reflexivity|].
    rewrite (parseTradeNotes_cases _ _ Hne).
    destruct (JSON_parse text) as [[ | |b|n|s|elems|props|nm]|e]; try reflexivity.
    now rewrite (H props eq_refl).
Qed.

Lemma parseTradeNotes_envelope_or_plain_witness :
  (envelope_text <> "" /\
   parseTradeNotes one_envelope (Some envelope_text) =
     Normal {| checklist := VObj [("a", VBool true)]; userNotes := VStr "ok" |}) /\
  parseTradeNotes one_envelope (Some "not an envelope") =
    Normal (plain_notes "not an envelope").
Proof.
  assert (Hne : envelope_text <> "") by (vm_compute; discriminate).
  split; [split; [exact Hne|] |].
  - exact (proj1 (proj2 (parseTradeNotes_envelope_or_plain one_envelope))
             envelope_text
             [("checklist", VObj [("a", VBool true)]); ("userNotes", VStr "ok")]
             (VObj [("a", VBool true)]) Hne eq_refl eq_refl).
  - refine (proj1 (proj1 (proj2 (proj2 (proj2
              (parseTradeNotes_envelope_or_plain one_envelope)))) "not an envelope" _)).
    intros props H. vm_compute in H. discriminate.
Defined.

(** ** The risk-reward calculator *)

Import RiskRewardChart.

Lemma Math_abs_Fin q : exists r, Math_abs (Fin q) = Fin r /\ (r == Qabs q)%Q.
Proof. eexists; split; [reflexivity | apply Qred_correct]. Qed.

Lemma num_sub_Fin x y : exists d, num_sub (Fin x) (Fin y) = Fin d /\ (d == x - y)%Q.
Proof.
  eexists; split; [reflexivity|]. rewrite !Qred_correct. reflexivity.
Qed.

Lemma num_div_Fin x y :
  ~ (y == 0)%Q -> exists d, num_div (Fin x) (Fin y) = Fin d /\ (d == x / y)%Q.
Proof.
  intros Hy. unfold num_div.
  destruct (Qcompare_spec y 0) as [E|L|G]; [contradiction | |];
    (eexists; split; [reflexivity | apply Qred_correct]).
Qed.

Lemma num_gt_zero_Fin q : num_gt (Fin q) (Fin 0) = true <-> (0 < q)%Q.
Proof. apply num_gt_Fin. Qed.

(** The figures of a trade whose three prices parse to finite numbers. *)
Lemma point_finite (t : Trade) (e x s : Q) :
  parseFloat (text_or_zero (Schema.entryPrice t)) = Fin e ->
  parseFloat (text_or_zero (Schema.exitPrice t)) = Fin x ->
  parseFloat (text_or_zero (Schema.stopLoss t)) = Fin s ->
  exists r w : Q,
    risk (point t) = Fin r /\ (r == Qabs (e - s))%Q /\
    reward (point t) = Fin w /\ (w == Qabs (x - e))%Q /\
    ((0 < r)%Q -> exists q, ratio (point t) = Fin q /\ (q == w / r)%Q) /\
    ((r == 0)%Q -> ratio (point t) = Fin 0).
Proof.
  intros He Hx Hs. unfold point. cbn [risk reward ratio]. rewrite He, Hx, Hs.
  destruct (num_sub_Fin e s) as (d1 & Hd1 & Ed1).
  destruct (num_sub_Fin x e) as (d2 & Hd2 & Ed2).
  rewrite Hd1, Hd2.
  destruct (Math_abs_Fin d1) as (r & Hr & Er).
  destruct (Math_abs_Fin d2) as (w & Hw & Ew).
  rewrite Hr, Hw. exists r, w.
  repeat split.
  - now rewrite Er, Ed1.
  - now rewrite Ew, Ed2.
  - intros Hpos. rewrite (proj2 (num_gt_zero_Fin r) Hpos).
    apply num_div_Fin. intros E0. rewrite E0 in Hpos. now apply Qlt_irrefl in Hpos.
  - intros E0.
    destruct (num_gt (Fin r) (Fin 0)) eqn:G; [|reflexivity].
    apply num_gt_zero_Fin in G. rewrite E0 in G. now apply Qlt_irrefl in G.
Qed.

Lemma getActiveStrategyTrades_app (l1 l2 : list Trade) (strategies : list Strategy) :
  getActiveStrategyTrades (l1 ++ l2) strategies =
  (getActiveStrategyTrades l1 strategies ++ getActiveStrategyTrades l2 strategies)%list.
Proof.
  unfold getActiveStrategyTrades. destruct strategies; [reflexivity|].
  apply List.filter_app.
Qed.

Lemma riskRewardData_app (l1 l2 : list Trade) (strategies : list Strategy) :
  riskRewardData (l1 ++ l2) strategies =
  (riskRewardData l1 strategies ++ riskRewardData l2 strategies)%list.
Proof.
  unfold riskRewardData. rewrite getActiveStrategyTrades_app, List.filter_app.
  apply map_app.
Qed.

Lemma riskRewardData_missing (t : Trade) (strategies : list Strategy) :
  hasAllInputs t = false -> riskRewardData [t] strategies = [].
Proof.
  intros H. unfold riskRewardData, getActiveStrategyTrades.
  destruct strategies as [|s0 ss]; simpl.
  - now rewrite H.
  - destruct (resolves_active (s0 :: ss) t); simpl; [now rewrite H | reflexivity].
Qed.

Lemma missing_input (t : Trade) :
  Schema.entryPrice t = None \/ Schema.exitPrice t = None \/ Schema.stopLoss t = None ->
  hasAllInputs t = false.
Proof.
  unfold hasAllInputs. intros [H|[H|H]]; rewrite H; simpl;
    rewrite ?andb_false_r; reflexivity.
Qed.

(** C6: for a trade whose entry, exit and stop-loss are all present and
    parse to numbers, risk is [|entry - stop|], reward is [|exit - entry|]
    and the ratio is reward over risk when the risk is positive and 0 when
    it is 0; entry 100, stop 95, exit 110 give 5, 10 and 2.  The result
    set holds one point for each active trade that has all three inputs,
    in order, and a trade that misses one of them contributes nothing,
    wherever it stands in the list. *)
Theorem riskReward_contract :
  (forall (t : Trade) (e x s : Q),
     parseFloat (text_or_zero (Schema.entryPrice t)) = Fin e ->
     parseFloat (text_or_zero (Schema.exitPrice t)) = Fin x ->
     parseFloat (text_or_zero (Schema.stopLoss t)) = Fin s ->
     exists r w : Q,
       risk (point t) = Fin r /\ (r == Qabs (e - s))%Q /\
       reward (point t) = Fin w /\ (w == Qabs (x - e))%Q /\
       ((0 < r)%Q -> exists q, ratio (point t) = Fin q /\ (q == w / r)%Q) /\
       ((r == 0)%Q -> ratio (point t) = Fin 0)) /\
  (let p := point (example_trade (Some "95")) in
   risk p = Fin 5 /\ reward p = Fin 10 /\ ratio p = Fin 2 /\
   riskRewardData [example_trade (Some "95")] [] = [p]) /\
  riskRewardData [example_trade None] [] = [] /\
  (forall (trades : list Trade) (strategies : list Strategy),
     riskRewardData trades strategies =
       map point (List.filter hasAllInputs (getActiveStrategyTrades trades strategies))) /\
  (forall (before after : list Trade) (t : Trade) (strategies : list Strategy),
     Schema.entryPrice t = None \/ Schema.exitPrice t = None \/ Schema.stopLoss t = None ->
     riskRewardData (before ++ t :: after) strategies =
     riskRewardData (before ++ after) strategies).
Proof.
  split; [exact point_finite|].
  split; [repeat split; reflexivity|].
  split; [reflexivity|].
  split; [reflexivity|].
  intros before after t strategies Hmiss.
  change (t :: after) with ([t] ++ after)%list.
  rewrite !riskRewardData_app.
  now rewrite (riskRewardData_missing t strategies (missing_input t Hmiss)).
Qed.

Lemma riskReward_contract_witness :
  exists r w : Q,
    risk (point (example_trade (Some "95"))) = Fin r /\ (r == Qabs (100 - 95))%Q /\
    reward (point (example_trade (Some "95"))) = Fin w /\ (w == Qabs (110 - 100))%Q /\
    ((0 < r)%Q -> exists q, ratio (point (example_trade (Some "95"))) = Fin q /\ (q == w / r)%Q) /\
    ((r == 0)%Q -> ratio (point (example_trade (Some "95"))) = Fin 0).
Proof.
  exact (proj1 riskReward_contract (example_trade (Some "95")) 100%Q 110%Q 95%Q
           eq_refl eq_refl eq_refl).
Defined.

(** ** Empty cohorts *)

Import ChecklistAdherenceChart.

Lemma num_add_finite (a b : number) :
  is_finite a = true -> is_finite b = true -> is_finite (num_add a b) = true.
Proof. destruct a, b; simpl; congruence. Qed.

Lemma fold_num_add_finite (l : list number) (a : number) :
  is_finite a = true -> Forall (fun x => is_finite x = true) l ->
  is_finite (fold_left num_add l a) = true.
Proof.
  revert a. induction l as [|x l IH]; intros a Ha Hl; simpl; [assumption|].
  inversion Hl; subst. apply IH; [apply num_add_finite|]; assumption.
Qed.

Lemma sum_finite (l : list number) :
  Forall (fun x => is_finite x = true) l -> is_finite (sum l) = true.
Proof. intros H. now apply fold_num_add_finite. Qed.

Lemma parsedPnL_finite (t : Trade) : is_finite (parsedPnL t) = true.
Proof.
  unfold parsedPnL. destruct (profitLoss t); [|reflexivity].
  destruct (parseFloat _); reflexivity.
Qed.

Lemma calculateTotalPnL_finite (trades : list Trade) (strategies : list Strategy) :
  is_finite (calculateTotalPnL trades strategies) = true.
Proof.
  unfold calculateTotalPnL. apply sum_finite.
  apply Forall_map, Forall_forall. intros t _. apply parsedPnL_finite.
Qed.

Lemma num_div_count_finite (a : number) (n : nat) :
  is_finite a = true -> (0 < n)%nat -> is_finite (num_div a (num_of_nat n)) = true.
Proof.
  intros Ha Hn. destruct a as [ | | |q]; try discriminate.
  unfold num_of_nat, numZ, num_div. now rewrite (Qcompare_nat_pos n Hn).
Qed.

Lemma winRateOf_finite (l : list TradeEx) : is_finite (winRateOf l) = true.
Proof.
  unfold winRateOf. destruct (0 <? length l)%nat eqn:E; [|reflexivity].
  apply Nat.ltb_lt in E. fold (ratio100 (length (List.filter isWin l)) (length l)).
  now rewrite ratio100_value.
Qed.

Lemma averagePnLOf_finite (strategies : list Strategy) (l : list TradeEx) :
  is_finite (averagePnLOf strategies l) = true.
Proof.
  unfold averagePnLOf. destruct (0 <? length l)%nat eqn:E; [|reflexivity].
  apply Nat.ltb_lt in E.
  apply num_div_count_finite; [apply calculateTotalPnL_finite | assumption].
Qed.

(** C7: the win rate and the average P&L of an empty cohort are 0, in the
    adherence bars, in both cohorts of the per-item analysis and in the
    average risk-reward ratio: the division by a zero count is not
    performed.  For every cohort the win rate and the average P&L are
    finite numbers, never [NaN], and so is the average ratio of points
    whose ratios are finite. *)
Theorem empty_cohort_metrics_are_zero :
  winRateOf [] = Fin 0 /\
  (forall strategies, averagePnLOf strategies [] = Fin 0) /\
  (forall strategies lvl,
     winRate (levelRow strategies (lvl, [])) = Fin 0 /\
     avgPnL (levelRow strategies (lvl, [])) = Fin 0) /\
  (forall strategies it,
     exists row, analyseItem strategies [] it = Normal row /\
       followedPnL row = Fin 0 /\ notFollowedPnL row = Fin 0 /\
       followedWinRate row = Fin 0 /\ notFollowedWinRate row = Fin 0) /\
  avgRiskReward [] = Fin 0 /\
  (forall l, is_finite (winRateOf l) = true) /\
  (forall strategies l, is_finite (averagePnLOf strategies l) = true) /\
  (forall strategies entry,
     is_finite (winRate (levelRow strategies entry)) = true /\
     is_finite (avgPnL (levelRow strategies entry)) = true) /\
  (forall data,
     Forall (fun p => is_finite (ratio p) = true) data ->
     is_finite (avgRiskReward data) = true).
Proof.
  split; [reflexivity|].
  split; [reflexivity|].
  split; [intros; split; reflexivity|].
  split; [intros; eexists; split; [reflexivity | repeat split]|].
  split; [reflexivity|].
  split; [exact winRateOf_finite|].
  split; [exact averagePnLOf_finite|].
  split.
  - intros strategies [lvl ts]. split; [apply winRateOf_finite|].
    apply (averagePnLOf_finite strategies ts).
  - intros data Hfin. unfold avgRiskReward.
    destruct (0 <? length data)%nat eqn:E; [|reflexivity].
    apply Nat.ltb_lt in E. apply num_div_count_finite; [|assumption].
    assert (G : forall a, is_finite a = true ->
                is_finite (fold_left (fun s p => num_add s (ratio p)) data a) = true).
    { clear E. induction Hfin as [|p data Hp _ IH]; intros a Ha; simpl; [assumption|].
      apply IH. now apply num_add_finite. }
    now apply G.
Qed.

Lemma empty_cohort_metrics_are_zero_witness :
  Forall (fun p => is_finite (ratio p) = true) [point (example_trade (Some "95"))] /\
  is_finite (avgRiskReward [point (example_trade (Some "95"))]) = true.
Proof.
  assert (H : Forall (fun p => is_finite (ratio p) = true) [point (example_trade (Some "95"))])
    by (constructor; [reflexivity | constructor]).
  split; [exact H|].
  exact (proj2 (proj2 (proj2 (proj2 (proj2 (proj2 (proj2 (proj2
           empty_cohort_metrics_are_zero))))))) _ H).
Defined.

(** ** The mood scorer *)

Import PsychologyMoodTracker.

(** The fixed table. *)
Lemma emotionScore_table :
  emotionScore "Confident" = Normal (VNum (Fin 5)) /\
  emotionScore "Excited" = Normal (VNum (Fin 4)) /\
  emotionScore "Disciplined" = Normal (VNum (Fin 4)) /\
  emotionScore "Neutral" = Normal (VNum (Fin 3)) /\
  emotionScore "Anxious" = Normal (VNum (Fin 2)) /\
  emotionScore "Fearful" = Normal (VNum (Fin 1)) /\
  emotionScore "Greedy" = Normal (VNum (Fin 1)).
Proof. repeat split; reflexivity. Qed.

(** An absent or empty label is scored as [Neutral]. *)
Lemma emotionOf_absent (t : Trade) :
  emotion t = None \/ emotion t = Some "" -> emotionOf t = "Neutral".
Proof. unfold emotionOf. intros [H|H]; now rewrite H. Qed.

(** Scoring a label never throws. *)
Lemma emotionScore_returns (label : string) : exists v, emotionScore label = Normal v.
Proof.
  unfold emotionScore, get. cbn [EMOTION_SCORES].
  destruct (own_property _ label); eexists; reflexivity.
Qed.

(** A label that is neither in the table nor a name that
    [Object.prototype] defines scores 3. *)
Lemma emotionScore_default (label : string) :
  own_property EMOTION_SCORES label = None ->
  mem label Object_prototype = false ->
  emotionScore label = Normal (VNum (Fin 3)).
Proof.
  intros Hown Hproto. unfold emotionScore, get. cbn [EMOTION_SCORES] in *.
  rewrite Hown. unfold inherited. now rewrite Hproto.
Qed.

Lemma emotionScore_default_example : emotionScore "Bored" = Normal (VNum (Fin 3)).
Proof. apply emotionScore_default; reflexivity. Qed.

(** The mood of a day whose scores are all numbers is their mean. *)
Lemma avgMood_mean (scores : list number) :
  avgMood (map VNum scores) = num_div (sum scores) (num_of_nat (length scores)).
Proof.
  unfold avgMood. rewrite length_map.
  assert (E : numbers_of (map VNum scores) = Some scores).
  { induction scores as [|n scores IH]; [reflexivity|]. simpl. now rewrite IH. }
  now rewrite E.
Qed.

Lemma getMoodLabel_Fin q :
  getMoodLabel (Fin q) =
    if Qle_bool (9 # 2) q then "Very Positive"
    else if Qle_bool (7 # 2) q then "Positive"
    else if Qle_bool (5 # 2) q then "Neutral"
    else if Qle_bool (3 # 2) q then "Negative"
    else "Very Negative".
Proof.
  unfold getMoodLabel.
  assert (E : forall y, num_ge (Fin q) (Fin y) = Qle_bool y q).
  { intros y. destruct (Qle_bool y q) eqn:Hb.
    - apply num_ge_Fin. now apply Qle_bool_iff.
    - apply num_ge_Fin_false. apply Qnot_le_lt. intros H.
      apply Qle_bool_iff in H. congruence. }
  now rewrite !E.
Qed.

(** The label bands of the 5-point scale. *)
Lemma getMoodLabel_bands (s : number) :
  (getMoodLabel s = "Very Positive" <-> num_ge s (Fin (9 # 2)) = true) /\
  (getMoodLabel s = "Positive" <->
     num_ge s (Fin (7 # 2)) = true /\ num_lt s (Fin (9 # 2)) = true) /\
  (getMoodLabel s = "Neutral" <->
     num_ge s (Fin (5 # 2)) = true /\ num_lt s (Fin (7 # 2)) = true) /\
  (getMoodLabel s = "Negative" <->
     num_ge s (Fin (3 # 2)) = true /\ num_lt s (Fin (5 # 2)) = true) /\
  (getMoodLabel s = "Very Negative" <-> num_ge s (Fin (3 # 2)) = false).
Proof.
  destruct s as [ | | | q].
  - cbn. intuition discriminate.
  - cbn. intuition discriminate.
  - cbn. intuition discriminate.
  - rewrite !num_ge_Fin, !num_lt_Fin, num_ge_Fin_false, getMoodLabel_Fin.
    destruct (Qle_bool (9 # 2) q) eqn:H1; destruct (Qle_bool (7 # 2) q) eqn:H2;
    destruct (Qle_bool (5 # 2) q) eqn:H3; destruct (Qle_bool (3 # 2) q) eqn:H4;
    repeat match goal with
    | H : Qle_bool _ _ = true |- _ => apply Qle_bool_iff in H
    | H : Qle_bool ?a ?b = false |- _ =>
        assert (b < a)%Q by (apply Qnot_le_lt; intros Hle; apply Qle_bool_iff in Hle; congruence);
        clear H
    end;
    repeat split; intros; try discriminate; try reflexivity;
      try lra; try (destruct_and?; lra).
Qed.

(** C8, at the label [constructor]: the label is outside the vocabulary,
    yet the lookup finds the member of that name that the table inherits
    from [Object.prototype]; it is truthy, so the fallback to 3 is not
    taken, the score is that built-in, and the mood score of the day is
    [NaN], labelled [Very Negative].  A label that no prototype defines
    ([Bored]) does score 3. *)
Theorem emotionScore_inherited_label :
  emotionScore "constructor" = Normal (VNative "constructor") /\
  emotionScore "constructor" <> Normal (VNum (Fin 3)) /\
  emotionScore "Bored" = Normal (VNum (Fin 3)) /\
  (forall legacy_parse,
     PsychologyMoodTracker.chartData 330 legacy_parse [mood_trade "constructor"] [] =
       Normal [ {| label := "Mar 4"; fullDate := "2024-03-04"; moodScore := NaN;
                   PsychologyMoodTracker.pnl := Fin 10; dayTrades := 1;
                   moodLabel := "Very Negative" |} ]).
Proof.
  repeat split; try reflexivity. discriminate.
Qed.

(** ** Sequencing and sorting *)

Lemma mapM_Normal {A B} (f : A -> completion B) (g : A -> B) (l : list A) :
  (forall x, In x l -> f x = Normal (g x)) -> mapM f l = Normal (map g l).
Proof.
  induction l as [|x l IH]; intros H; [reflexivity|].
  simpl. rewrite (H x) by now left. simpl.
  rewrite IH by (intros y Hy; apply H; now right). reflexivity.
Qed.

Lemma filterM_Normal {A} (p : A -> completion bool) (q : A -> bool) (l : list A) :
  (forall x, In x l -> p x = Normal (q x)) -> filterM p l = Normal (List.filter q l).
Proof.
  induction l as [|x l IH]; intros H; [reflexivity|].
  simpl. rewrite (H x) by now left. simpl.
  rewrite IH by (intros y Hy; apply H; now right). simpl.
  destruct (q x); reflexivity.
Qed.

Section SortFacts.
Context {A : Type} (cmp : A -> A -> number).

Lemma sort_insert_Permutation (x : A) (l : list A) :
  Permutation (sort_insert cmp x l) (x :: l).
Proof.
  induction l as [|y l IH]; simpl; [reflexivity|].
  destruct (num_gt (cmp x y) (Fin 0)); [|reflexivity].
  rewrite IH. apply perm_swap.
Qed.

Lemma Array_sort_Permutation (l : list A) : Permutation (Array_sort cmp l) l.
Proof.
  induction l as [|x l IH]; simpl; [reflexivity|].
  rewrite sort_insert_Permutation. now constructor.
Qed.

Lemma Array_sort_In (l : list A) (x : A) : In x (Array_sort cmp l) <-> In x l.
Proof.
  split; apply Permutation_in; [|symmetry]; apply Array_sort_Permutation.
Qed.

(** When the comparison function is positive exactly where the key of
    its first argument is the greater one, the result is in ascending
    order of the keys. *)
Variable key : A -> Q.
Let ascending (a b : A) : Prop := (key a <= key b)%Q.

Lemma sort_insert_sorted (x : A) (l : list A) :
  (forall y, In y l -> (num_gt (cmp x y) (Fin 0) = true <-> (key y < key x)%Q)) ->
  StronglySorted ascending l ->
  StronglySorted ascending (sort_insert cmp x l).
Proof.
  intros Hcmp Hs. induction Hs as [|y l Hs IH Hy]; simpl.
  - constructor; constructor.
  - destruct (num_gt (cmp x y) (Fin 0)) eqn:G.
    + apply Hcmp in G; [|now left].
      constructor.
      * apply IH. intros z Hz. apply Hcmp. now right.
      * apply List.Forall_forall. intros z Hz.
        apply (Permutation_in _ (sort_insert_Permutation x l)) in Hz.
        destruct Hz as [<-|Hz].
        -- unfold ascending. lra.
        -- rewrite List.Forall_forall in Hy. now apply Hy.
    + assert (Hxy : (key x <= key y)%Q).
      { apply Qnot_lt_le. intros L. apply (Hcmp y) in L; [congruence | now left]. }
      constructor; [now constructor|].
      constructor; [exact Hxy|].
      apply List.Forall_forall. intros z Hz. rewrite List.Forall_forall in Hy.
      specialize (Hy z Hz). unfold ascending in *. lra.
Qed.

Lemma Array_sort_sorted (l : list A) :
  (forall a b, In a l -> In b l ->
     (num_gt (cmp a b) (Fin 0) = true <-> (key b < key a)%Q)) ->
  StronglySorted ascending (Array_sort cmp l).
Proof.
  induction l as [|x l IH]; intros Hcmp; simpl; [constructor|].
  apply sort_insert_sorted.
  - intros y Hy. apply (proj1 (Array_sort_In l y)) in Hy.
    apply Hcmp; [left; reflexivity | right; exact Hy].
  - apply IH. intros a b Ha Hb. apply Hcmp; right; assumption.
Qed.

End SortFacts.

(** Sorting commutes with a projection that the comparison factors
    through. *)
Lemma Array_sort_map {A B} (f : A -> B) (cmpA : A -> A -> number) (cmpB : B -> B -> number)
    (l : list A) :
  (forall a b, cmpA a b = cmpB (f a) (f b)) ->
  map f (Array_sort cmpA l) = Array_sort cmpB (map f l).
Proof.
  intros H. induction l as [|x l IH]; [reflexivity|].
  simpl. rewrite <- IH. generalize (Array_sort cmpA l) as s.
  induction s as [|y s IHs]; [reflexivity|].
  simpl. rewrite <- H. destruct (num_gt (cmpA x y) (Fin 0)); simpl; [now rewrite IHs | reflexivity].
Qed.

Lemma StronglySorted_filter' {A} (R : A -> A -> Prop) (p : A -> bool) (l : list A) :
  StronglySorted R l -> StronglySorted R (List.filter p l).
Proof.
  induction 1 as [|x l Hs IH Hx]; simpl; [constructor|].
  destruct (p x); [|assumption].
  constructor; [assumption|].
  apply List.Forall_forall. intros y Hy. apply filter_In in Hy as [Hy _].
  rewrite List.Forall_forall in Hx. now apply Hx.
Qed.

Lemma In_firstn {A} (n : nat) (l : list A) (x : A) : In x (firstn n l) -> In x l.
Proof.
  intros H. rewrite <- (firstn_skipn n l). apply in_or_app. now left.
Qed.

Lemma StronglySorted_firstn {A} (R : A -> A -> Prop) (n : nat) (l : list A) :
  StronglySorted R l -> StronglySorted R (firstn n l).
Proof.
  intros H. revert n. induction H as [|x l Hs IH Hx]; intros [|n]; simpl; try constructor.
  - apply IH.
  - apply List.Forall_forall. intros y Hy. apply In_firstn in Hy.
    rewrite List.Forall_forall in Hx. now apply Hx.
Qed.

(** ** The trades with their checklists, as a function *)

Lemma parseTradeNotes_parsed_notes (JSON_parse : string -> completion value)
    (notes : option string) :
  parseTradeNotes JSON_parse notes = Normal (parsed_notes JSON_parse notes).
Proof.
  destruct notes as [text|]; [|reflexivity].
  unfold parsed_notes. destruct (String.eqb_spec text "") as [->|Hne]; [reflexivity|].
  apply parseTradeNotes_cases, Hne.
Qed.

Lemma calculateAdherenceScore_truthy (c : value) :
  Boolean c = true -> calculateAdherenceScore c = Normal (score_of c).
Proof.
  intros Hc. unfold score_of.
  destruct (Object_values c) as [items|e] eqn:E.
  - rewrite (calculateAdherenceScore_values c items E). destruct items; reflexivity.
  - destruct c; try discriminate.
Qed.

Lemma withChecklist_enrich (JSON_parse : string -> completion value)
    (items : list ChecklistItem) (t : Trade) :
  withChecklist (useChecklist JSON_parse items) t = Normal (enrich JSON_parse t).
Proof.
  unfold withChecklist, enrich. cbn [hook_parseTradeNotes hook_calculateAdherenceScore
    hook_getAdherenceLevel useChecklist].
  rewrite parseTradeNotes_parsed_notes. cbn [bind].
  destruct (Boolean (UseChecklist.checklist (parsed_notes JSON_parse (notes t)))) eqn:Hc.
  - rewrite (calculateAdherenceScore_truthy _ Hc). reflexivity.
  - reflexivity.
Qed.

Lemma tradesWithChecklist_enrich (JSON_parse : string -> completion value)
    (items : list ChecklistItem) (trades : list Trade) (strategies : list Strategy) :
  tradesWithChecklist (useChecklist JSON_parse items) trades strategies =
    Normal (map (enrich JSON_parse) (getActiveStrategyTrades trades strategies)).
Proof.
  unfold tradesWithChecklist. apply mapM_Normal. intros t _. apply withChecklist_enrich.
Qed.

Lemma getAdherenceLevel_band (s : number) : In (getAdherenceLevel s) bands.
Proof.
  unfold getAdherenceLevel, bands.
  destruct (num_ge s (Fin 90)); [simpl; tauto|].
  destruct (num_ge s (Fin 75)); [simpl; tauto|].
  destruct (num_ge s (Fin 50)); [simpl; tauto|].
  destruct (num_ge s (Fin 25)); simpl; tauto.
Qed.

Lemma enrich_band (JSON_parse : string -> completion value) (t : Trade) :
  In (adherenceLevel (enrich JSON_parse t)) bands.
Proof. apply getAdherenceLevel_band. Qed.

(** ** The grouping by level *)

Lemma update_property_keys {A} (k : string) (f : A -> A) (props : list (string * A)) :
  map fst (update_property k f props) = map fst props.
Proof.
  induction props as [|[k' v] props IH]; [reflexivity|].
  simpl. destruct (k =? k')%string; simpl; [reflexivity | now rewrite IH].
Qed.

Lemma assoc_None_keys {A} (k : string) (props : list (string * A)) :
  assoc k props = None <-> ~ In k (map fst props).
Proof.
  induction props as [|[k' v] props IH]; simpl; [tauto|].
  destruct (String.eqb_spec k k') as [->|Hne].
  - split; [discriminate | intros H; exfalso; apply H; now left].
  - rewrite IH. split; [intros H [E|Hin]; [congruence | tauto] | tauto].
Qed.

Lemma push_group_keys (acc : list (string * list TradeEx)) (t : TradeEx) :
  array_index (adherenceLevel t) = None ->
  map fst (push_group acc t) =
    match assoc (adherenceLevel t) acc with
    | Some _ => map fst acc
    | None => (map fst acc ++ [adherenceLevel t])%list
    end.
Proof.
  intros Hidx. unfold push_group. rewrite update_property_keys.
  destruct (assoc (adherenceLevel t) acc); [reflexivity|].
  unfold define_property. rewrite Hidx, map_app. reflexivity.
Qed.

Lemma band_not_index (k : string) : In k bands -> array_index k = None.
Proof.
  unfold bands. simpl. intros [<-|[<-|[<-|[<-|[<-|[]]]]]]; reflexivity.
Qed.

Lemma adherenceGroups_keys_fold (twc : list TradeEx) (acc : list (string * list TradeEx)) :
  Forall (fun t => In (adherenceLevel t) bands) twc ->
  NoDup (map fst acc) ->
  NoDup (map fst (fold_left push_group twc acc)) /\
  (forall k, In k (map fst (fold_left push_group twc acc)) <->
             In k (map fst acc) \/ exists t, In t twc /\ adherenceLevel t = k).
Proof.
  intros Hb. revert acc. induction Hb as [|t twc Ht _ IH]; intros acc Hnd; simpl.
  - split; [assumption|]. intros k. split; [tauto | intros [H|(t & [] & _)]; assumption].
  - assert (Hk := push_group_keys acc t (band_not_index _ Ht)).
    assert (Hnd' : NoDup (map fst (push_group acc t))).
    { rewrite Hk. destruct (assoc (adherenceLevel t) acc) eqn:E; [assumption|].
      apply NoDup_app. split; [assumption|]. split.
      - intros x Hx Hx'. apply list_elem_of_singleton in Hx'. subst x.
        apply assoc_None_keys in E. apply E. now apply list_elem_of_In.
      - apply NoDup_singleton. }
    destruct (IH (push_group acc t) Hnd') as [IH1 IH2].
    split; [exact IH1|].
    intros k. rewrite IH2, Hk.
    destruct (assoc (adherenceLevel t) acc) eqn:E.
    + split.
      * intros [H|(u & Hu & Eu)]; [now left | right; exists u; split; [now right | assumption]].
      * intros [H|(u & [->|Hu] & Eu)]; [now left | | right; now exists u].
        left. subst k. destruct (in_dec string_dec (adherenceLevel u) (map fst acc)) as [i|n];
          [assumption|]. apply assoc_None_keys in n. congruence.
    + rewrite in_app_iff. simpl. split.
      * intros [[H|[<-|[]]]|(u & Hu & Eu)];
          [now left | right; exists t; split; [now left | reflexivity]
          | right; exists u; split; [now right | assumption]].
      * intros [H|(u & [->|Hu] & Eu)];
          [left; now left | left; right; left; now symmetry | right; now exists u].
Qed.

Lemma update_property_Forall {A} (P : string * A -> Prop) (k : string) (f : A -> A)
    (props : list (string * A)) :
  (forall k' v, P (k', v) -> P (k', f v)) ->
  Forall P props -> Forall P (update_property k f props).
Proof.
  intros Hf. induction 1 as [|[k' v] props Hp Hps IH]; simpl; [constructor|].
  destruct (k =? k')%string; constructor; auto.
Qed.

Lemma update_property_new {A} (k : string) (f : A -> A) (v : A) (props : list (string * A)) :
  assoc k props = None ->
  update_property k f (props ++ [(k, v)]) = (props ++ [(k, f v)])%list.
Proof.
  induction props as [|[k' v'] props IH]; simpl.
  - intros _. now rewrite String.eqb_refl.
  - destruct (k =? k')%string; [discriminate|]. intros H. now rewrite IH.
Qed.

Lemma push_group_nonempty (acc : list (string * list TradeEx)) (t : TradeEx) :
  array_index (adherenceLevel t) = None ->
  Forall (fun g => snd g <> []) acc ->
  Forall (fun g => snd g <> []) (push_group acc t).
Proof.
  intros Hidx Hacc. unfold push_group.
  destruct (assoc (adherenceLevel t) acc) eqn:E.
  - apply update_property_Forall; [|assumption].
    intros k' v _. simpl. now destruct v.
  - unfold define_property. rewrite Hidx, update_property_new by assumption.
    apply Forall_app. split; [assumption|]. constructor; [discriminate | constructor].
Qed.

Lemma adherenceGroups_nonempty (twc : list TradeEx) :
  Forall (fun t => In (adherenceLevel t) bands) twc ->
  Forall (fun g => snd g <> []) (adherenceGroups twc).
Proof.
  unfold adherenceGroups. intros Hb.
  assert (G : forall acc, Forall (fun g : string * list TradeEx => snd g <> []) acc ->
                Forall (fun g => snd g <> []) (fold_left push_group twc acc)).
  { induction Hb as [|t twc Ht _ IH]; intros acc Hacc; simpl; [assumption|].
    apply IH, push_group_nonempty; [now apply band_not_index | assumption]. }
  apply G. constructor.
Qed.

Lemma getAdherenceSortOrder_rankQ (level : string) :
  getAdherenceSortOrder level = Fin (rankQ level).
Proof.
  unfold rankQ, getAdherenceSortOrder.
  repeat match goal with |- context [if ?b then _ else _] => destruct b end; reflexivity.
Qed.

Lemma num_gt_sub_Fin (x y : Q) :
  num_gt (num_sub (Fin x) (Fin y)) (Fin 0) = true <-> (y < x)%Q.
Proof.
  destruct (num_sub_Fin x y) as (d & Hd & Ed). rewrite Hd, num_gt_zero_Fin, Ed. lra.
Qed.

Lemma bands_sorted : StronglySorted (fun a b => (rankQ a <= rankQ b)%Q) bands.
Proof.
  unfold bands. repeat (constructor; [| repeat constructor; unfold Qle; simpl; lia]).
  constructor.
Qed.

Lemma bands_NoDup : NoDup bands.
Proof. apply (bool_decide_unpack _). vm_compute. exact I. Qed.

Lemma rankQ_injective (a b : string) :
  In a bands -> In b bands -> (rankQ a <= rankQ b)%Q -> (rankQ b <= rankQ a)%Q -> a = b.
Proof.
  unfold bands. simpl.
  intros [<-|[<-|[<-|[<-|[<-|[]]]]]] [<-|[<-|[<-|[<-|[<-|[]]]]]] H1 H2;
    try reflexivity; exfalso; revert H1 H2; unfold Qle; simpl; lia.
Qed.

(** The levels of the bars: the bands that hold a trade, in display
    order. *)
Lemma adherenceData_levels (strategies : list Strategy) (twc : list TradeEx) :
  Forall (fun t => In (adherenceLevel t) bands) twc ->
  map level (adherenceData strategies twc) = List.filter (has_band twc) bands.
Proof.
  intros Hb. unfold adherenceData.
  rewrite (Array_sort_map level _
             (fun a b => num_sub (getAdherenceSortOrder a) (getAdherenceSortOrder b)))
    by reflexivity.
  rewrite map_map.
  replace (map (fun x => level (levelRow strategies x)) (adherenceGroups twc))
    with (map fst (adherenceGroups twc))
    by (apply map_ext; intros [k ts]; reflexivity).
  destruct (adherenceGroups_keys_fold twc [] Hb (NoDup_nil_2 : NoDup (map fst [])))
    as [Hnd Hin].
  fold (adherenceGroups twc) in Hnd, Hin.
  set (keys := map fst (adherenceGroups twc)) in *.
  assert (Hkeys : forall k, In k keys <-> In k (List.filter (has_band twc) bands)).
  { intros k. rewrite Hin, filter_In. unfold has_band. rewrite existsb_exists. split.
    - intros [[]|(t & Ht & <-)]. split.
      + rewrite List.Forall_forall in Hb. now apply Hb.
      + exists t. split; [assumption | apply String.eqb_refl].
    - intros (_ & t & Ht & E). right. exists t. split; [assumption | now apply String.eqb_eq]. }
  apply (StronglySorted_unique_strong (fun a b => (rankQ a <= rankQ b)%Q)).
  - intros x1 x2 H1 H2. apply rankQ_injective.
    + apply list_elem_of_In, Array_sort_In, Hkeys, filter_In in H1. tauto.
    + apply list_elem_of_In, filter_In in H2. tauto.
  - apply Array_sort_sorted. intros a b _ _.
    rewrite !getAdherenceSortOrder_rankQ. apply num_gt_sub_Fin.
  - apply StronglySorted_filter', bands_sorted.
  - rewrite Array_sort_Permutation. apply NoDup_Permutation.
    + assumption.
    + apply NoDup_ListNoDup, List.NoDup_filter, NoDup_ListNoDup, bands_NoDup.
    + intros x. rewrite !list_elem_of_In. apply Hkeys.
Qed.

Lemma filter_Permutation' {A} (p : A -> bool) (l l' : list A) :
  Permutation l l' -> Permutation (List.filter p l) (List.filter p l').
Proof.
  induction 1 as [|x l l' _ IH|x y l|l l' l'' _ IH1 _ IH2]; simpl.
  - reflexivity.
  - destruct (p x); [now constructor | assumption].
  - destruct (p x), (p y); try reflexivity. apply perm_swap.
  - now transitivity (List.filter p l').
Qed.

Lemma getActiveStrategyTrades_Permutation (l l' : list Trade) (strategies : list Strategy) :
  Permutation l l' ->
  Permutation (getActiveStrategyTrades l strategies) (getActiveStrategyTrades l' strategies).
Proof.
  intros H. unfold getActiveStrategyTrades. destruct strategies; [assumption|].
  now apply filter_Permutation'.
Qed.

Lemma has_band_Permutation (twc twc' : list TradeEx) (band : string) :
  Permutation twc twc' -> has_band twc band = has_band twc' band.
Proof.
  intros H. unfold has_band. apply eq_true_iff_eq. rewrite !existsb_exists.
  split; intros (t & Ht & E); exists t; (split; [|assumption]).
  - now apply (Permutation_in _ H).
  - now apply (Permutation_in _ (Permutation_sym H)).
Qed.

(** C9: for a list of trades and any permutation of it, the bars of the
    adherence chart are computed (nothing is thrown), their levels are the
    bands that hold at least one trade, in the order Excellent, Good,
    Fair, Poor, Very Poor, every bar counts at least one trade, and the
    permuted list gives the same sequence of levels. *)
Theorem adherenceData_band_order
    (JSON_parse : string -> completion value) (items : list ChecklistItem)
    (trades trades' : list Trade) (strategies : list Strategy) :
  Permutation trades trades' ->
  exists twc twc' : list TradeEx,
    tradesWithChecklist (useChecklist JSON_parse items) trades strategies = Normal twc /\
    tradesWithChecklist (useChecklist JSON_parse items) trades' strategies = Normal twc' /\
    map level (adherenceData strategies twc) =
      List.filter (has_band twc) ["Excellent"; "Good"; "Fair"; "Poor"; "Very Poor"] /\
    Forall (fun row => (0 < ChecklistAdherenceChart.trades row)%nat)
      (adherenceData strategies twc) /\
    map level (adherenceData strategies twc') = map level (adherenceData strategies twc).
Proof.
  intros Hperm.
  exists (map (enrich JSON_parse) (getActiveStrategyTrades trades strategies)),
         (map (enrich JSON_parse) (getActiveStrategyTrades trades' strategies)).
  assert (Hb : forall l, Forall (fun t => In (adherenceLevel t) bands)
                           (map (enrich JSON_parse) l)).
  { intros l. apply Forall_map, List.Forall_forall. intros t _. apply enrich_band. }
  split; [apply tradesWithChecklist_enrich|].
  split; [apply tradesWithChecklist_enrich|].
  split; [apply adherenceData_levels, Hb|].
  split.
  - unfold adherenceData.
    eapply Permutation_Forall; [symmetry; apply Array_sort_Permutation|].
    apply Forall_map.
    eapply Forall_impl; [apply adherenceGroups_nonempty, Hb|].
    intros [k ts] Hne. simpl in *. destruct ts; [contradiction | simpl; lia].
  - rewrite !adherenceData_levels by apply Hb.
    apply filter_ext. intros band. symmetry. apply has_band_Permutation.
    apply Permutation_map, getActiveStrategyTrades_Permutation, Hperm.
Qed.

Lemma adherenceData_band_order_witness :
  let plain := noted_trade "t1" "-5" (Some "no checklist") in
  let full := noted_trade "t2" "10" (Some envelope_text) in
  Permutation [plain; full] [full; plain] /\
  exists twc twc' : list TradeEx,
    tradesWithChecklist (useChecklist one_envelope []) [plain; full] [] = Normal twc /\
    tradesWithChecklist (useChecklist one_envelope []) [full; plain] [] = Normal twc' /\
    map level (adherenceData [] twc) =
      List.filter (has_band twc) ["Excellent"; "Good"; "Fair"; "Poor"; "Very Poor"] /\
    Forall (fun row => (0 < ChecklistAdherenceChart.trades row)%nat) (adherenceData [] twc) /\
    map level (adherenceData [] twc') = map level (adherenceData [] twc).
Proof.
  split; [apply perm_swap|].
  apply (adherenceData_band_order one_envelope []), perm_swap.
Defined.

Example adherenceData_example :
  let plain := noted_trade "t1" "-5" (Some "no checklist") in
  let full := noted_trade "t2" "10" (Some envelope_text) in
  match tradesWithChecklist (useChecklist one_envelope []) [plain; full] [] with
  | Normal twc => map level (adherenceData [] twc)
  | Throw _ => []
  end = ["Excellent"; "Very Poor"].
Proof. vm_compute. reflexivity. Qed.

(** ** The per-item cohorts *)

Lemma js_or_object_not_nullish (c : value) : not_nullish (js_or c (VObj [])) = true.
Proof.
  unfold js_or. destruct (Boolean c) eqn:E; [|reflexivity].
  destruct c; try reflexivity; discriminate.
Qed.

Lemma enrich_checklist_not_nullish (JSON_parse : string -> completion value) (t : Trade) :
  not_nullish (ChecklistAdherenceChart.checklist (enrich JSON_parse t)) = true.
Proof. apply js_or_object_not_nullish. Qed.

Lemma follows_in_cohort (b : bool) (itemId : string) (t : TradeEx) :
  not_nullish (ChecklistAdherenceChart.checklist t) = true ->
  follows b itemId t = Normal (in_cohort b itemId t).
Proof.
  unfold follows, in_cohort, get. intros Hn.
  destruct (ChecklistAdherenceChart.checklist t) as [ | |b'|n|s|e|p|nm] eqn:E;
    try discriminate;
    (destruct (own_property _ itemId) as [[ | |b''|n'|s'|e'|p'|nm']|]; cbn [bind];
     try reflexivity;
     match goal with |- context [if ?c then _ else _] => destruct c end; reflexivity).
Qed.

Lemma getActiveStrategyTrades_all_active (trades : list Trade) (strategies : list Strategy) :
  all_active strategies (getActiveStrategyTrades trades strategies).
Proof.
  unfold all_active, getActiveStrategyTrades. destruct strategies as [|s ss]; [now left|].
  right. apply List.Forall_forall. intros t Ht. now apply filter_In in Ht.
Qed.

Lemma getActiveStrategyTrades_idempotent (l : list Trade) (strategies : list Strategy) :
  all_active strategies l -> getActiveStrategyTrades l strategies = l.
Proof.
  intros [->|H]; [reflexivity|].
  unfold getActiveStrategyTrades. destruct strategies; [reflexivity|].
  induction H as [|t l Ht _ IH]; [reflexivity|]. simpl. now rewrite Ht, IH.
Qed.

Lemma all_active_filter (strategies : list Strategy) (f : TradeEx -> bool) (l : list TradeEx) :
  all_active strategies (map trade l) -> all_active strategies (map trade (List.filter f l)).
Proof.
  intros [->|H]; [now left|]. right.
  apply List.Forall_forall. intros t Ht. rewrite List.Forall_forall in H. apply H.
  apply in_map_iff in Ht as (x & <- & Hx). apply in_map. now apply filter_In in Hx.
Qed.

Lemma averagePnLOf_mean (strategies : list Strategy) (l : list TradeEx) :
  all_active strategies (map trade l) -> averagePnLOf strategies l = mean_pnl l.
Proof.
  intros H. unfold averagePnLOf, mean_pnl, calculateTotalPnL.
  rewrite (getActiveStrategyTrades_idempotent _ _ H), map_map.
  destruct l; reflexivity.
Qed.

Lemma analyseItem_item_row (strategies : list Strategy) (twc : list TradeEx)
    (it : ChecklistItem) :
  Forall (fun t => not_nullish (ChecklistAdherenceChart.checklist t) = true) twc ->
  all_active strategies (map trade twc) ->
  analyseItem strategies twc it = Normal (item_row twc it).
Proof.
  intros Hn Ha. unfold analyseItem, item_row.
  rewrite List.Forall_forall in Hn.
  rewrite (filterM_Normal _ (in_cohort true (UseChecklist.id it)))
    by (intros t Ht; apply follows_in_cohort, Hn, Ht).
  rewrite (filterM_Normal _ (in_cohort false (UseChecklist.id it)))
    by (intros t Ht; apply follows_in_cohort, Hn, Ht).
  cbn [bind]. fold (cohort true (UseChecklist.id it) twc) (cohort false (UseChecklist.id it) twc).
  rewrite !averagePnLOf_mean by now apply all_active_filter.
  reflexivity.
Qed.

Lemma itemAnalysis_item_rows (items : list ChecklistItem) (strategies : list Strategy)
    (twc : list TradeEx) :
  Forall (fun t => not_nullish (ChecklistAdherenceChart.checklist t) = true) twc ->
  all_active strategies (map trade twc) ->
  itemAnalysis items strategies twc = Normal (List.filter has_cohort (map (item_row twc) items)).
Proof.
  intros Hn Ha. unfold itemAnalysis.
  rewrite (mapM_Normal _ (item_row twc))
    by (intros it _; now apply analyseItem_item_row).
  reflexivity.
Qed.

(** The own property of a typed adherence map is its entry. *)
Lemma own_property_adherence_object (m : gmap string bool) (k : string) :
  own_property (adherence_object m) k = option_map VBool (m !! k).
Proof.
  unfold adherence_object, own_property.
  rewrite <- (list_to_map_to_list m) at 2.
  induction (map_to_list m) as [|[k' b] l IH]; [reflexivity|].
  simpl. destruct (String.eqb_spec k k') as [->|Hne].
  - now rewrite lookup_insert_eq.
  - rewrite lookup_insert_ne by congruence. exact IH.
Qed.

(** ** The top-impact ranking *)

Import Discipline.

Lemma hasChecklistData_has_data (t : TradeEx) :
  not_nullish (ChecklistAdherenceChart.checklist t) = true ->
  hasChecklistData t = Normal (has_data t).
Proof.
  unfold hasChecklistData, has_data. intros Hn.
  destruct (ChecklistAdherenceChart.checklist t); try discriminate; reflexivity.
Qed.

Lemma rankItem_rank_row (strategies : list Strategy) (data : list TradeEx) (it : ChecklistItem) :
  Forall (fun t => not_nullish (ChecklistAdherenceChart.checklist t) = true) data ->
  rankItem strategies data it = Normal (rank_row strategies data it).
Proof.
  intros Hn. unfold rankItem, rank_row. rewrite List.Forall_forall in Hn.
  rewrite (filterM_Normal _ (in_cohort true (UseChecklist.id it)))
    by (intros t Ht; apply follows_in_cohort, Hn, Ht).
  rewrite (filterM_Normal _ (in_cohort false (UseChecklist.id it)))
    by (intros t Ht; apply follows_in_cohort, Hn, Ht).
  reflexivity.
Qed.

Lemma num_sub_finite (a b : number) :
  is_finite a = true -> is_finite b = true -> is_finite (num_sub a b) = true.
Proof. destruct a, b; simpl; congruence. Qed.

Lemma rank_row_finite (strategies : list Strategy) (data : list TradeEx) (it : ChecklistItem) :
  is_finite (Discipline.impact (rank_row strategies data it)) = true.
Proof. apply num_sub_finite; apply averagePnLOf_finite. Qed.

Lemma finite_to_Q (a : number) : is_finite a = true -> a = Fin (to_Q a).
Proof. destruct a; try discriminate; reflexivity. Qed.

Lemma Math_abs_finite (a : number) : is_finite a = true -> is_finite (Math_abs a) = true.
Proof. destruct a; try discriminate; reflexivity. Qed.

Lemma sort_by_abs_impact (rows : list TopItem) :
  Forall (fun r => is_finite (Discipline.impact r) = true) rows ->
  StronglySorted by_abs_impact_desc (Array_sort byAbsImpact rows).
Proof.
  intros Hfin. rewrite List.Forall_forall in Hfin.
  set (key := fun r : TopItem => (- to_Q (Math_abs (Discipline.impact r)))%Q).
  assert (Habs : forall r, In r rows ->
            Math_abs (Discipline.impact r) = Fin (to_Q (Math_abs (Discipline.impact r)))).
  { intros r Hr. apply finite_to_Q, Math_abs_finite, Hfin, Hr. }
  assert (Hs : StronglySorted (fun a b => (key a <= key b)%Q) (Array_sort byAbsImpact rows)).
  { apply Array_sort_sorted. intros a b Ha Hb. unfold byAbsImpact.
    rewrite (Habs a Ha), (Habs b Hb), num_gt_sub_Fin. unfold key. lra. }
  assert (Hin : forall r, In r (Array_sort byAbsImpact rows) -> In r rows).
  { intros r. apply Array_sort_In. }
  revert Hs Hin. generalize (Array_sort byAbsImpact rows) as sorted.
  induction 1 as [|x l Hl IH Hx]; intros Hin; constructor.
  - apply IH. intros r Hr. apply Hin. now right.
  - apply List.Forall_forall. intros y Hy. rewrite List.Forall_forall in Hx.
    specialize (Hx y Hy). unfold by_abs_impact_desc.
    rewrite (Habs x) by (apply Hin; now left).
    rewrite (Habs y) by (apply Hin; now right).
    apply num_ge_Fin. unfold key in Hx. lra.
Qed.

Lemma topImpactItems_sorted (JSON_parse : string -> completion value)
    (items : list ChecklistItem) (filteredTrades : list Trade) (strategies : list Strategy) :
  exists rows,
    topImpactItems (useChecklist JSON_parse items) filteredTrades strategies = Normal rows /\
    rows = slice_first 5
             (Array_sort byAbsImpact
                (List.filter hasTrades
                   (map (rank_row strategies
                           (List.filter has_data (map (enrich JSON_parse) filteredTrades)))
                        items))) /\
    StronglySorted by_abs_impact_desc rows /\
    (length rows <= 5)%nat /\
    Forall (fun r => hasTrades r = true) rows.
Proof.
  unfold topImpactItems, tradesWithChecklistData.
  rewrite (mapM_Normal _ (enrich JSON_parse)) by (intros t _; apply withChecklist_enrich).
  cbn [bind].
  rewrite (filterM_Normal _ has_data)
    by (intros t Ht; apply hasChecklistData_has_data;
        apply in_map_iff in Ht as (x & <- & _); apply enrich_checklist_not_nullish).
  cbn [bind UseChecklist.checklistItems useChecklist].
  set (data := List.filter has_data (map (enrich JSON_parse) filteredTrades)).
  assert (Hn : Forall (fun t => not_nullish (ChecklistAdherenceChart.checklist t) = true) data).
  { apply List.Forall_forall. intros t Ht. apply filter_In in Ht as [Ht _].
    apply in_map_iff in Ht as (x & <- & _). apply enrich_checklist_not_nullish. }
  rewrite (mapM_Normal _ (rank_row strategies data))
    by (intros it _; now apply rankItem_rank_row).
  cbn [bind]. eexists. split; [reflexivity|]. split; [reflexivity|].
  set (kept := List.filter _ (map (rank_row strategies data) items)).
  split; [|split].
  - apply StronglySorted_firstn, sort_by_abs_impact.
    apply List.Forall_forall. intros r Hr. apply filter_In in Hr as [Hr _].
    apply in_map_iff in Hr as (it & <- & _). apply rank_row_finite.
  - unfold slice_first. apply firstn_le_length.
  - apply List.Forall_forall. intros r Hr. apply In_firstn, Array_sort_In in Hr.
    now apply filter_In in Hr as [_ Hr].
Qed.

(** The impact of an entry of the ranking is the difference of the
    averages of its two cohorts when every trade of the selection passes
    the activity filter, as it does when no strategies are configured. *)
Lemma rank_row_impact (JSON_parse : string -> completion value)
    (filteredTrades : list Trade) (strategies : list Strategy) (it : ChecklistItem) :
  all_active strategies filteredTrades ->
  Discipline.impact
    (rank_row strategies (List.filter has_data (map (enrich JSON_parse) filteredTrades)) it) =
  num_sub
    (mean_pnl (cohort true (UseChecklist.id it)
                 (List.filter has_data (map (enrich JSON_parse) filteredTrades))))
    (mean_pnl (cohort false (UseChecklist.id it)
                 (List.filter has_data (map (enrich JSON_parse) filteredTrades)))).
Proof.
  intros Ha.
  assert (Hd : all_active strategies
                 (map trade (List.filter has_data (map (enrich JSON_parse) filteredTrades)))).
  { apply all_active_filter. rewrite map_map. cbn [trade enrich]. now rewrite map_id. }
  unfold rank_row. cbn [Discipline.impact].
  rewrite !averagePnLOf_mean by now apply all_active_filter.
  reflexivity.
Qed.

(** ** The worked example of the cohort correlator *)

(** What holds of the cohort correlator.  The per-item analysis of the
    chart is computed (nothing is thrown) and holds, for each item with a
    trade in one of its cohorts, in item order: the followed cohort (own
    checklist value [true] under the item id), the other cohort (value
    [false]), their average P&L and win rate, and the impact, the
    difference of the two averages.  A checklist without the key puts its
    trade in neither cohort.  In the example the impact of X is
    150 - (-20) = 170 and Y, which no trade mentions, is left out.  The
    ranking of the discipline page holds the first five, in descending
    order of the absolute impact, of the entries of the items with a trade
    in one of their cohorts; the impact of an entry is the difference of
    the averages of its cohorts when every trade of the selection passes
    the activity filter. *)
Theorem itemAnalysis_cohorts
    (JSON_parse : string -> completion value) (items : list ChecklistItem)
    (trades : list Trade) (strategies : list Strategy) :
  (exists twc,
     tradesWithChecklist (useChecklist JSON_parse items) trades strategies = Normal twc /\
     ChecklistAdherenceChart.ChecklistAdherenceChart (useChecklist JSON_parse items)
       trades strategies =
       Normal (adherenceData strategies twc,
               List.filter has_cohort (map (item_row twc) items))) /\
  (forall b itemId t,
     in_cohort b itemId t = true <->
     own_property (ChecklistAdherenceChart.checklist t) itemId = Some (VBool b)) /\
  (forall itemId t,
     own_property (ChecklistAdherenceChart.checklist t) itemId = None ->
     in_cohort true itemId t = false /\ in_cohort false itemId t = false) /\
  (forall (m : gmap string bool) b itemId t,
     ChecklistAdherenceChart.checklist t = adherence_object m ->
     (in_cohort b itemId t = true <-> m !! itemId = Some b)) /\
  (forall twc it,
     ChecklistAdherenceChart.impact (item_row twc it) =
       num_sub (mean_pnl (cohort true (UseChecklist.id it) twc))
               (mean_pnl (cohort false (UseChecklist.id it) twc)) /\
     (has_cohort (item_row twc it) = false <->
        cohort true (UseChecklist.id it) twc = [] /\
        cohort false (UseChecklist.id it) twc = [])) /\
  (exists bars,
     ChecklistAdherenceChart.ChecklistAdherenceChart (useChecklist example_parser example_items)
       example_trades [] =
       Normal (bars,
               [ {| item := "Item X"; ChecklistAdherenceChart.category := PreTrade;
                    ChecklistAdherenceChart.followedTrades := 2;
                    ChecklistAdherenceChart.notFollowedTrades := 2;
                    followedPnL := Fin 150; notFollowedPnL := Fin (-20);
                    followedWinRate := Fin 100; notFollowedWinRate := Fin 50;
                    ChecklistAdherenceChart.impact := Fin 170; winRateImpact := Fin 50 |} ])) /\
  (forall filteredTrades,
     exists rows,
       topImpactItems (useChecklist JSON_parse items) filteredTrades strategies = Normal rows /\
       rows = slice_first 5
                (Array_sort byAbsImpact
                   (List.filter hasTrades
                      (map (rank_row strategies
                              (List.filter has_data (map (enrich JSON_parse) filteredTrades)))
                           items))) /\
       StronglySorted by_abs_impact_desc rows /\
       (length rows <= 5)%nat /\
       Forall (fun r => hasTrades r = true) rows) /\
  (forall filteredTrades it,
     all_active strategies filteredTrades ->
     Discipline.impact
       (rank_row strategies (List.filter has_data (map (enrich JSON_parse) filteredTrades)) it) =
     num_sub
       (mean_pnl (cohort true (UseChecklist.id it)
                    (List.filter has_data (map (enrich JSON_parse) filteredTrades))))
       (mean_pnl (cohort false (UseChecklist.id it)
                    (List.filter has_data (map (enrich JSON_parse) filteredTrades))))).
Proof.
  split.
  { exists (map (enrich JSON_parse) (getActiveStrategyTrades trades strategies)).
    split; [apply tradesWithChecklist_enrich|].
    unfold ChecklistAdherenceChart.ChecklistAdherenceChart.
    rewrite tradesWithChecklist_enrich. cbn [bind UseChecklist.checklistItems useChecklist].
    rewrite itemAnalysis_item_rows; [reflexivity | |].
    - apply Forall_map, List.Forall_forall. intros t _. apply enrich_checklist_not_nullish.
    - rewrite map_map. cbn [trade enrich]. rewrite map_id.
      apply getActiveStrategyTrades_all_active. }
  split.
  { intros b itemId t. unfold in_cohort.
    destruct (own_property _ itemId) as [[ | |b'|n|s|e|p|nm]|]; split; try discriminate.
    - intros H. apply Bool.eqb_prop in H. now subst.
    - intros [= ->]. apply Bool.eqb_reflx. }
  split.
  { intros itemId t H. unfold in_cohort. now rewrite H. }
  split.
  { intros m b itemId t Hm. unfold in_cohort.
    rewrite Hm, own_property_adherence_object.
    destruct (m !! itemId) as [b'|]; simpl; split; try discriminate.
    - intros H. apply Bool.eqb_prop in H. now subst.
    - intros [= ->]. apply Bool.eqb_reflx. }
  split.
  { intros twc it. split; [reflexivity|].
    unfold has_cohort.
    cbn [ChecklistAdherenceChart.followedTrades ChecklistAdherenceChart.notFollowedTrades
         item_row].
    rewrite orb_false_iff, !Nat.ltb_ge.
    split.
    - intros [H1 H2]. split; apply length_zero_iff_nil; lia.
    - intros [-> ->]. simpl. lia. }
  split.
  { eexists. vm_compute. reflexivity. }
  split.
  { intros filteredTrades. apply topImpactItems_sorted. }
  intros filteredTrades it. apply rank_row_impact.
Qed.

(** A trade with plain notes is in neither cohort of X. *)
Lemma itemAnalysis_cohorts_witness :
  let t := enrich example_parser (noted_trade "t4" "1000" (Some "bought the dip")) in
  own_property (ChecklistAdherenceChart.checklist t) "X" = None /\
  in_cohort true "X" t = false /\ in_cohort false "X" t = false.
Proof.
  split; [reflexivity|].
  exact (proj1 (proj2 (proj2 (itemAnalysis_cohorts example_parser example_items
                                example_trades [])))
           "X" (enrich example_parser (noted_trade "t4" "1000" (Some "bought the dip")))
           eq_refl).
Defined.


(** ** The weekly buckets *)

Import TradeFrequencyChart.

Lemma num_gt_sub_self (x : number) : num_gt (num_sub x x) (Fin 0) = false.
Proof.
  destruct x as [ | | |q]; try reflexivity.
  destruct (num_gt (num_sub (Fin q) (Fin q)) (Fin 0)) eqn:E; [|reflexivity].
  apply num_gt_sub_Fin in E. now apply Qlt_irrefl in E.
Qed.

Lemma num_gt_sub_lt (x y : number) :
  num_lt y x = true -> num_gt (num_sub x y) (Fin 0) = true.
Proof.
  destruct x as [ | | |p], y as [ | | |q]; try discriminate; try reflexivity.
  intros H. apply num_lt_Fin in H. now apply num_gt_sub_Fin.
Qed.

Lemma days_from_civil_day (y m d : Z) :
  JSDate.days_from_civil y m d = JSDate.days_from_civil y m 1 + d - 1.
Proof. unfold JSDate.days_from_civil. lia. Qed.

(** The day count of the calendar date of a day count is that day
    count. *)
Lemma days_from_civil_from_days (z : Z) :
  let '(y, m, d) := JSDate.civil_from_days z in JSDate.days_from_civil y m d = z.
Proof.
  unfold JSDate.civil_from_days.
  set (z0 := z + 719468).
  set (era := z0 / 146097).
  set (doe := z0 - era * 146097).
  assert (Hdoe : 0 <= doe <= 146096).
  { unfold doe, era. Z.to_euclidean_division_equations. lia. }
  set (yoe := (doe - doe / 1460 + doe / 36524 - doe / 146096) / 365).
  assert (Hyoe : 0 <= yoe <= 399).
  { unfold yoe. clearbody doe. Z.to_euclidean_division_equations. lia. }
  set (doy := doe - (365 * yoe + yoe / 4 - yoe / 100)).
  assert (Hdoy : 0 <= doy <= 365).
  { unfold doy, yoe. clearbody doe. Z.to_euclidean_division_equations. lia. }
  set (mp := (5 * doy + 2) / 153).
  assert (Hmp : 0 <= mp <= 11).
  { unfold mp. clearbody doy. Z.to_euclidean_division_equations. lia. }
  unfold JSDate.days_from_civil.
  destruct (mp <? 10) eqn:E.
  - apply Z.ltb_lt in E.
    replace (mp + 3 <=? 2) with false by (symmetry; apply Z.leb_gt; lia).
    replace (2 <? mp + 3) with true by (symmetry; apply Z.ltb_lt; lia).
    replace ((yoe + era * 400) / 400) with era
      by (clearbody yoe era; Z.to_euclidean_division_equations; lia).
    replace (yoe + era * 400 - era * 400) with yoe by lia.
    replace (mp + 3 + -3) with mp by lia.
    unfold doy, doe, z0. lia.
  - apply Z.ltb_ge in E.
    replace (mp - 9 <=? 2) with true by (symmetry; apply Z.leb_le; lia).
    replace (2 <? mp - 9) with false by (symmetry; apply Z.ltb_ge; lia).
    replace ((yoe + era * 400 + 1 - 1) / 400) with era
      by (clearbody yoe era; Z.to_euclidean_division_equations; lia).
    replace (yoe + era * 400 + 1 - 1 - era * 400) with yoe by lia.
    replace (mp - 9 + 9) with mp by lia.
    unfold doy, doe, z0. lia.
Qed.

Lemma sunday_on_or_before_spec (day : Z) :
  (sunday_on_or_before day + 4) mod 7 = 0 /\
  sunday_on_or_before day <= day < sunday_on_or_before day + 7.
Proof. unfold sunday_on_or_before. Z.to_euclidean_division_equations. lia. Qed.

Lemma local_day_midnight (tz day : Z) :
  JSDate.local_day tz (day * JSDate.msPerDay - tz * JSDate.msPerMinute) = day.
Proof.
  unfold JSDate.local_day, JSDate.msPerDay, JSDate.msPerMinute.
  Z.to_euclidean_division_equations. lia.
Qed.

Lemma local_ms_in_day_midnight (tz day : Z) :
  JSDate.local_ms_in_day tz (day * JSDate.msPerDay - tz * JSDate.msPerMinute) = 0.
Proof.
  unfold JSDate.local_ms_in_day, JSDate.msPerDay, JSDate.msPerMinute.
  Z.to_euclidean_division_equations. lia.
Qed.

(** The start of the week of a local midnight is the local midnight of
    the Sunday on or before it. *)
Lemma weekStart_midnight (tz day : Z) :
  let date := day * JSDate.msPerDay - tz * JSDate.msPerMinute in
  JSDate.setDate tz date (JSDate.getDate tz date - JSDate.getDay tz date) =
  sunday_on_or_before day * JSDate.msPerDay - tz * JSDate.msPerMinute.
Proof.
  cbv zeta. unfold JSDate.setDate, JSDate.getDate, JSDate.getDay.
  rewrite local_day_midnight, local_ms_in_day_midnight.
  pose proof (days_from_civil_from_days day) as R.
  destruct (JSDate.civil_from_days day) as [[y m] d]. cbn [snd].
  rewrite days_from_civil_day in R. unfold sunday_on_or_before. lia.
Qed.

Lemma utc_day_of_local_midnight (tz day : Z) :
  -1440 < tz < 1440 ->
  (day * JSDate.msPerDay - tz * JSDate.msPerMinute) / JSDate.msPerDay =
  day - (if 0 <? tz then 1 else 0).
Proof.
  intros H. unfold JSDate.msPerDay, JSDate.msPerMinute.
  destruct (0 <? tz) eqn:E; [apply Z.ltb_lt in E | apply Z.ltb_ge in E];
    Z.to_euclidean_division_equations; lia.
Qed.

(** The bucket of a trade date, in general: the label is that of the
    Sunday on or before the date; the key is the ISO date of that Sunday
    in UTC and in the zones west of it, and of the day before it in the
    zones east of UTC. *)
Lemma weekOf_key (tz : Z) (date : string) (y m d : Z) :
  JSDate.parse_ymd date = Some (y, m, d) ->
  -1440 < tz < 1440 ->
  let sunday := sunday_on_or_before (JSDate.days_from_civil y m d) in
  TradeFrequencyChart.weekOf tz date =
    Normal (JSDate.iso_date (JSDate.civil_from_days (sunday - (if 0 <? tz then 1 else 0))),
            week_label sunday).
Proof.
  intros Hp Htz. cbv zeta.
  unfold TradeFrequencyChart.weekOf, JSDate.new_Date_local_midnight. rewrite Hp.
  rewrite weekStart_midnight.
  unfold JSDate.toISOString_date, JSDate.toLocaleDateString_short.
  rewrite (utc_day_of_local_midnight _ _ Htz), local_day_midnight.
  reflexivity.
Qed.

Lemma weekOf_key_example :
  TradeFrequencyChart.weekOf (-300) "2024-03-08" = Normal ("2024-03-03", "Mar 3") /\
  TradeFrequencyChart.weekOf 330 "2024-03-08" = Normal ("2024-03-02", "Mar 3").
Proof.
  split.
  - rewrite (weekOf_key (-300) "2024-03-08" 2024 3 8); [reflexivity | reflexivity | lia].
  - rewrite (weekOf_key 330 "2024-03-08" 2024 3 8); [reflexivity | reflexivity | lia].
Qed.

(** In UTC the trades of Monday 2024-03-04 and Friday 2024-03-08 share
    the bucket keyed by Sunday 2024-03-03, and Sunday 2024-03-10 opens
    the next one. *)
Lemma weeklyData_keys_UTC :
  TradeFrequencyChart.weeklyData 0
    [dated_trade "2024-03-04" "10"; dated_trade "2024-03-08" "20";
     dated_trade "2024-03-10" "5"] [] =
  Normal
    [ ("2024-03-03",
       {| week := "Mar 3"; TradeFrequencyChart.trades := 2; totalVolume := Fin 200;
          TradeFrequencyChart.avgPnL := Fin 15; pnlSum := Fin 30 |});
      ("2024-03-10",
       {| week := "Mar 10"; TradeFrequencyChart.trades := 1; totalVolume := Fin 100;
          TradeFrequencyChart.avgPnL := Fin 5; pnlSum := Fin 5 |}) ].
Proof. vm_compute. reflexivity. Qed.

(** C4, where the code departs from it.  The buckets are sorted by their
    labels, which carry month and day but no year: two weeks that start
    on a 3 March (2024 and 2019) compare equal whatever the engine makes
    of the label, so they stay in insertion order, the week of 2024 before
    the week of 2019; and where the engine reads [Jan 7] as earlier than
    [Dec 31], the week of 2024-01-07 is put before the week of
    2023-12-31.  The bucket key is the UTC date of local midnight: at
    UTC+05:30 the weeks of 2024-03-04 and 2024-03-10 are keyed 2024-03-02
    and 2024-03-09, the Saturdays, not the Sundays. *)
Theorem weekly_buckets_order_and_keys :
  (forall legacy_parse : string -> number,
     option_map (map fst)
       (match TradeFrequencyChart.weeklyData 0
                [dated_trade "2024-03-04" "10"; dated_trade "2024-03-08" "20";
                 dated_trade "2019-03-05" "7"] [] with
        | Normal ws => Some ws
        | Throw _ => None
        end) = Some ["2024-03-03"; "2019-03-03"] /\
     TradeFrequencyChart.chartData 0 legacy_parse
       [dated_trade "2024-03-04" "10"; dated_trade "2024-03-08" "20";
        dated_trade "2019-03-05" "7"] [] =
     Normal
       [ {| week := "Mar 3"; TradeFrequencyChart.trades := 2; totalVolume := Fin 200;
            TradeFrequencyChart.avgPnL := Fin 15; pnlSum := Fin 30 |};
         {| week := "Mar 3"; TradeFrequencyChart.trades := 1; totalVolume := Fin 100;
            TradeFrequencyChart.avgPnL := Fin 7; pnlSum := Fin 7 |} ]) /\
  (forall legacy_parse : string -> number,
     num_lt (legacy_parse "Jan 7") (legacy_parse "Dec 31") = true ->
     TradeFrequencyChart.chartData 0 legacy_parse
       [dated_trade "2023-12-31" "1"; dated_trade "2024-01-08" "2"] [] =
     Normal
       [ {| week := "Jan 7"; TradeFrequencyChart.trades := 1; totalVolume := Fin 100;
            TradeFrequencyChart.avgPnL := Fin 2; pnlSum := Fin 2 |};
         {| week := "Dec 31"; TradeFrequencyChart.trades := 1; totalVolume := Fin 100;
            TradeFrequencyChart.avgPnL := Fin 1; pnlSum := Fin 1 |} ]) /\
  TradeFrequencyChart.weeklyData 330
    [dated_trade "2024-03-04" "10"; dated_trade "2024-03-08" "20";
     dated_trade "2024-03-10" "5"] [] =
  Normal
    [ ("2024-03-02",
       {| week := "Mar 3"; TradeFrequencyChart.trades := 2; totalVolume := Fin 200;
          TradeFrequencyChart.avgPnL := Fin 15; pnlSum := Fin 30 |});
      ("2024-03-09",
       {| week := "Mar 10"; TradeFrequencyChart.trades := 1; totalVolume := Fin 100;
          TradeFrequencyChart.avgPnL := Fin 5; pnlSum := Fin 5 |}) ].
Proof.
  split; [|split].
  - intros legacy_parse. split; [vm_compute; reflexivity|].
    unfold TradeFrequencyChart.chartData.
    replace (TradeFrequencyChart.weeklyData 0
               [dated_trade "2024-03-04" "10"; dated_trade "2024-03-08" "20";
                dated_trade "2019-03-05" "7"] [])
      with (Normal
              [ ("2024-03-03",
                 {| week := "Mar 3"; TradeFrequencyChart.trades := 2; totalVolume := Fin 200;
                    TradeFrequencyChart.avgPnL := Fin 15; pnlSum := Fin 30 |});
                ("2019-03-03",
                 {| week := "Mar 3"; TradeFrequencyChart.trades := 1; totalVolume := Fin 100;
                    TradeFrequencyChart.avgPnL := Fin 7; pnlSum := Fin 7 |}) ])
      by (vm_compute; reflexivity).
    cbn [bind map snd Array_sort sort_insert].
    unfold byWeekLabel; cbn [week].
    rewrite num_gt_sub_self. reflexivity.
  - intros legacy_parse Hlt.
    unfold TradeFrequencyChart.chartData.
    replace (TradeFrequencyChart.weeklyData 0
               [dated_trade "2023-12-31" "1"; dated_trade "2024-01-08" "2"] [])
      with (Normal
              [ ("2023-12-31",
                 {| week := "Dec 31"; TradeFrequencyChart.trades := 1; totalVolume := Fin 100;
                    TradeFrequencyChart.avgPnL := Fin 1; pnlSum := Fin 1 |});
                ("2024-01-07",
                 {| week := "Jan 7"; TradeFrequencyChart.trades := 1; totalVolume := Fin 100;
                    TradeFrequencyChart.avgPnL := Fin 2; pnlSum := Fin 2 |}) ])
      by (vm_compute; reflexivity).
    cbn [bind map snd Array_sort sort_insert].
    unfold byWeekLabel; cbn [week].
    change (JSDate.new_Date_getTime legacy_parse "Dec 31") with (legacy_parse "Dec 31").
    change (JSDate.new_Date_getTime legacy_parse "Jan 7") with (legacy_parse "Jan 7").
    rewrite (num_gt_sub_lt _ _ Hlt). reflexivity.
  - vm_compute. reflexivity.
Qed.

(** * Further properties of the code *)

Import TradeChecklist.

(** A [Forall] over a list that evaluates to a literal, element by
    element. *)
Ltac Forall_by_evaluation :=
  match goal with
  | |- Forall ?P ?l =>
      let l' := eval vm_compute in l in
      change (Forall P l');
      repeat (constructor; [vm_compute; reflexivity|]); constructor
  end.

(** ** Trimming *)

Lemma skip_spaces_no_leading_space (l : list ascii) : no_leading_space (skip_spaces l).
Proof.
  induction l as [|c l IH]; simpl; [exact I|].
  destruct (is_space c) eqn:E; [exact IH | exact E].
Qed.

Lemma skip_spaces_fixed (l : list ascii) : no_leading_space l -> skip_spaces l = l.
Proof. destruct l as [|c l]; simpl; [reflexivity | now intros ->]. Qed.

Lemma skip_spaces_suffix (l : list ascii) :
  exists sp, l = (sp ++ skip_spaces l)%list.
Proof.
  induction l as [|c l (sp & IH)]; simpl; [now exists []|].
  destruct (is_space c); [exists (c :: sp); simpl; now rewrite <- IH | now exists []].
Qed.

Lemma trim_list_fixed (l : list ascii) :
  let t := rev (skip_spaces (rev (skip_spaces l))) in
  rev (skip_spaces (rev (skip_spaces t))) = t.
Proof.
  cbv zeta. set (a := skip_spaces l). set (t := rev (skip_spaces (rev a))).
  assert (Ht : no_leading_space t).
  { destruct (skip_spaces_suffix (rev a)) as (sp & Hsp).
    assert (Ha : a = (t ++ rev sp)%list).
    { unfold t. rewrite <- rev_app_distr, <- Hsp. now rewrite rev_involutive. }
    pose proof (skip_spaces_no_leading_space l) as Hl. fold a in Hl.
    destruct t as [|c t']; [exact I|]. rewrite Ha in Hl. exact Hl. }
  rewrite (skip_spaces_fixed t Ht).
  assert (Hr : no_leading_space (rev t)).
  { unfold t. rewrite rev_involutive. apply skip_spaces_no_leading_space. }
  rewrite (skip_spaces_fixed _ Hr). apply rev_involutive.
Qed.

Lemma trim_idempotent (s : string) : trim (trim s) = trim s.
Proof.
  unfold trim. rewrite list_ascii_of_string_of_list_ascii.
  now rewrite trim_list_fixed.
Qed.

(** X1: what [serializeTradeNotes] writes, [parseTradeNotes] reads back:
    the adherence map as it was and the notes without the white space
    around them, provided [JSON.parse] inverts [JSON.stringify] on the
    envelope.  Writing the notes that were read back gives the same text
    again. *)
Theorem serializeTradeNotes_round_trip
    (JSON_parse : string -> completion value) (JSON_stringify : value -> string)
    (checklist : ChecklistAdherence) (userNotes : string)
    (Hne : serializeTradeNotes JSON_stringify checklist userNotes <> "")
    (Hparse : JSON_parse (serializeTradeNotes JSON_stringify checklist userNotes) =
              Normal (VObj [("checklist", adherence_object checklist);
                            ("userNotes", VStr (trim userNotes))])) :
  parseTradeNotes JSON_parse (Some (serializeTradeNotes JSON_stringify checklist userNotes)) =
    Normal {| UseChecklist.checklist := adherence_object checklist;
              UseChecklist.userNotes := VStr (trim userNotes) |} /\
  serializeTradeNotes JSON_stringify checklist (trim userNotes) =
    serializeTradeNotes JSON_stringify checklist userNotes.
Proof.
  split.
  - rewrite (parseTradeNotes_cases _ _ Hne), Hparse. cbn [assoc String.eqb Ascii.eqb Bool.eqb].
    unfold member. cbn [assoc String.eqb Ascii.eqb Bool.eqb].
    unfold js_or, adherence_object. cbn [Boolean].
    destruct (String.eqb_spec (trim userNotes) "") as [->|_]; reflexivity.
  - unfold serializeTradeNotes. now rewrite trim_idempotent.
Qed.

Lemma serializeTradeNotes_round_trip_witness :
  parseTradeNotes one_envelope
    (Some (serializeTradeNotes envelope_writer {["a" := true]} "  ok ")) =
    Normal {| UseChecklist.checklist := adherence_object {["a" := true]};
              UseChecklist.userNotes := VStr (trim "  ok ") |} /\
  serializeTradeNotes envelope_writer {["a" := true]} (trim "  ok ") =
    serializeTradeNotes envelope_writer {["a" := true]} "  ok ".
Proof.
  apply (serializeTradeNotes_round_trip one_envelope envelope_writer {["a" := true]} "  ok ").
  - vm_compute. discriminate.
  - vm_compute. reflexivity.
Defined.

(** ** The item list and its editing *)

Lemma category_eqb_cases (c : Category) :
  category_eqb c PreTrade = negb (category_eqb c PostTrade).
Proof. now destruct c. Qed.

(** X2: the pre-trade and the post-trade items partition the item list. *)
Theorem preTrade_postTrade_partition
    (JSON_parse : string -> completion value) (items : list ChecklistItem) :
  let hook := useChecklist JSON_parse items in
  Permutation (preTradeItems hook ++ postTradeItems hook) items /\
  (length (preTradeItems hook) + length (postTradeItems hook) = length items)%nat /\
  (forall item, In item items ->
     (In item (preTradeItems hook) /\ ~ In item (postTradeItems hook)) \/
     (In item (postTradeItems hook) /\ ~ In item (preTradeItems hook))).
Proof.
  cbv zeta. cbn [preTradeItems postTradeItems useChecklist].
  assert (P : Permutation
                (List.filter (fun item => category_eqb (UseChecklist.category item) PreTrade) items ++
                 List.filter (fun item => category_eqb (UseChecklist.category item) PostTrade) items)
                items).
  { induction items as [|x items IH]; [constructor|].
    simpl. rewrite (category_eqb_cases (UseChecklist.category x)).
    destruct (category_eqb (UseChecklist.category x) PostTrade); simpl.
    - rewrite <- Permutation_middle. now constructor.
    - now constructor. }
  split; [exact P|]. split.
  - rewrite <- (Permutation_length P). now rewrite length_app.
  - intros item Hin.
    destruct (category_eqb (UseChecklist.category item) PreTrade) eqn:E.
    + left. split; [apply filter_In; now split|].
      intros H. apply filter_In in H as [_ H].
      rewrite category_eqb_cases, H in E. discriminate.
    + right. rewrite category_eqb_cases in E. apply negb_false_iff in E.
      split; [apply filter_In; now split|].
      intros H. apply filter_In in H as [_ H].
      rewrite category_eqb_cases, E in H. discriminate.
Qed.

Lemma deleteChecklistItem_absent (id' : string) (items : list ChecklistItem) :
  ~ In id' (ids items) -> deleteChecklistItem id' items = items.
Proof.
  induction items as [|x items IH]; [reflexivity|].
  simpl. intros H. destruct (String.eqb_spec (UseChecklist.id x) id') as [E|_].
  - exfalso. apply H. now left.
  - simpl. f_equal. apply IH. intros Hin. apply H. now right.
Qed.

Lemma deleteChecklistItem_ids (id' : string) (items : list ChecklistItem) :
  ids (deleteChecklistItem id' items) = List.filter (fun k => negb (k =? id')%string) (ids items).
Proof.
  induction items as [|x items IH]; [reflexivity|].
  simpl. destruct (UseChecklist.id x =? id')%string; simpl; now rewrite IH.
Qed.

Lemma spread_id (updates : ChecklistItemUpdates) (item : ChecklistItem) :
  updated_id updates = None -> UseChecklist.id (spread updates item) = UseChecklist.id item.
Proof. unfold spread. now intros ->. Qed.

Lemma updateChecklistItem_ids (id' : string) (updates : ChecklistItemUpdates)
    (items : list ChecklistItem) :
  updated_id updates = None ->
  ids (updateChecklistItem id' (spread updates) items) = ids items.
Proof.
  intros H. induction items as [|x items IH]; [reflexivity|].
  simpl. rewrite IH. f_equal.
  destruct (UseChecklist.id x =? id')%string; [now apply spread_id | reflexivity].
Qed.

Lemma defaultItems_ids_distinct : List.NoDup (ids defaultItems).
Proof.
  apply NoDup_ListNoDup. apply (bool_decide_unpack _). vm_compute. exact I.
Qed.

(** X3: the ids of the items stay pairwise distinct under editing.  The
    default list has distinct ids; deleting keeps them distinct, and
    removes every item of the id; an update that does not name a new id
    leaves the ids, their order and the number of items as they are; an
    added item keeps the ids distinct when its generated id is not in use. *)
Theorem editing_keeps_ids_distinct :
  List.NoDup (ids defaultItems) /\
  (forall (items : list ChecklistItem) (id' : string),
     List.NoDup (ids items) ->
     List.NoDup (ids (deleteChecklistItem id' items)) /\
     ~ In id' (ids (deleteChecklistItem id' items))) /\
  (forall (items : list ChecklistItem) (id' : string) (updates : ChecklistItemUpdates),
     updated_id updates = None ->
     ids (updateChecklistItem id' (spread updates) items) = ids items) /\
  (forall (items : list ChecklistItem) (now : Z) (random36 : string) (item : ChecklistItemDraft),
     List.NoDup (ids items) ->
     ~ In (UseChecklist.id (newItem now random36 item)) (ids items) ->
     List.NoDup (ids (addChecklistItem (newItem now random36 item) items))).
Proof.
  split; [exact defaultItems_ids_distinct|]. split; [|split].
  - intros items id' Hnd. rewrite deleteChecklistItem_ids. split.
    + now apply List.NoDup_filter.
    + intros H. apply filter_In in H as [_ H]. now rewrite String.eqb_refl in H.
  - intros items id' updates H. now apply updateChecklistItem_ids.
  - intros items now random36 item Hnd Hfresh.
    unfold addChecklistItem, ids. rewrite map_app. simpl.
    apply NoDup_ListNoDup. apply NoDup_app. split; [now apply NoDup_ListNoDup|]. split.
    + intros x Hx Hx'. apply list_elem_of_singleton in Hx'. subst x.
      apply Hfresh. now apply list_elem_of_In.
    + apply NoDup_singleton.
Qed.

(** X4: deleting the id of an item that was just added, when no other
    item has that id, gives the list as it was before; deleting an id that
    no item has changes nothing, and deleting twice is deleting once. *)
Theorem deleteChecklistItem_undoes_add (items : list ChecklistItem) :
  (forall newItem' : ChecklistItem,
     ~ In (UseChecklist.id newItem') (ids items) ->
     deleteChecklistItem (UseChecklist.id newItem') (addChecklistItem newItem' items) = items) /\
  (forall id' : string,
     ~ In id' (ids items) -> deleteChecklistItem id' items = items) /\
  (forall id' : string,
     deleteChecklistItem id' (deleteChecklistItem id' items) = deleteChecklistItem id' items).
Proof.
  split; [|split].
  - intros newItem' Hfresh. unfold addChecklistItem, deleteChecklistItem.
    rewrite List.filter_app. simpl. rewrite String.eqb_refl. simpl.
    rewrite app_nil_r. now apply deleteChecklistItem_absent.
  - intros id'. apply deleteChecklistItem_absent.
  - intros id'. apply deleteChecklistItem_absent.
    rewrite deleteChecklistItem_ids. intros H. apply filter_In in H as [_ H].
    now rewrite String.eqb_refl in H.
Qed.

Lemma spread_merge (first second : ChecklistItemUpdates) (item : ChecklistItem) :
  spread second (spread first item) = spread (merge_updates first second) item.
Proof.
  unfold spread, merge_updates. cbn.
  destruct (updated_id second), (updated_name second), (updated_category second),
    (updated_description second); reflexivity.
Qed.

(** X5: two updates of the same item in a row are one update by the
    merged members, provided the first one does not rename the id; an
    update without members, or of an id that no item has, changes
    nothing; and an update touches no item of another id. *)
Theorem updateChecklistItem_composes (items : list ChecklistItem) (id' : string) :
  (forall first second : ChecklistItemUpdates,
     updated_id first = None ->
     updateChecklistItem id' (spread second) (updateChecklistItem id' (spread first) items) =
     updateChecklistItem id' (spread (merge_updates first second)) items) /\
  updateChecklistItem id' (spread no_updates) items = items /\
  (forall updates : ChecklistItemUpdates,
     ~ In id' (ids items) -> updateChecklistItem id' (spread updates) items = items) /\
  (forall (updates : ChecklistItemUpdates) (item : ChecklistItem),
     UseChecklist.id item <> id' ->
     In item items -> In item (updateChecklistItem id' (spread updates) items)).
Proof.
  split; [|split; [|split]].
  - intros first second H. unfold updateChecklistItem. rewrite map_map.
    apply map_ext. intros item.
    destruct (UseChecklist.id item =? id')%string eqn:E.
    + rewrite (spread_id first item H), E. apply spread_merge.
    + now rewrite E.
  - unfold updateChecklistItem. rewrite <- (map_id items) at 2.
    apply map_ext. intros [i n c d]. now destruct (_ =? _)%string.
  - intros updates H. unfold updateChecklistItem. rewrite <- (map_id items) at 2.
    apply map_ext_in. intros item Hin.
    destruct (String.eqb_spec (UseChecklist.id item) id') as [E|_]; [|reflexivity].
    exfalso. apply H. unfold ids. rewrite <- E. now apply in_map.
  - intros updates item Hne Hin. unfold updateChecklistItem.
    apply in_map_iff. exists item. split; [|assumption].
    apply String.eqb_neq in Hne. now rewrite Hne.
Qed.

(** ** The stored item list *)

Lemma loadChecklistItems_stored (stringify_items : list ChecklistItem -> string)
    (parse_items : string -> completion (list ChecklistItem)) (fits : string -> bool)
    (st : Store) (text : string) :
  saved st = Some text -> text <> "" ->
  loadChecklistItems stringify_items parse_items fits st =
    {| saved := Some text;
       current := match parse_items text with Normal items => items | Throw _ => [] end |}.
Proof.
  intros Hs Hne. unfold loadChecklistItems. rewrite Hs.
  apply String.eqb_neq in Hne. rewrite Hne.
  unfold setChecklistItems. rewrite Hs. now destruct (parse_items text).
Qed.

(** X6: loading the item list.  With nothing stored, or the empty text,
    the list becomes the eight default items, and their text is stored
    when the storage takes it.  A stored text that [JSON.parse] rejects
    gives the empty list and stays stored, so that loading again gives
    the empty list again: the defaults do not come back. *)
Theorem loadChecklistItems_first_run_and_corrupt
    (stringify_items : list ChecklistItem -> string)
    (parse_items : string -> completion (list ChecklistItem)) (fits : string -> bool)
    (st : Store) :
  (saved st = None \/ saved st = Some "" ->
   current (loadChecklistItems stringify_items parse_items fits st) = defaultItems /\
   saved (loadChecklistItems stringify_items parse_items fits st) =
     (if fits (stringify_items defaultItems) then Some (stringify_items defaultItems)
      else saved st)) /\
  (forall (text : string) (e : exn),
     saved st = Some text -> text <> "" -> parse_items text = Throw e ->
     loadChecklistItems stringify_items parse_items fits st =
       {| saved := Some text; current := [] |} /\
     loadChecklistItems stringify_items parse_items fits
       (loadChecklistItems stringify_items parse_items fits st) =
     loadChecklistItems stringify_items parse_items fits st).
Proof.
  split.
  - intros H.
    assert (E : loadChecklistItems stringify_items parse_items fits st =
                saveChecklistItems stringify_items fits defaultItems
                  (setChecklistItems defaultItems st)).
    { unfold loadChecklistItems. destruct H as [-> | ->]; reflexivity. }
    rewrite E. unfold saveChecklistItems, setChecklistItems.
    destruct (fits (stringify_items defaultItems)); cbn [saved current]; split; reflexivity.
  - intros text e Hs Hne Hp.
    assert (E : loadChecklistItems stringify_items parse_items fits st =
                {| saved := Some text; current := [] |}).
    { rewrite (loadChecklistItems_stored _ _ _ st text Hs Hne), Hp. reflexivity. }
    split; [exact E|]. rewrite E.
    rewrite (loadChecklistItems_stored _ _ _ {| saved := Some text; current := [] |} text eq_refl Hne),
      Hp. reflexivity.
Qed.

(** X7: a saved list is the list a later load gives, when the storage
    takes its text and [JSON.parse] reads back what [JSON.stringify]
    wrote; in particular the outcome of a deletion survives a reload.  A
    save that the storage refuses changes neither the stored text nor the
    list in memory. *)
Theorem saveChecklistItems_then_load
    (stringify_items : list ChecklistItem -> string)
    (parse_items : string -> completion (list ChecklistItem)) (fits : string -> bool)
    (st : Store) :
  (forall items : list ChecklistItem,
     fits (stringify_items items) = true ->
     stringify_items items <> "" ->
     parse_items (stringify_items items) = Normal items ->
     loadChecklistItems stringify_items parse_items fits
       (saveChecklistItems stringify_items fits items st) =
     {| saved := Some (stringify_items items); current := items |}) /\
  (forall items : list ChecklistItem,
     fits (stringify_items items) = false ->
     saveChecklistItems stringify_items fits items st = st) /\
  (forall id' : string,
     fits (stringify_items (deleteChecklistItem id' (current st))) = true ->
     stringify_items (deleteChecklistItem id' (current st)) <> "" ->
     parse_items (stringify_items (deleteChecklistItem id' (current st))) =
       Normal (deleteChecklistItem id' (current st)) ->
     ~ In id' (ids (current (loadChecklistItems stringify_items parse_items fits
                               (store_delete stringify_items fits id' st))))).
Proof.
  assert (L : forall l st', fits (stringify_items l) = true ->
                stringify_items l <> "" ->
                parse_items (stringify_items l) = Normal l ->
                loadChecklistItems stringify_items parse_items fits
                  (saveChecklistItems stringify_items fits l st') =
                {| saved := Some (stringify_items l); current := l |}).
  { intros l st' Hf Hne Hp. unfold saveChecklistItems, setChecklistItems. rewrite Hf.
    cbn [saved].
    rewrite (loadChecklistItems_stored _ _ _
               {| saved := Some (stringify_items l); current := l |} _ eq_refl Hne), Hp.
    reflexivity. }
  split; [|split].
  - intros items. apply L.
  - intros items Hf. unfold saveChecklistItems. now rewrite Hf.
  - intros id' Hf Hne Hp. unfold store_delete.
    rewrite (L _ st Hf Hne Hp). cbn [current]. rewrite deleteChecklistItem_ids.
    intros H. apply filter_In in H as [_ H]. now rewrite String.eqb_refl in H.
Qed.

(** ** The checklist form *)







Lemma insert_index_Permutation {A} (i : N) (k : string) (v : A) (props : list (string * A)) :
  Permutation (insert_index i k v props) ((k, v) :: props).
Proof.
  induction props as [|[k' v'] props IH]; simpl; [reflexivity|].
  destruct (array_index k') as [j|]; [|reflexivity].
  destruct (i <? j)%N; [reflexivity|].
  rewrite IH. apply perm_swap.
Qed.

Lemma define_property_Permutation {A} (k : string) (v : A) (props : list (string * A)) :
  Permutation (define_property k v props) ((k, v) :: props).
Proof.
  unfold define_property. destruct (array_index k).
  - apply insert_index_Permutation.
  - rewrite Permutation_app_comm. reflexivity.
Qed.

Lemma fromEntries_Permutation (entries acc : list (string * value)) :
  List.NoDup (map fst acc ++ map fst entries) ->
  Permutation (fold_left (fun props kv => set_property (fst kv) (snd kv) props) entries acc)
              (acc ++ entries).
Proof.
  revert acc. induction entries as [|[k v] entries IH]; intros acc Hnd; simpl.
  - now rewrite app_nil_r.
  - assert (Hk : assoc k acc = None).
    { apply assoc_None_keys. intros Hin.
      apply List.NoDup_remove_2 in Hnd. apply Hnd, in_or_app. now left. }
    assert (Hacc : Permutation (set_property k v acc) ((k, v) :: acc)).
    { unfold set_property. rewrite Hk. apply define_property_Permutation. }
    rewrite IH.
    + rewrite Hacc. simpl. apply Permutation_middle.
    + apply (Permutation_NoDup (l := (map fst acc ++ k :: map fst entries)%list)); [|exact Hnd].
      rewrite (Permutation_map fst Hacc). simpl. symmetry. apply Permutation_middle.
Qed.

Lemma Object_fromEntries_values (entries : list (string * value)) :
  List.NoDup (map fst entries) ->
  exists props, Object_fromEntries entries = VObj props /\
                Permutation (map snd props) (map snd entries).
Proof.
  intros Hnd. eexists; split; [reflexivity|].
  apply Permutation_map. apply (fromEntries_Permutation entries []). exact Hnd.
Qed.

Lemma sectionChecklist_entries (items : list ChecklistItem) (checklist : ChecklistAdherence) :
  exists entries,
    sectionChecklist items checklist = Normal (Object_fromEntries entries) /\
    map fst entries = ids items /\
    map (fun kv => Boolean (snd kv)) entries = map (ticked checklist) items.
Proof.
  unfold sectionChecklist.
  assert (G : exists entries,
            mapM (fun item =>
                    let* v := get (adherence_object checklist) (UseChecklist.id item) in
                    Normal (UseChecklist.id item, js_or v (VBool false))) items = Normal entries /\
            map fst entries = ids items /\
            map (fun kv => Boolean (snd kv)) entries = map (ticked checklist) items).
  { induction items as [|item items (entries & E & K & B)].
    - exists []. repeat split.
    - cbn [mapM]. rewrite E.
      assert (Hget : exists v,
                get (adherence_object checklist) (UseChecklist.id item) = Normal v /\
                Boolean (js_or v (VBool false)) = ticked checklist item).
      { unfold get, ticked.
        change (match adherence_object checklist with
                | VUndef | VNull => Throw TypeError
                | _ => match own_property (adherence_object checklist) (UseChecklist.id item) with
                       | Some x => Normal x
                       | None => Normal (if inherited (adherence_object checklist)
                                                (UseChecklist.id item)
                                         then VNative (UseChecklist.id item) else VUndef)
                       end
                end)
          with (match own_property (adherence_object checklist) (UseChecklist.id item) with
                | Some x => Normal x
                | None => Normal (if mem (UseChecklist.id item) Object_prototype
                                  then VNative (UseChecklist.id item) else VUndef)
                end).
        rewrite own_property_adherence_object.
        destruct (checklist !! UseChecklist.id item) as [[|]|]; cbn [option_map].
        - eexists; split; reflexivity.
        - eexists; split; reflexivity.
        - destruct (mem (UseChecklist.id item) Object_prototype); eexists; split; reflexivity. }
      destruct Hget as (v & -> & Hv). cbn [bind].
      exists ((UseChecklist.id item, js_or v (VBool false)) :: entries).
      split; [reflexivity|]. cbn [map fst snd ids]. fold (ids items).
      now rewrite K, B, Hv. }
  destruct G as (entries & -> & K & B). exists entries. now repeat split.
Qed.

Lemma sectionScore_tally (items : list ChecklistItem) (checklist : ChecklistAdherence) :
  List.NoDup (ids items) ->
  (let* section := sectionChecklist items checklist in calculateAdherenceScore section) =
    Normal (if (length items =? 0)%nat then Fin 0
            else ratio100 (length (List.filter (ticked checklist) items)) (length items)).
Proof.
  intros Hnd.
  destruct (sectionChecklist_entries items checklist) as (entries & -> & K & B).
  cbn [bind]. rewrite <- K in Hnd.
  destruct (Object_fromEntries_values entries Hnd) as (props & -> & P).
  rewrite (calculateAdherenceScore_values (VObj props) (map snd props) eq_refl).
  assert (L : length (map snd props) = length items).
  { rewrite (Permutation_length P), length_map.
    rewrite <- (length_map fst entries), K. apply length_map. }
  assert (F : length (List.filter Boolean (map snd props)) =
              length (List.filter (ticked checklist) items)).
  { rewrite (Permutation_length (filter_Permutation' Boolean _ _ P)).
    clear -B. revert items B. induction entries as [|[k v] entries IH]; intros [|item items] B;
      try discriminate; [reflexivity|].
    simpl in B. injection B as Hv B. simpl. rewrite <- Hv.
    destruct (Boolean v); simpl; now rewrite (IH items B). }
  rewrite F. destruct (map snd props) as [|x xs] eqn:E.
  - simpl in L. rewrite <- L. reflexivity.
  - rewrite L. destruct items; [discriminate|reflexivity].
Qed.

(** X9: the score of a section of the checklist form, pre-trade or
    post-trade, is the percentage of the section's items that are ticked
    (0 for a section without items), whatever other entries the adherence
    map of the trade holds; the ids of the items are taken to be pairwise
    distinct.  An item without an entry counts as not ticked, unless its id
    names a member that every object inherits. *)
Theorem sectionScore_counts_configured_items
    (JSON_parse : string -> completion value) (items : list ChecklistItem)
    (checklist : ChecklistAdherence)
    (Hids : List.NoDup (ids items)) :
  let hook := useChecklist JSON_parse items in
  let percentage (section : list ChecklistItem) :=
    if (length section =? 0)%nat then Fin 0
    else ratio100 (length (List.filter (ticked checklist) section)) (length section) in
  preTradeScore hook checklist = Normal (percentage (preTradeItems hook)) /\
  postTradeScore hook checklist = Normal (percentage (postTradeItems hook)) /\
  (forall item,
     mem (UseChecklist.id item) Object_prototype = false ->
     ticked checklist item = true <-> checklist !! UseChecklist.id item = Some true).
Proof.
  cbv zeta. unfold preTradeScore, postTradeScore.
  cbn [hook_calculateAdherenceScore preTradeItems postTradeItems useChecklist].
  assert (Sub : forall p, List.NoDup (ids (List.filter p items))).
  { intros p. clear -Hids. induction items as [|x l IH]; [constructor|].
    simpl in Hids. inversion Hids as [|? ? Hx Hl]; subst.
    simpl. destruct (p x); [|now apply IH].
    simpl. constructor; [|now apply IH].
    intros Hin. apply Hx. unfold ids in *. apply in_map_iff in Hin as (y & E & Hy).
    apply in_map_iff. exists y. split; [assumption|]. now apply filter_In in Hy. }
  split; [apply sectionScore_tally, Sub|]. split; [apply sectionScore_tally, Sub|].
  intros item Hm. unfold ticked. rewrite Hm.
  destruct (checklist !! UseChecklist.id item) as [[|]|]; split; congruence.
Qed.

Lemma sectionScore_counts_configured_items_witness :
  preTradeScore (useChecklist one_envelope example_items) {["X" := true; "stale" := false]} =
    Normal (Fin 100) /\
  postTradeScore (useChecklist one_envelope example_items) {["X" := true; "stale" := false]} =
    Normal (Fin 0).
Proof.
  assert (Hids : List.NoDup (ids example_items)).
  { apply NoDup_ListNoDup. apply (bool_decide_unpack _). vm_compute. exact I. }
  pose proof (sectionScore_counts_configured_items one_envelope example_items
                {["X" := true; "stale" := false]} Hids) as (Hpre & Hpost & _).
  split.
  - rewrite Hpre. vm_compute. reflexivity.
  - rewrite Hpost. vm_compute. reflexivity.
Defined.

(** ** Objects as accumulators *)

Lemma assoc_In_keys {A} (k : string) (v : A) (props : list (string * A)) :
  assoc k props = Some v -> In k (map fst props).
Proof.
  intros H. destruct (in_dec string_dec k (map fst props)) as [i|n]; [exact i|].
  apply assoc_None_keys in n. congruence.
Qed.

Lemma define_property_keys {A} (k : string) (v : A) (props : list (string * A)) :
  Permutation (map fst (define_property k v props)) (k :: map fst props).
Proof. apply (Permutation_map fst (define_property_Permutation k v props)). Qed.

Lemma update_property_Forall_key {A} (P : A -> Prop) (k : string) (f : A -> A)
    (props : list (string * A)) :
  (forall v, P (f v)) ->
  List.NoDup (map fst props) ->
  Forall (fun kv => fst kv <> k -> P (snd kv)) props ->
  Forall (fun kv => P (snd kv)) (update_property k f props).
Proof.
  intros Hf. induction props as [|[k' v] props IH]; intros Hnd Hall; simpl; [constructor|].
  inversion Hnd as [|? ? Hk' Hnd']; subst. inversion Hall as [|? ? Hv Hall']; subst.
  destruct (String.eqb_spec k k') as [<-|Hne].
  - constructor; [apply Hf|].
    apply List.Forall_forall. intros [k'' v''] Hin. rewrite List.Forall_forall in Hall'.
    apply (Hall' _ Hin). simpl. intros ->. apply Hk'. apply in_map_iff. now exists (k, v'').
  - constructor; [apply Hv; simpl; congruence | now apply IH].
Qed.

Lemma update_property_length {A} (k : string) (f : A -> A) (props : list (string * A)) :
  length (update_property k f props) = length props.
Proof.
  rewrite <- (length_map fst (update_property k f props)), update_property_keys.
  apply length_map.
Qed.

(** ** The weekly buckets and the figures under the chart *)

Lemma update_bucket_count (k : string) (f : Week -> Week) (props : list (string * Week)) :
  (forall w, TradeFrequencyChart.trades (f w) = S (TradeFrequencyChart.trades w)) ->
  In k (map fst props) ->
  trades_counted (map snd (update_property k f props)) = S (trades_counted (map snd props)).
Proof.
  intros Hf. unfold trades_counted.
  induction props as [|[k' w] props IH]; simpl; [tauto|].
  intros Hin. destruct (String.eqb_spec k k') as [->|Hne]; simpl.
  - now rewrite Hf.
  - rewrite IH; [lia|]. destruct Hin as [E|Hin]; [congruence | assumption].
Qed.

Lemma addTrade_invariant (tz : Z) (acc acc' : list (string * Week)) (t : Trade) :
  TradeFrequencyChart.addTrade tz acc t = Normal acc' ->
  List.NoDup (map fst acc) -> Forall (fun kw => bucket_ok (snd kw)) acc ->
  List.NoDup (map fst acc') /\ Forall (fun kw => bucket_ok (snd kw)) acc' /\
  trades_counted (map snd acc') = S (trades_counted (map snd acc)) /\
  (length acc <= length acc' <= S (length acc))%nat.
Proof.
  unfold TradeFrequencyChart.addTrade.
  destruct (weekOf tz (Schema.tradeDate t)) as [[weekKey weekLabel]|e]; [|discriminate].
  cbn [bind]. cbv zeta. intros H Hnd Hok. injection H as <-.
  set (fresh := {| week := weekLabel; TradeFrequencyChart.trades := 0; totalVolume := Fin 0;
                   TradeFrequencyChart.avgPnL := Fin 0; pnlSum := Fin 0 |}).
  set (acc1 := match assoc weekKey acc with
               | Some _ => acc
               | None => define_property weekKey fresh acc
               end).
  assert (H1 : List.NoDup (map fst acc1) /\ In weekKey (map fst acc1) /\
               Forall (fun kw => fst kw <> weekKey -> bucket_ok (snd kw)) acc1 /\
               trades_counted (map snd acc1) = trades_counted (map snd acc) /\
               (length acc <= length acc1 <= S (length acc))%nat).
  { unfold acc1. destruct (assoc weekKey acc) as [w|] eqn:E.
    - repeat split; try assumption; try lia.
      + now apply assoc_In_keys in E.
      + apply List.Forall_forall. intros kw Hin _. rewrite List.Forall_forall in Hok. now apply Hok.
    - pose proof (define_property_Permutation weekKey fresh acc) as P.
      repeat split.
      + apply (Permutation_NoDup (l := weekKey :: map fst acc)).
        * symmetry. apply (Permutation_map fst P).
        * constructor; [now apply assoc_None_keys | assumption].
      + apply (Permutation_in _ (Permutation_sym (Permutation_map fst P))). now left.
      + apply List.Forall_forall. intros kw Hin Hne.
        apply (Permutation_in _ P) in Hin. destruct Hin as [<-|Hin]; [now contradiction Hne|].
        rewrite List.Forall_forall in Hok. now apply Hok.
      + unfold trades_counted.
        rewrite (Permutation_map TradeFrequencyChart.trades (Permutation_map snd P)).
        reflexivity.
      + rewrite (Permutation_length P). simpl. lia.
      + rewrite (Permutation_length P). simpl. lia. }
  destruct H1 as (Hnd1 & Hin1 & Hok1 & Hcount & Hlen).
  repeat split.
  - now rewrite (update_property_keys weekKey _ acc1).
  - apply (update_property_Forall_key bucket_ok); [|assumption|assumption].
    intros w. unfold bucket_ok. cbn. split; [lia | reflexivity].
  - rewrite update_bucket_count; [now rewrite Hcount | reflexivity | assumption].
  - rewrite update_property_length. lia.
  - rewrite update_property_length. lia.
Qed.

Lemma list_sum_Permutation (l l' : list nat) : Permutation l l' -> list_sum l = list_sum l'.
Proof. induction 1; simpl; lia. Qed.

Lemma reduce_addTrade_invariant (tz : Z) (l : list Trade) (acc acc' : list (string * Week)) :
  reduce (TradeFrequencyChart.addTrade tz) l acc = Normal acc' ->
  List.NoDup (map fst acc) -> Forall (fun kw => bucket_ok (snd kw)) acc ->
  List.NoDup (map fst acc') /\ Forall (fun kw => bucket_ok (snd kw)) acc' /\
  trades_counted (map snd acc') = (trades_counted (map snd acc) + length l)%nat /\
  (length acc' <= length acc + length l)%nat.
Proof.
  revert acc. induction l as [|t l IH]; intros acc; simpl.
  - intros H. injection H as <-. repeat split; try assumption; lia.
  - destruct (TradeFrequencyChart.addTrade tz acc t) as [acc1|e] eqn:E; [|discriminate].
    cbn [bind]. intros H Hnd Hok.
    destruct (addTrade_invariant tz acc acc1 t E Hnd Hok) as (Hnd1 & Hok1 & Hc1 & Hl1).
    destruct (IH acc1 H Hnd1 Hok1) as (Hnd' & Hok' & Hc' & Hl').
    repeat split; try assumption; lia.
Qed.

Lemma addTrade_returns (tz : Z) (acc : list (string * Week)) (t : Trade) :
  is_calendar_date (Schema.tradeDate t) = true ->
  exists acc', TradeFrequencyChart.addTrade tz acc t = Normal acc'.
Proof.
  unfold is_calendar_date, TradeFrequencyChart.addTrade, weekOf, JSDate.new_Date_local_midnight.
  destruct (JSDate.parse_ymd (Schema.tradeDate t)) as [[[y m] d]|]; [|discriminate].
  intros _. cbn [bind]. eexists. reflexivity.
Qed.

Lemma reduce_addTrade_returns (tz : Z) (l : list Trade) (acc : list (string * Week)) :
  Forall (fun t => is_calendar_date (Schema.tradeDate t) = true) l ->
  exists acc', reduce (TradeFrequencyChart.addTrade tz) l acc = Normal acc'.
Proof.
  intros H. revert acc. induction H as [|t l Ht _ IH]; intros acc; cbn [reduce].
  - eexists. reflexivity.
  - destruct (addTrade_returns tz acc t Ht) as (acc1 & ->). cbn [bind]. apply IH.
Qed.

Lemma weeklyData_invariant (tz : Z) (trades : list Trade) (strategies : list Strategy)
    (buckets : list (string * Week)) :
  weeklyData tz trades strategies = Normal buckets ->
  Forall (fun kw => bucket_ok (snd kw)) buckets /\
  List.NoDup (map fst buckets) /\
  trades_counted (map snd buckets) = length (getActiveStrategyTrades trades strategies) /\
  (length buckets <= length (getActiveStrategyTrades trades strategies))%nat.
Proof.
  intros Hdata. unfold weeklyData in Hdata.
  destruct (reduce_addTrade_invariant tz _ [] buckets Hdata) as (Hnd & Hok & Hc & Hl);
    [constructor | constructor |].
  repeat split; assumption.
Qed.

(** X10: the weekly buckets.  When the date of every active trade is
    a calendar date, they are computed (nothing is thrown); every bucket
    holds at least one trade and its average is its sum over its count;
    no two buckets share a key; the buckets together count every active
    trade once. *)
Theorem weeklyData_buckets (tz : Z) (trades : list Trade) (strategies : list Strategy)
    (Hdates : Forall (fun t => is_calendar_date (Schema.tradeDate t) = true)
                (getActiveStrategyTrades trades strategies)) :
  exists buckets,
    weeklyData tz trades strategies = Normal buckets /\
    Forall (fun kw => bucket_ok (snd kw)) buckets /\
    List.NoDup (map fst buckets) /\
    trades_counted (map snd buckets) = length (getActiveStrategyTrades trades strategies) /\
    (length buckets <= length (getActiveStrategyTrades trades strategies))%nat.
Proof.
  destruct (reduce_addTrade_returns tz _ [] Hdates) as (buckets & Hdata).
  exists buckets. split; [exact Hdata|].
  now apply (weeklyData_invariant tz trades strategies).
Qed.

Lemma weeklyData_buckets_witness :
  exists buckets,
    weeklyData 330 week_trades [] = Normal buckets /\
    Forall (fun kw => bucket_ok (snd kw)) buckets /\
    List.NoDup (map fst buckets) /\
    trades_counted (map snd buckets) = length (getActiveStrategyTrades week_trades []) /\
    (length buckets <= length (getActiveStrategyTrades week_trades []))%nat.
Proof.
  apply (weeklyData_buckets 330 week_trades []).
  Forall_by_evaluation.
Defined.

Lemma In_slice_last {A} (n : nat) (l : list A) (x : A) : In x (slice_last n l) -> In x l.
Proof.
  unfold slice_last. intros H. rewrite <- (firstn_skipn (length l - n) l).
  apply in_or_app. now right.
Qed.

Lemma ratio100_all (n : nat) : (0 < n)%nat -> ratio100 n n = Fin 100.
Proof.
  intros H. rewrite (ratio100_value n n H). f_equal.
  change 100%Q with (Qred 100). apply Qred_complete.
  rewrite Qred_correct.
  assert (L : (0 < inject_Z (Z.of_nat n))%Q)
    by (change 0%Q with (inject_Z 0); rewrite <- Zlt_Qlt; lia).
  unfold Qdiv. rewrite Qmult_inv_r; [reflexivity|].
  intros E. rewrite E in L. now apply Qlt_irrefl in L.
Qed.

(** X11: when the date of every active trade is a calendar date, the
    chart of the trading frequency is computed (nothing is thrown); it
    shows at most twelve weeks, each of them a bucket with a trade in it,
    so the figure "Consistency" under a chart with a week in it is 100
    whatever the trades are. *)
Theorem consistency_is_always_100 (tz : Z) (legacy_parse : string -> number)
    (trades : list Trade) (strategies : list Strategy)
    (Hdates : Forall (fun t => is_calendar_date (Schema.tradeDate t) = true)
                (getActiveStrategyTrades trades strategies)) :
  exists weeks,
    TradeFrequencyChart.chartData tz legacy_parse trades strategies = Normal weeks /\
    (length weeks <= 12)%nat /\
    Forall bucket_ok weeks /\
    (weeks <> [] -> consistency weeks = Fin 100).
Proof.
  destruct (reduce_addTrade_returns tz _ [] Hdates) as (buckets & Hdata).
  unfold TradeFrequencyChart.chartData.
  destruct (weeklyData_invariant tz trades strategies buckets Hdata) as (Hok & _).
  unfold weeklyData at 1. rewrite Hdata. cbn [bind].
  set (sorted := Array_sort (byWeekLabel legacy_parse) (map snd buckets)).
  exists (slice_last 12 sorted). split; [reflexivity|].
  assert (Hall : Forall bucket_ok (slice_last 12 sorted)).
  { apply List.Forall_forall. intros w Hw. apply In_slice_last in Hw.
    apply (proj1 (Array_sort_In _ _ w)) in Hw. apply in_map_iff in Hw as (kw & <- & Hkw).
    rewrite List.Forall_forall in Hok. now apply Hok. }
  split; [|split; [exact Hall|]].
  - unfold slice_last. rewrite length_skipn. lia.
  - intros Hne. unfold consistency.
    replace (List.filter (fun week => (0 <? TradeFrequencyChart.trades week)%nat)
               (slice_last 12 sorted)) with (slice_last 12 sorted).
    + apply ratio100_all. destruct (slice_last 12 sorted); [congruence | simpl; lia].
    + symmetry. apply forallb_filter_id. apply forallb_forall. intros w Hw.
      rewrite List.Forall_forall in Hall. destruct (Hall w Hw) as [H1 _].
      apply Nat.ltb_lt. lia.
Qed.

Lemma consistency_is_always_100_witness :
  exists weeks,
    TradeFrequencyChart.chartData 330 no_legacy week_trades [] = Normal weeks /\
    (length weeks <= 12)%nat /\
    Forall bucket_ok weeks /\
    (weeks <> [] -> consistency weeks = Fin 100).
Proof.
  apply (consistency_is_always_100 330 no_legacy week_trades []).
  Forall_by_evaluation.
Defined.

(** ** Reading an accumulator after it was written *)

Lemma assoc_update_property {A} (k k' : string) (f : A -> A) (props : list (string * A)) :
  assoc k (update_property k' f props) =
    if (k =? k')%string then option_map f (assoc k props) else assoc k props.
Proof.
  induction props as [|[k'' v] props IH]; simpl.
  - now destruct (k =? k')%string.
  - destruct (String.eqb_spec k' k'') as [<-|Hne]; simpl.
    + destruct (String.eqb_spec k k') as [->|Hne']; [reflexivity|].
      reflexivity.
    + rewrite IH. destruct (String.eqb_spec k k'') as [->|Hne'].
      * destruct (String.eqb_spec k'' k') as [E|_]; [congruence | reflexivity].
      * reflexivity.
Qed.

Lemma assoc_app {A} (k : string) (l l' : list (string * A)) :
  assoc k (l ++ l') = match assoc k l with Some v => Some v | None => assoc k l' end.
Proof.
  induction l as [|[k' v] l IH]; simpl; [reflexivity|].
  destruct (k =? k')%string; [reflexivity | exact IH].
Qed.

Lemma assoc_insert_index {A} (i : N) (k k' : string) (v : A) (props : list (string * A)) :
  assoc k' props = None ->
  assoc k (insert_index i k' v props) = if (k =? k')%string then Some v else assoc k props.
Proof.
  induction props as [|[k'' v''] props IH]; simpl; [reflexivity|].
  destruct (String.eqb_spec k' k'') as [->|Hne]; [discriminate|]. intros Hnone.
  destruct (array_index k'') as [j|].
  - destruct (i <? j)%N; simpl.
    + reflexivity.
    + rewrite (IH Hnone). destruct (String.eqb_spec k k'') as [->|_].
      * destruct (String.eqb_spec k'' k') as [E|_]; [congruence | reflexivity].
      * reflexivity.
  - reflexivity.
Qed.

Lemma assoc_define_property {A} (k k' : string) (v : A) (props : list (string * A)) :
  assoc k' props = None ->
  assoc k (define_property k' v props) = if (k =? k')%string then Some v else assoc k props.
Proof.
  intros H. unfold define_property. destruct (array_index k').
  - now apply assoc_insert_index.
  - rewrite assoc_app. simpl. destruct (String.eqb_spec k k') as [->|_].
    + now rewrite H.
    + now destruct (assoc k props).
Qed.

Lemma assoc_set_property {A} (k k' : string) (v : A) (props : list (string * A)) :
  assoc k (set_property k' v props) = if (k =? k')%string then Some v else assoc k props.
Proof.
  unfold set_property. destruct (assoc k' props) as [w|] eqn:E.
  - rewrite assoc_update_property. destruct (String.eqb_spec k k') as [->|_]; [|reflexivity].
    now rewrite E.
  - now apply assoc_define_property.
Qed.

Lemma set_property_keys {A} (k : string) (v : A) (props : list (string * A)) :
  List.NoDup (map fst props) ->
  List.NoDup (map fst (set_property k v props)) /\
  (forall k', In k' (map fst (set_property k v props)) <-> k' = k \/ In k' (map fst props)).
Proof.
  intros Hnd. unfold set_property. destruct (assoc k props) as [w|] eqn:E.
  - rewrite update_property_keys. split; [assumption|].
    intros k'. split; [tauto|]. intros [->|H]; [|assumption]. now apply assoc_In_keys in E.
  - pose proof (define_property_keys k v props) as P. split.
    + apply (Permutation_NoDup (Permutation_sym P)).
      constructor; [now apply assoc_None_keys | assumption].
    + intros k'. split; intros H.
      * apply (Permutation_in _ P) in H. destruct H as [<-|H]; [now left | now right].
      * apply (Permutation_in _ (Permutation_sym P)). destruct H as [->|H]; [now left | now right].
Qed.

(** ** The daily totals of the profit-and-loss chart *)

Section PnLChartFacts.
Import PnLChart.

Lemma ordinary_not_proto (date : string) :
  mem date Object_prototype = false -> (date =? "__proto__")%string = false.
Proof.
  intros H. destruct (String.eqb_spec date "__proto__") as [->|]; [discriminate H | reflexivity].
Qed.

Lemma addTrade_same_day (acc : list (string * Total)) (t : Trade) :
  mem (Schema.tradeDate t) Object_prototype = false ->
  no_text_at acc (Schema.tradeDate t) ->
  assoc (Schema.tradeDate t) (PnLChart.addTrade acc t) =
    Some (Amount (num_add (restart (stands_at acc (Schema.tradeDate t))) (pnl_read t))).
Proof.
  intros Hm Hnt. unfold PnLChart.addTrade, read, write, stands_at, no_text_at in *.
  cbv zeta. rewrite Hm, (ordinary_not_proto _ Hm). fold (pnl_read t).
  destruct (assoc (Schema.tradeDate t) acc) as [[n|]|] eqn:E; [| congruence |].
  - unfold falsy, restart. destruct (Boolean (VNum n)); cbn [negb].
    + rewrite E. rewrite assoc_set_property, String.eqb_refl. reflexivity.
    + repeat (rewrite ?assoc_set_property, ?String.eqb_refl; cbn [plus]). reflexivity.
  - cbn [falsy]. repeat (rewrite ?assoc_set_property, ?String.eqb_refl; cbn [plus]).
    reflexivity.
Qed.

Lemma addTrade_other_day (acc : list (string * Total)) (t : Trade) (date : string) :
  Schema.tradeDate t <> date ->
  assoc date (PnLChart.addTrade acc t) = assoc date acc.
Proof.
  intros Hne. apply String.eqb_neq in Hne. rewrite String.eqb_sym in Hne.
  unfold PnLChart.addTrade, write. cbv zeta.
  destruct (Schema.tradeDate t =? "__proto__")%string.
  - now destruct (falsy _).
  - rewrite assoc_set_property, Hne. destruct (falsy _); [|reflexivity].
    now rewrite assoc_set_property, Hne.
Qed.

Lemma fold_addTrade_day (l : list Trade) (acc : list (string * Total)) (date : string) :
  mem date Object_prototype = false ->
  no_text_at acc date ->
  assoc date (fold_left PnLChart.addTrade l acc) =
    match pnls_on date l with
    | [] => assoc date acc
    | _ :: _ => Some (Amount (running_total (pnls_on date l) (stands_at acc date)))
    end.
Proof.
  intros Hm. revert acc. induction l as [|t l IH]; intros acc Hnt; [reflexivity|].
  cbn [fold_left].
  destruct (String.eqb_spec (Schema.tradeDate t) date) as [E|Hne].
  - assert (Hp : pnls_on date (t :: l) = pnl_read t :: pnls_on date l).
    { unfold pnls_on, trades_on. cbn [List.filter]. rewrite E, String.eqb_refl. reflexivity. }
    rewrite Hp. subst date. pose proof (addTrade_same_day acc t Hm Hnt) as Hs.
    rewrite IH by (unfold no_text_at; rewrite Hs; discriminate).
    unfold running_total. cbn [fold_left].
    unfold stands_at at 1. rewrite Hs.
    destruct (pnls_on (Schema.tradeDate t) l); rewrite ?Hs; reflexivity.
  - assert (Hp : pnls_on date (t :: l) = pnls_on date l).
    { unfold pnls_on, trades_on. cbn [List.filter].
      apply String.eqb_neq in Hne. now rewrite Hne. }
    rewrite Hp. pose proof (addTrade_other_day acc t date Hne) as Ho.
    rewrite IH by (unfold no_text_at; now rewrite Ho).
    unfold stands_at. rewrite Ho. reflexivity.
Qed.

Lemma num_add_NaN_r (a : number) : num_add a NaN = NaN.
Proof. now destruct a. Qed.

Lemma Qred_zero (x : Q) : (Qred x == 0)%Q -> Qred x = 0%Q.
Proof.
  intros H. pose proof (gcd_Qred x) as G.
  destruct (Qred x) as [a b]. unfold Qeq in H. simpl in H, G.
  assert (a = 0) by lia. subst a. simpl in G. injection G as ->. reflexivity.
Qed.

Lemma restart_reduced (x : Q) : restart (Fin (Qred x)) = Fin (Qred x).
Proof.
  unfold restart. cbn [Boolean]. destruct (Qeq_bool (Qred x) 0) eqn:E; [|reflexivity].
  cbn [negb]. apply Qeq_bool_iff in E. now rewrite (Qred_zero x E).
Qed.

Lemma running_total_finite (ps : list number) (x : Q) :
  Forall (fun p => is_finite p = true) ps ->
  running_total ps (Fin (Qred x)) = fold_left num_add ps (Fin (Qred x)).
Proof.
  intros H. revert x. induction H as [|p ps Hp _ IH]; intros x; [reflexivity|].
  unfold running_total in *. cbn [fold_left]. rewrite restart_reduced.
  destruct p as [ | | |q]; try discriminate. cbn [num_add]. apply IH.
Qed.

Lemma pnls_on_app (date : string) (l l' : list Trade) :
  pnls_on date (l ++ l') = (pnls_on date l ++ pnls_on date l')%list.
Proof. unfold pnls_on, trades_on. now rewrite List.filter_app, map_app. Qed.

(** X12: the daily total of the profit-and-loss chart is the sum of what
    the active trades of the day made or lost, when each of these figures
    parses to a finite number; a day without active trade has no member.
    The date is taken not to be the name of a member of
    [Object.prototype]. *)
Theorem dailyData_sums_the_day (trades : list Trade) (strategies : list Strategy)
    (date : string)
    (Hdate : mem date Object_prototype = false)
    (Hfinite : Forall (fun p => is_finite p = true)
                 (pnls_on date (getActiveStrategyTrades trades strategies))) :
  assoc date (dailyData trades strategies) =
    match pnls_on date (getActiveStrategyTrades trades strategies) with
    | [] => None
    | _ :: _ => Some (Amount (sum (pnls_on date (getActiveStrategyTrades trades strategies))))
    end.
Proof.
  unfold dailyData. rewrite (fold_addTrade_day _ [] date Hdate) by discriminate.
  destruct (pnls_on date (getActiveStrategyTrades trades strategies)) as [|p ps] eqn:E;
    [reflexivity|].
  unfold stands_at. cbn [assoc]. do 2 f_equal.
  change (Fin 0) with (Fin (Qred 0)). now apply running_total_finite.
Qed.

Lemma dailyData_sums_the_day_witness :
  assoc "2024-03-04" (dailyData day_trades []) = Some (Amount (Fin 6)).
Proof.
  refine (eq_trans (dailyData_sums_the_day day_trades [] "2024-03-04" _ _) _).
  - vm_compute. reflexivity.
  - Forall_by_evaluation.
  - vm_compute. reflexivity.
Defined.

(** X13: a profit/loss that does not parse makes the total of its day
    [NaN], and the next trade of the day starts the total again from 0:
    the day then shows what the trades after the unparsed one give on their
    own, and the trades before it are lost from the total. *)
Theorem dailyData_restarts_after_unparsed (trades : list Trade) (strategies : list Strategy)
    (before after : list Trade) (bad : Trade)
    (Hactive : getActiveStrategyTrades trades strategies = (before ++ bad :: after)%list)
    (Hdate : mem (Schema.tradeDate bad) Object_prototype = false)
    (Hbad : pnl_read bad = NaN) :
  assoc (Schema.tradeDate bad) (dailyData trades strategies) =
    match pnls_on (Schema.tradeDate bad) after with
    | [] => Some (Amount NaN)
    | _ :: _ => assoc (Schema.tradeDate bad) (dailyData after [])
    end.
Proof.
  unfold dailyData. rewrite Hactive. cbn [getActiveStrategyTrades].
  rewrite !(fold_addTrade_day _ [] _ Hdate) by discriminate.
  rewrite pnls_on_app.
  assert (Hb : pnls_on (Schema.tradeDate bad) (bad :: after) =
               NaN :: pnls_on (Schema.tradeDate bad) after).
  { unfold pnls_on, trades_on. cbn [List.filter]. rewrite String.eqb_refl. cbn [map].
    now rewrite Hbad. }
  rewrite Hb.
  destruct (pnls_on (Schema.tradeDate bad) before ++
            NaN :: pnls_on (Schema.tradeDate bad) after)%list eqn:E;
    [now destruct (pnls_on (Schema.tradeDate bad) before)|].
  rewrite <- E. unfold running_total. rewrite fold_left_app. cbn [fold_left].
  rewrite num_add_NaN_r.
  destruct (pnls_on (Schema.tradeDate bad) after) as [|q qs]; reflexivity.
Qed.

Lemma dailyData_restarts_after_unparsed_witness :
  assoc "2024-03-04" (dailyData unparsed_day []) = Some (Amount (Fin 5)).
Proof.
  refine (eq_trans
            (dailyData_restarts_after_unparsed unparsed_day []
               [dated_trade "2024-03-04" "10"] [dated_trade "2024-03-04" "5"] unparsed_trade
               _ _ _) _);
    vm_compute; reflexivity.
Defined.

(** ** The order of the bars *)

Lemma mem_In (k : string) (l : list string) : mem k l = true -> In k l.
Proof.
  unfold mem. rewrite existsb_exists. intros (x & Hx & E).
  apply String.eqb_eq in E. now subst.
Qed.

Lemma calendar_date_ordinary (date : string) :
  is_calendar_date date = true -> mem date Object_prototype = false.
Proof.
  intros H. destruct (mem date Object_prototype) eqn:E; [|reflexivity].
  apply mem_In in E. unfold Object_prototype in E. simpl in E.
  repeat (destruct E as [<-|E]; [vm_compute in H; discriminate|]). contradiction.
Qed.

Lemma addTrade_keys (acc : list (string * Total)) (t : Trade) :
  List.NoDup (map fst acc) ->
  List.NoDup (map fst (PnLChart.addTrade acc t)) /\
  (forall k, In k (map fst (PnLChart.addTrade acc t)) ->
             k = Schema.tradeDate t \/ In k (map fst acc)).
Proof.
  intros Hnd. unfold PnLChart.addTrade, write. cbv zeta.
  destruct (Schema.tradeDate t =? "__proto__")%string.
  - destruct (falsy _); split; auto.
  - set (acc1 := if falsy (read acc (Schema.tradeDate t))
                 then set_property (Schema.tradeDate t) (Amount (Fin 0)) acc else acc).
    assert (H1 : List.NoDup (map fst acc1) /\
                 forall k, In k (map fst acc1) -> k = Schema.tradeDate t \/ In k (map fst acc)).
    { unfold acc1. destruct (falsy _); [|split; auto].
      destruct (set_property_keys (Schema.tradeDate t) (Amount (Fin 0)) acc Hnd) as [N K].
      split; [exact N|]. intros k Hk. now apply K. }
    destruct H1 as [N1 K1].
    destruct (set_property_keys (Schema.tradeDate t)
                (plus (read acc1 (Schema.tradeDate t)) (parseFloat (text_or_zero (profitLoss t))))
                acc1 N1) as [N K].
    split; [exact N|]. intros k Hk. apply K in Hk. destruct Hk as [->|Hk]; [now left|].
    now apply K1.
Qed.

Lemma dailyData_keys (trades : list Trade) (strategies : list Strategy) :
  List.NoDup (map fst (dailyData trades strategies)) /\
  (forall k, In k (map fst (dailyData trades strategies)) ->
             exists t, In t (getActiveStrategyTrades trades strategies) /\ Schema.tradeDate t = k).
Proof.
  unfold dailyData.
  assert (G : forall l acc, List.NoDup (map fst acc) ->
                List.NoDup (map fst (fold_left PnLChart.addTrade l acc)) /\
                (forall k, In k (map fst (fold_left PnLChart.addTrade l acc)) ->
                           In k (map fst acc) \/ exists t, In t l /\ Schema.tradeDate t = k)).
  { induction l as [|t l IH]; intros acc Hnd; simpl; [split; auto|].
    destruct (addTrade_keys acc t Hnd) as [N K].
    destruct (IH _ N) as [N' K']. split; [exact N'|].
    intros k Hk. apply K' in Hk. destruct Hk as [Hk|(u & Hu & E)].
    - apply K in Hk. destruct Hk as [->|Hk]; [right; exists t; split; [now left | reflexivity]|].
      now left.
    - right. exists u. split; [now right | assumption]. }
  destruct (G (getActiveStrategyTrades trades strategies) [] (List.NoDup_nil _)) as [N K].
  split; [exact N|]. intros k Hk. apply K in Hk. destruct Hk as [[]|H]. exact H.
Qed.

Lemma StronglySorted_app_order {A} (R : A -> A -> Prop) (l1 l2 : list A) :
  StronglySorted R (l1 ++ l2) ->
  StronglySorted R l2 /\ forall x y, In x l1 -> In y l2 -> R x y.
Proof.
  induction l1 as [|a l1 IH]; simpl; intros H; [split; [assumption | intros x y []]|].
  inversion H as [|? ? Hs Hall]; subst. destruct (IH Hs) as [S2 O].
  split; [exact S2|]. intros x y [<-|Hx] Hy.
  - rewrite List.Forall_forall in Hall. apply Hall. apply in_or_app. now right.
  - now apply O.
Qed.

Lemma getTime_calendar_date (legacy_parse : string -> number) (date : string) :
  is_calendar_date date = true ->
  JSDate.new_Date_getTime legacy_parse date = numZ (day_of date * JSDate.msPerDay).
Proof.
  unfold is_calendar_date, JSDate.new_Date_getTime, day_of.
  destruct (JSDate.parse_ymd date) as [[[y m] d]|]; [reflexivity | discriminate].
Qed.

(** X14: the profit-and-loss chart shows at most thirty bars, one per
    trade date and no date twice, in ascending order of the dates, and
    they are the latest days: a day with a trade that is not shown is not
    later than any day shown.  The dates of the active trades are taken to
    be calendar dates. *)
Theorem pnl_chartData_latest_days_in_order (tz : Z) (legacy_parse : string -> number)
    (trades : list Trade) (strategies : list Strategy)
    (Hdates : Forall (fun t => is_calendar_date (Schema.tradeDate t) = true)
                (getActiveStrategyTrades trades strategies)) :
  (length (PnLChart.chartData tz legacy_parse trades strategies) <= 30)%nat /\
  StronglySorted (fun a b => day_of (PnLChart.fullDate a) <= day_of (PnLChart.fullDate b))
    (PnLChart.chartData tz legacy_parse trades strategies) /\
  List.NoDup (map PnLChart.fullDate (PnLChart.chartData tz legacy_parse trades strategies)) /\
  (forall date : string,
     In date (map fst (dailyData trades strategies)) ->
     ~ In date (map PnLChart.fullDate (PnLChart.chartData tz legacy_parse trades strategies)) ->
     forall b, In b (PnLChart.chartData tz legacy_parse trades strategies) ->
               day_of date <= day_of (PnLChart.fullDate b)).
Proof.
  destruct (dailyData_keys trades strategies) as [Hnd Hkeys].
  unfold PnLChart.chartData.
  set (bars := map (bar tz) (dailyData trades strategies)).
  set (sorted := Array_sort (PnLChart.byFullDate legacy_parse) bars).
  assert (Hfull : map PnLChart.fullDate bars = map fst (dailyData trades strategies)).
  { unfold bars. rewrite map_map. apply map_ext. now intros [date total]. }
  assert (Hvalid : forall b, In b bars -> is_calendar_date (PnLChart.fullDate b) = true).
  { intros b Hb. apply (in_map PnLChart.fullDate) in Hb. rewrite Hfull in Hb.
    destruct (Hkeys _ Hb) as (t & Ht & <-).
    rewrite List.Forall_forall in Hdates. now apply Hdates. }
  assert (Hsorted : StronglySorted
                      (fun a b => (inject_Z (day_of (PnLChart.fullDate a)) <=
                                   inject_Z (day_of (PnLChart.fullDate b)))%Q) sorted).
  { apply (Array_sort_sorted _ (fun b => inject_Z (day_of (PnLChart.fullDate b)))).
    intros a b Ha Hb. unfold PnLChart.byFullDate.
    rewrite !getTime_calendar_date by now apply Hvalid.
    unfold numZ. rewrite num_gt_sub_Fin, <- !Zlt_Qlt. unfold JSDate.msPerDay. lia. }
  assert (Hsplit : sorted = (firstn (length sorted - 30) sorted ++ slice_last 30 sorted)%list).
  { unfold slice_last. symmetry. apply firstn_skipn. }
  rewrite Hsplit in Hsorted. apply StronglySorted_app_order in Hsorted as [Hs Ho].
  assert (Pm : Permutation sorted bars) by apply Array_sort_Permutation.
  split; [|split; [|split]].
  - unfold slice_last. rewrite length_skipn. lia.
  - clear -Hs. induction Hs as [|a l _ IH Hall]; constructor; [exact IH|].
    apply List.Forall_forall. intros b Hb. rewrite List.Forall_forall in Hall.
    rewrite Zle_Qle. now apply Hall.
  - assert (N : List.NoDup (map PnLChart.fullDate sorted)).
    { apply (Permutation_NoDup (Permutation_sym (Permutation_map PnLChart.fullDate Pm))).
      now rewrite Hfull. }
    rewrite Hsplit, map_app in N. now apply NoDup_app_remove_l in N.
  - intros date Hin Hnot b Hb.
    rewrite <- Hfull in Hin.
    apply (Permutation_in _ (Permutation_sym (Permutation_map PnLChart.fullDate Pm))) in Hin.
    rewrite Hsplit, map_app in Hin. apply in_app_or in Hin as [Hin|Hin]; [|contradiction].
    apply in_map_iff in Hin as (a & <- & Ha).
    rewrite Zle_Qle. now apply Ho.
Qed.

Lemma pnl_chartData_latest_days_in_order_witness :
  (length (PnLChart.chartData 0 no_legacy week_trades []) <= 30)%nat /\
  List.NoDup (map PnLChart.fullDate (PnLChart.chartData 0 no_legacy week_trades [])).
Proof.
  pose proof (pnl_chartData_latest_days_in_order 0 no_legacy week_trades []) as H.
  assert (Hdates : Forall (fun t => is_calendar_date (Schema.tradeDate t) = true)
                     (getActiveStrategyTrades week_trades [])).
  { Forall_by_evaluation. }
  destruct (H Hdates) as (Hlen & _ & Hnodup & _).
  split; assumption.
Defined.

End PnLChartFacts.

(** ** Sums and means of bounded numbers *)

Lemma fold_num_add_between (lo hi : Q) (l : list number) (a : Q) :
  Forall (between lo hi) l ->
  exists s, fold_left num_add l (Fin a) = Fin s /\
            (a + inject_Z (Z.of_nat (length l)) * lo <= s <=
             a + inject_Z (Z.of_nat (length l)) * hi)%Q.
Proof.
  intros H. revert a. induction H as [|n l (q & -> & Hq) _ IH]; intros a.
  - exists a. split; [reflexivity|].
    change (inject_Z (Z.of_nat (length (@nil number)))) with 0%Q. lra.
  - cbn [fold_left num_add]. destruct (IH (Qred (a + q))) as (s & -> & Hs).
    exists s. split; [reflexivity|].
    rewrite Qred_correct in Hs.
    replace (Z.of_nat (length (Fin q :: l))) with (Z.of_nat (length l) + 1)%Z
      by (simpl length; lia).
    rewrite inject_Z_plus. change (inject_Z 1) with 1%Q. lra.
Qed.

Lemma mean_between (lo hi : Q) (l : list number) :
  Forall (between lo hi) l -> l <> [] ->
  between lo hi (num_div (sum l) (num_of_nat (length l))).
Proof.
  intros H Hne. unfold sum.
  destruct (fold_num_add_between lo hi l 0 H) as (s & -> & Hs).
  assert (Hn : (0 < length l)%nat) by (destruct l; [congruence | simpl; lia]).
  unfold num_of_nat, numZ, num_div. rewrite (Qcompare_nat_pos _ Hn).
  eexists; split; [reflexivity|]. rewrite Qred_correct.
  assert (L : (0 < inject_Z (Z.of_nat (length l)))%Q)
    by (change 0%Q with (inject_Z 0); rewrite <- Zlt_Qlt; lia).
  split.
  - apply Qle_shift_div_l; [exact L | lra].
  - apply Qle_shift_div_r; [exact L | lra].
Qed.

(** ** The mood tracker *)

Lemma emotionScore_between (label : string) :
  mem label Object_prototype = false ->
  exists s, emotionScore label = Normal (VNum s) /\ between 1 5 s.
Proof.
  intros Hm. unfold emotionScore, get, EMOTION_SCORES, own_property, inherited.
  cbn [assoc]. rewrite Hm.
  repeat match goal with
         | |- context [(label =? ?s)%string] => destruct (label =? s)%string
         end;
    cbn; (eexists; split; [reflexivity|]); (eexists; split; [reflexivity|]); lra.
Qed.

Lemma mood_addTrade_invariant (acc : list (string * Day)) (t : Trade) :
  mem (Schema.tradeDate t) Object_prototype = false ->
  mem (emotionOf t) Object_prototype = false ->
  List.NoDup (map fst acc) -> Forall (fun kd => day_ok (snd kd)) acc ->
  exists acc', PsychologyMoodTracker.addTrade acc t = Normal acc' /\
               List.NoDup (map fst acc') /\ Forall (fun kd => day_ok (snd kd)) acc'.
Proof.
  intros Hdate Hlabel Hnd Hok. unfold PsychologyMoodTracker.addTrade. cbv zeta.
  destruct (emotionScore_between _ Hlabel) as (s & -> & Hs). cbn [bind].
  set (fresh := {| date := Schema.tradeDate t; emotions := []; pnls := [];
                   PsychologyMoodTracker.trades := 0 |}).
  set (acc1 := match assoc (Schema.tradeDate t) acc with
               | Some _ => acc
               | None => define_property (Schema.tradeDate t) fresh acc
               end).
  assert (E : match assoc (Schema.tradeDate t) acc with
              | Some _ => Normal acc
              | None => if mem (Schema.tradeDate t) Object_prototype then Throw TypeError
                        else Normal (define_property (Schema.tradeDate t) fresh acc)
              end = Normal acc1).
  { unfold acc1. rewrite Hdate. now destruct (assoc (Schema.tradeDate t) acc). }
  rewrite E. cbn [bind]. eexists; split; [reflexivity|].
  assert (H1 : List.NoDup (map fst acc1) /\
               Forall (fun kd => fst kd <> Schema.tradeDate t -> day_ok (snd kd)) acc1 /\
               Forall (fun kd => fst kd = Schema.tradeDate t ->
                                 day_ok (snd kd) \/ snd kd = fresh) acc1).
  { unfold acc1. destruct (assoc (Schema.tradeDate t) acc) as [d|] eqn:A.
    - split; [assumption|]. split; apply List.Forall_forall; intros kd Hin _;
        rewrite List.Forall_forall in Hok; [|left]; now apply Hok.
    - pose proof (define_property_Permutation (Schema.tradeDate t) fresh acc) as P.
      split; [|split].
      + apply (Permutation_NoDup (l := Schema.tradeDate t :: map fst acc)).
        * symmetry. apply (Permutation_map fst P).
        * constructor; [now apply assoc_None_keys | assumption].
      + apply List.Forall_forall. intros kd Hin Hne.
        apply (Permutation_in _ P) in Hin. destruct Hin as [<-|Hin]; [now contradiction Hne|].
        rewrite List.Forall_forall in Hok. now apply Hok.
      + apply List.Forall_forall. intros kd Hin _.
        apply (Permutation_in _ P) in Hin. destruct Hin as [<-|Hin]; [now right|].
        left. rewrite List.Forall_forall in Hok. now apply Hok. }
  destruct H1 as (Hnd1 & Hother & Hsame).
  split; [now rewrite (update_property_keys (Schema.tradeDate t) _ acc1)|].
  clear E. revert Hnd1 Hother Hsame. generalize acc1. clear acc1.
  induction acc1 as [|[k d] acc1 IH]; intros Hnd1 Hother Hsame; cbn [update_property];
    [constructor|].
  inversion Hnd1 as [|? ? Hk Hnd1']; subst.
  inversion Hother as [|? ? Ho Hother']; subst.
  inversion Hsame as [|? ? Hsm Hsame']; subst. cbn [fst snd] in *.
  destruct (String.eqb_spec (Schema.tradeDate t) k) as [<-|Hne].
  - constructor.
    + cbn [snd]. destruct (Hsm eq_refl) as [(scores & He & Hr & Hl & Ht)| ->].
      * exists (scores ++ [s])%list. cbn. rewrite He, map_app. repeat split.
        -- apply Forall_app. split; [assumption | now constructor].
        -- rewrite length_app. simpl. lia.
        -- lia.
      * exists [s]. cbn. repeat split; [now constructor | lia].
    + apply List.Forall_forall. intros [k' d'] Hin. rewrite List.Forall_forall in Hother'.
      apply (Hother' _ Hin). cbn. intros ->. apply Hk. apply in_map_iff. now exists (Schema.tradeDate t, d').
  - constructor; [apply Ho; congruence | now apply IH].
Qed.

Lemma dailyMoodData_invariant (l : list Trade) (acc : list (string * Day)) :
  Forall (fun t => mem (Schema.tradeDate t) Object_prototype = false) l ->
  Forall (fun t => mem (emotionOf t) Object_prototype = false) l ->
  List.NoDup (map fst acc) -> Forall (fun kd => day_ok (snd kd)) acc ->
  exists acc', reduce PsychologyMoodTracker.addTrade l acc = Normal acc' /\
               Forall (fun kd => day_ok (snd kd)) acc'.
Proof.
  intros Hd. revert acc. induction Hd as [|t l Ht _ IH]; intros acc Hl Hnd Hok.
  - exists acc. now split.
  - inversion Hl as [|? ? Hlt Hl']; subst. cbn [reduce].
    destruct (mood_addTrade_invariant acc t Ht Hlt Hnd Hok) as (acc1 & -> & Hnd1 & Hok1).
    cbn [bind]. now apply IH.
Qed.

Lemma moodPoint_between (tz : Z) (d : Day) :
  day_ok d ->
  between 1 5 (moodScore (moodPoint tz d)) /\ (1 <= dayTrades (moodPoint tz d))%nat.
Proof.
  intros (scores & He & Hr & Hl & Ht). unfold moodPoint. cbn [moodScore dayTrades].
  split; [|exact Ht]. rewrite He, avgMood_mean. apply mean_between; [exact Hr|].
  destruct scores; [simpl in Hl; lia | discriminate].
Qed.

(** X15: the mood chart.  When no active trade has a date or an emotion
    label that names a member of [Object.prototype], the chart is computed
    (nothing is thrown), it shows at most thirty days, the mood score of
    every day shown is a number from 1 to 5 and the day counts at least one
    trade, and the average mood under the chart is a number from 1 to 5
    too. *)
Theorem mood_chartData_scores_in_range (tz : Z) (legacy_parse : string -> number)
    (trades : list Trade) (strategies : list Strategy)
    (Hdates : Forall (fun t => mem (Schema.tradeDate t) Object_prototype = false)
                (getActiveStrategyTrades trades strategies))
    (Hlabels : Forall (fun t => mem (emotionOf t) Object_prototype = false)
                 (getActiveStrategyTrades trades strategies)) :
  exists points,
    PsychologyMoodTracker.chartData tz legacy_parse trades strategies = Normal points /\
    (length points <= 30)%nat /\
    Forall (fun p => between 1 5 (moodScore p) /\ (1 <= dayTrades p)%nat) points /\
    between 1 5 (avgMoodScore points).
Proof.
  unfold PsychologyMoodTracker.chartData, dailyMoodData.
  destruct (dailyMoodData_invariant _ [] Hdates Hlabels (List.NoDup_nil _) (List.Forall_nil _))
    as (days & -> & Hok).
  cbn [bind]. eexists; split; [reflexivity|].
  set (sorted := Array_sort (PsychologyMoodTracker.byFullDate legacy_parse)
                   (map (moodPoint tz) (map snd days))).
  assert (Hall : Forall (fun p => between 1 5 (moodScore p) /\ (1 <= dayTrades p)%nat)
                   (slice_last 30 sorted)).
  { apply List.Forall_forall. intros p Hp. apply In_slice_last in Hp.
    apply (proj1 (Array_sort_In _ _ p)) in Hp.
    apply in_map_iff in Hp as (d & <- & Hd). apply in_map_iff in Hd as (kd & <- & Hkd).
    apply moodPoint_between. rewrite List.Forall_forall in Hok. now apply Hok. }
  split; [unfold slice_last; rewrite length_skipn; lia|]. split; [exact Hall|].
  unfold avgMoodScore. destruct (slice_last 30 sorted) as [|p ps] eqn:E.
  - exists 3%Q. split; [reflexivity | lra].
  - change (0 <? length (p :: ps))%nat with true. cbv iota.
    rewrite <- (length_map moodScore (p :: ps)).
    apply mean_between; [|discriminate].
    clear -Hall. induction Hall as [|x l [Hx _] _ IH]; constructor; assumption.
Qed.

Lemma mood_chartData_scores_in_range_witness :
  exists points,
    PsychologyMoodTracker.chartData 0 no_legacy mood_trades [] = Normal points /\
    (length points <= 30)%nat /\
    Forall (fun p => between 1 5 (moodScore p) /\ (1 <= dayTrades p)%nat) points /\
    between 1 5 (avgMoodScore points).
Proof.
  apply (mood_chartData_scores_in_range 0 no_legacy mood_trades []).
  - Forall_by_evaluation.
  - Forall_by_evaluation.
Defined.

(** ** The discipline page *)

Lemma tradesWithChecklistData_enrich (JSON_parse : string -> completion value)
    (items : list ChecklistItem) (selected : list Trade) :
  tradesWithChecklistData (useChecklist JSON_parse items) selected =
    Normal (List.filter has_data (map (enrich JSON_parse) selected)).
Proof.
  unfold tradesWithChecklistData.
  rewrite (mapM_Normal _ (enrich JSON_parse)) by (intros t _; apply withChecklist_enrich).
  cbn [bind].
  apply filterM_Normal. intros t Ht. apply hasChecklistData_has_data.
  apply in_map_iff in Ht as (x & <- & _). apply enrich_checklist_not_nullish.
Qed.

Lemma enrich_score_between (JSON_parse : string -> completion value) (t : Trade) :
  between 0 100 (adherenceScore (enrich JSON_parse t)).
Proof.
  unfold enrich. cbn [adherenceScore].
  destruct (Boolean _); [|exists 0%Q; split; [reflexivity | lra]].
  unfold score_of. destruct (Object_values _) as [[|x l]|e];
    try (exists 0%Q; split; [reflexivity | lra]).
  apply ratio100_range; [simpl; lia | apply filter_length_le].
Qed.

Lemma level_of_score (q : Q) :
  (num_ge (Fin q) (Fin 75) =
     (getAdherenceLevel (Fin q) =? "Excellent")%string ||
     (getAdherenceLevel (Fin q) =? "Good")%string) /\
  (num_lt (Fin q) (Fin 50) =
     (getAdherenceLevel (Fin q) =? "Poor")%string ||
     (getAdherenceLevel (Fin q) =? "Very Poor")%string).
Proof.
  split; apply eq_true_iff_eq; rewrite ?num_ge_Fin, ?num_lt_Fin;
    band_cases q; cbn; split; intros; try reflexivity; try discriminate; lra.
Qed.

(** X16: the two cohorts of the discipline page follow the adherence
    levels: the high-adherence trades (score at least 75) are the trades of
    the levels Excellent and Good, the low-adherence trades (score below
    50) those of the levels Poor and Very Poor, no trade is in both, and the
    average adherence score is a number from 0 to 100. *)
Theorem discipline_cohorts_follow_levels (JSON_parse : string -> completion value)
    (items : list ChecklistItem) (selected : list Trade) :
  exists data,
    tradesWithChecklistData (useChecklist JSON_parse items) selected = Normal data /\
    highAdherenceTradesData data =
      List.filter (fun trade => (adherenceLevel trade =? "Excellent")%string ||
                                (adherenceLevel trade =? "Good")%string) data /\
    lowAdherenceTradesData data =
      List.filter (fun trade => (adherenceLevel trade =? "Poor")%string ||
                                (adherenceLevel trade =? "Very Poor")%string) data /\
    (forall trade, In trade (highAdherenceTradesData data) ->
                   ~ In trade (lowAdherenceTradesData data)) /\
    between 0 100 (avgAdherenceScore data).
Proof.
  rewrite tradesWithChecklistData_enrich. eexists; split; [reflexivity|].
  set (data := List.filter has_data (map (enrich JSON_parse) selected)).
  assert (Hdata : forall trade, In trade data ->
            exists q, adherenceScore trade = Fin q /\ (0 <= q <= 100)%Q /\
                      adherenceLevel trade = getAdherenceLevel (Fin q)).
  { intros trade Hin. apply filter_In in Hin as [Hin _].
    apply in_map_iff in Hin as (t & <- & _).
    destruct (enrich_score_between JSON_parse t) as (q & Hq & Hr).
    exists q. repeat split; try assumption; try apply Hr.
    unfold enrich in *. cbn [adherenceScore adherenceLevel] in *. now rewrite Hq. }
  split; [|split; [|split]].
  - apply filter_ext_in. intros trade Hin.
    destruct (Hdata trade Hin) as (q & -> & _ & ->). apply level_of_score.
  - apply filter_ext_in. intros trade Hin.
    destruct (Hdata trade Hin) as (q & -> & _ & ->). apply level_of_score.
  - intros trade Hh Hl. apply filter_In in Hh as [Hin Hh]. apply filter_In in Hl as [_ Hl].
    destruct (Hdata trade Hin) as (q & E & _ & _). rewrite E in Hh, Hl.
    apply num_ge_Fin in Hh. apply num_lt_Fin in Hl. lra.
  - unfold avgAdherenceScore. destruct data as [|x l] eqn:E.
    + exists 0%Q. split; [reflexivity | lra].
    + change (0 <? length (x :: l))%nat with true. cbv iota.
      assert (S : fold_left (fun sum trade => num_add sum (adherenceScore trade)) (x :: l) (Fin 0)
                  = sum (map adherenceScore (x :: l))).
      { unfold sum. generalize (Fin 0). generalize (x :: l).
        induction l0 as [|y l0 IH]; intros a; [reflexivity | apply IH]. }
      rewrite S, <- (length_map adherenceScore (x :: l)).
      apply mean_between; [|discriminate].
      apply List.Forall_forall. intros s Hs. apply in_map_iff in Hs as (trade & <- & Hin).
      destruct (Hdata trade Hin) as (q & -> & Hr & _). now exists q.
Qed.

Lemma level_counts (data : list TradeEx) :
  Forall (fun trade => In (adherenceLevel trade) bands) data ->
  list_sum (map (fun level => length (levelTrades level data)) bands) = length data.
Proof.
  induction 1 as [|trade data Hb _ IH]; [reflexivity|].
  unfold bands in *. cbn [map list_sum] in *. unfold levelTrades in *. cbn [List.filter].
  simpl in Hb.
  destruct Hb as [E|[E|[E|[E|[E|[]]]]]]; rewrite <- E; cbn [String.eqb Ascii.eqb Bool.eqb];
    cbn [length]; unfold list_sum in *; cbn [fold_right] in *; lia.
Qed.

(** X17: the card "Adherence Distribution" has the five levels in display
    order, each trade with checklist data is counted in exactly one row, so
    the counts add up to the number of these trades, and every percentage
    is a number from 0 to 100. *)
Theorem adherenceDistribution_counts (JSON_parse : string -> completion value)
    (items : list ChecklistItem) (selected : list Trade) :
  exists data,
    tradesWithChecklistData (useChecklist JSON_parse items) selected = Normal data /\
    map (fun row => fst (fst row)) (adherenceDistribution data) = bands /\
    list_sum (map (fun row => snd (fst row)) (adherenceDistribution data)) = length data /\
    Forall (fun row => between 0 100 (snd row)) (adherenceDistribution data).
Proof.
  rewrite tradesWithChecklistData_enrich. eexists; split; [reflexivity|].
  set (data := List.filter has_data (map (enrich JSON_parse) selected)).
  split; [reflexivity|]. split.
  - unfold adherenceDistribution. rewrite map_map. cbn [fst snd].
    apply (level_counts data). apply List.Forall_forall. intros trade Hin.
    apply filter_In in Hin as [Hin _]. apply in_map_iff in Hin as (t & <- & _).
    apply enrich_band.
  - unfold adherenceDistribution. apply List.Forall_forall. intros row Hrow.
    apply in_map_iff in Hrow as (level & <- & _). cbn [snd]. unfold Discipline.percentage.
    destruct (0 <? length data)%nat eqn:E; [|exists 0%Q; split; [reflexivity | lra]].
    apply Nat.ltb_lt in E. apply ratio100_range; [exact E | apply filter_length_le].
Qed.

(** ** The time range of the discipline page *)

Lemma since_incl (legacy_parse : string -> number) (a b : number) (trades : list Trade) :
  (forall x, num_ge x a = true -> num_ge x b = true) ->
  incl (since legacy_parse a trades) (since legacy_parse b trades).
Proof.
  intros H t Ht. unfold since in *. apply filter_In in Ht as [Hin Ht].
  apply filter_In. split; [assumption | now apply H].
Qed.

Lemma daysAgo_le (now a b : Z) (x : number) :
  a <= b -> num_ge x (daysAgo now a) = true -> num_ge x (daysAgo now b) = true.
Proof.
  intros Hab. unfold daysAgo, numZ. destruct x as [ | | |q]; try discriminate; [reflexivity|].
  rewrite !num_ge_Fin. intros H. eapply Qle_trans; [|exact H].
  rewrite <- Zle_Qle. lia.
Qed.

(** X18: the time ranges of the discipline page nest: the trades of the
    last 7 days are among those of the last 30, these among those of the
    last 90, these among those of the last year, and the trades of every
    range are among the trades of the range "all", which is the whole
    list; so is the custom range while one of its ends is not set, and any
    range the selector does not know.  A trade whose date cannot be read
    is in no range that has a start date. *)
Theorem filteredTrades_ranges_nest (now : Z) (legacy_parse : string -> number)
    (customStartDate customEndDate : string) (trades : list Trade) :
  let range timeRange :=
    filteredTrades now legacy_parse timeRange customStartDate customEndDate trades in
  incl (range "7d") (range "30d") /\
  incl (range "30d") (range "90d") /\
  incl (range "90d") (range "1y") /\
  incl (range "1y") (range "all") /\
  range "all" = trades /\
  (customStartDate = "" \/ customEndDate = "" -> range "custom" = trades) /\
  (forall timeRange, ~ In timeRange known_ranges -> range timeRange = trades) /\
  (forall timeRange, incl (range timeRange) trades) /\
  (forall timeRange trade,
     In timeRange ["7d"; "30d"; "90d"; "1y"] ->
     JSDate.new_Date_getTime legacy_parse (Schema.tradeDate trade) = NaN ->
     ~ In trade (range timeRange)).
Proof.
  cbv zeta.
  assert (Hsub : forall timeRange,
            incl (filteredTrades now legacy_parse timeRange customStartDate customEndDate
                    trades) trades).
  { intros timeRange t. unfold filteredTrades, since.
    repeat match goal with
           | |- context [if ?c then _ else _] => destruct c
           end;
      intros Ht; try exact Ht; now apply filter_In in Ht. }
  split; [|split; [|split; [|split; [|split; [|split; [|split; [|split]]]]]]].
  - unfold filteredTrades. cbn [String.eqb Ascii.eqb Bool.eqb].
    apply since_incl. intros x. apply daysAgo_le. lia.
  - unfold filteredTrades. cbn [String.eqb Ascii.eqb Bool.eqb].
    apply since_incl. intros x. apply daysAgo_le. lia.
  - unfold filteredTrades. cbn [String.eqb Ascii.eqb Bool.eqb].
    apply since_incl. intros x. apply daysAgo_le. lia.
  - apply Hsub.
  - reflexivity.
  - unfold filteredTrades. cbn [String.eqb Ascii.eqb Bool.eqb].
    intros [-> | ->]; [reflexivity|]. now rewrite orb_true_r.
  - intros timeRange Hr. unfold filteredTrades, known_ranges in *.
    repeat match goal with
           | |- context [String.eqb ?a ?b] =>
               destruct (String.eqb_spec a b) as [->|?];
               [exfalso; apply Hr; simpl; tauto|]
           end.
    reflexivity.
  - exact Hsub.
  - intros timeRange trade Hr Hnan Hin. unfold filteredTrades in Hin. simpl in Hr.
    destruct Hr as [<-|[<-|[<-|[<-|[]]]]]; cbn [String.eqb Ascii.eqb Bool.eqb] in Hin;
      unfold since in Hin; apply filter_In in Hin as [_ Hin]; rewrite Hnan in Hin; discriminate.
Qed.

(** ** The greatest of a list of numbers *)

Lemma fold_num_max_finite (l : list number) (a : Q) :
  Forall (fun x => is_finite x = true) l ->
  exists q, fold_left num_max l (Fin a) = Fin q /\
            (Fin q = Fin a \/ In (Fin q) l) /\
            (a <= q)%Q /\
            (forall q', In (Fin q') l -> (q' <= q)%Q).
Proof.
  intros H. revert a. induction H as [|x l Hx _ IH]; intros a.
  - exists a. repeat split; [now left | lra | intros q' []].
  - destruct x as [ | | |b]; try discriminate. cbn [fold_left].
    unfold num_max at 2. rewrite num_cmp_Fin.
    destruct (Qcompare_spec a b) as [E|L|G].
    + destruct (IH a) as (q & -> & Hin & Ha & Hall). exists q.
      repeat split; [destruct Hin; [now left | right; now right] | assumption |].
      intros q' [Eq|Hq']; [injection Eq as <-; lra | now apply Hall].
    + destruct (IH b) as (q & -> & Hin & Hb & Hall). exists q.
      repeat split; [right; destruct Hin as [->|Hin]; [now left | now right] | lra |].
      intros q' [Eq|Hq']; [injection Eq as <-; lra | now apply Hall].
    + destruct (IH a) as (q & -> & Hin & Ha & Hall). exists q.
      repeat split; [destruct Hin; [now left | right; now right] | assumption |].
      intros q' [Eq|Hq']; [injection Eq as <-; lra | now apply Hall].
Qed.

Lemma Math_max_finite (l : list number) :
  Forall (fun x => is_finite x = true) l -> l <> [] ->
  exists q, Math_max l = Fin q /\ In (Fin q) l /\ forall q', In (Fin q') l -> (q' <= q)%Q.
Proof.
  intros H Hne. destruct l as [|x l]; [congruence|].
  inversion H as [|? ? Hx Hl]; subst. destruct x as [ | | |a]; try discriminate.
  unfold Math_max. cbn [fold_left].
  change (num_max NInf (Fin a)) with (Fin a).
  destruct (fold_num_max_finite l a Hl) as (q & -> & Hin & Ha & Hall).
  exists q. repeat split.
  - destruct Hin as [->|Hin]; [now left | now right].
  - intros q' [Eq|Hq']; [injection Eq as <-; lra | now apply Hall].
Qed.

(** ** The figures under the risk-reward chart *)

Lemma point_figures (t : Trade) :
  numeric_prices t = true ->
  exists r w q : Q,
    risk (point t) = Fin r /\ reward (point t) = Fin w /\ ratio (point t) = Fin q /\
    (0 <= r)%Q /\ (0 <= w)%Q /\ (0 <= q)%Q /\
    (num_gt (ratio (point t)) (Fin 1) = true <-> (0 < r < w)%Q).
Proof.
  unfold numeric_prices. intros H. apply andb_prop in H as [H Hs]. apply andb_prop in H as [He Hx].
  destruct (parseFloat (text_or_zero (Schema.entryPrice t))) as [ | | |e] eqn:Ee; try discriminate.
  destruct (parseFloat (text_or_zero (Schema.exitPrice t))) as [ | | |x] eqn:Ex; try discriminate.
  destruct (parseFloat (text_or_zero (Schema.stopLoss t))) as [ | | |s] eqn:Es; try discriminate.
  destruct (point_finite t e x s Ee Ex Es) as (r & w & Hr & Er & Hw & Ew & Hpos & Hzero).
  assert (R0 : (0 <= r)%Q) by (rewrite Er; apply Qabs_nonneg).
  assert (W0 : (0 <= w)%Q) by (rewrite Ew; apply Qabs_nonneg).
  destruct (Qlt_le_dec 0 r) as [Rpos|Rle].
  - destruct (Hpos Rpos) as (q & Hq & Eq). exists r, w, q. rewrite Hq.
    assert (Q0 : (0 <= q)%Q).
    { rewrite Eq. apply Qle_shift_div_l; [assumption | lra]. }
    do 6 (split; [first [assumption | reflexivity]|]). split.
    + intros G. apply num_gt_Fin in G.
      assert (G' : (1 * r < w)%Q).
      { apply (Qmult_lt_r _ _ (/ r)); [now apply Qinv_lt_0_compat|].
        rewrite <- Qmult_assoc, Qmult_inv_r by lra. fold (Qdiv w r). lra. }
      lra.
    + intros [_ G]. apply num_gt_Fin. rewrite Eq.
      apply Qlt_shift_div_l; [assumption | lra].
  - assert (E0 : (r == 0)%Q) by lra. rewrite (Hzero E0).
    exists r, w, 0%Q. do 6 (split; [first [assumption | reflexivity | lra]|]). split.
    + discriminate.
    + intros [G _]. lra.
Qed.

Lemma moderate_finite (n : number) : moderate n = true -> is_finite n = true.
Proof. destruct n; simpl; congruence. Qed.

Lemma moderate_prices_numeric (t : Trade) : moderate_prices t = true -> numeric_prices t = true.
Proof.
  unfold moderate_prices, numeric_prices. intros H.
  apply andb_prop in H as [H Hs]. apply andb_prop in H as [He Hx].
  now rewrite (moderate_finite _ He), (moderate_finite _ Hx), (moderate_finite _ Hs).
Qed.

Lemma moderate_Fin (q : Q) : moderate (Fin q) = true -> (Qabs q <= price_limit)%Q.
Proof. simpl. apply Qle_bool_imp_le. Qed.

(** Risk and reward of a trade with moderate prices are at most twice the
    limit. *)
Lemma point_moderate (t : Trade) :
  moderate_prices t = true ->
  num_le (risk (point t)) (Fin (2 * price_limit)) = true /\
  num_le (reward (point t)) (Fin (2 * price_limit)) = true.
Proof.
  unfold moderate_prices. intros H.
  apply andb_prop in H as [H Hs]. apply andb_prop in H as [He Hx].
  destruct (parseFloat (text_or_zero (Schema.entryPrice t))) as [ | | |e] eqn:Ee; try discriminate.
  destruct (parseFloat (text_or_zero (Schema.exitPrice t))) as [ | | |x] eqn:Ex; try discriminate.
  destruct (parseFloat (text_or_zero (Schema.stopLoss t))) as [ | | |s] eqn:Es; try discriminate.
  apply moderate_Fin in He, Hx, Hs.
  destruct (point_finite t e x s Ee Ex Es) as (r & w & Hr & Er & Hw & Ew & _).
  rewrite Hr, Hw. unfold num_le. rewrite !num_cmp_Fin.
  assert (Lr : (r <= 2 * price_limit)%Q).
  { rewrite Er. eapply Qle_trans; [apply (Qabs_triangle e (- s))|]. rewrite Qabs_opp. lra. }
  assert (Lw : (w <= 2 * price_limit)%Q).
  { rewrite Ew. eapply Qle_trans; [apply (Qabs_triangle x (- e))|]. rewrite Qabs_opp. lra. }
  split.
  - destruct (Qcompare_spec r (2 * price_limit)); try reflexivity. lra.
  - destruct (Qcompare_spec w (2 * price_limit)); try reflexivity. lra.
Qed.

(** X19: the figures under the risk-reward chart, for trades whose three
    prices parse to numbers of magnitude at most 10^15.  Risk and reward
    of every point are not negative and at most twice that limit, the
    ratio is not negative; a point counts as "good" (ratio above 1)
    exactly when its reward exceeds a positive risk; "Best R:R" is the
    ratio of one of the points and no point has a greater one; and the
    number of good points is at most the number of points. *)
Theorem riskReward_summary_figures (trades : list Trade) (strategies : list Strategy)
    (Hprices : Forall (fun t => moderate_prices t = true)
                 (List.filter hasAllInputs (getActiveStrategyTrades trades strategies))) :
  Forall (fun p =>
            num_ge (risk p) (Fin 0) = true /\
            num_le (risk p) (Fin (2 * price_limit)) = true /\
            num_ge (reward p) (Fin 0) = true /\
            num_le (reward p) (Fin (2 * price_limit)) = true /\
            num_ge (ratio p) (Fin 0) = true /\
            (num_gt (ratio p) (Fin 1) = true <->
             num_gt (risk p) (Fin 0) = true /\ num_gt (reward p) (risk p) = true))
         (riskRewardData trades strategies) /\
  (riskRewardData trades strategies <> [] ->
   exists best, In best (riskRewardData trades strategies) /\
                bestRiskReward (riskRewardData trades strategies) = ratio best /\
                forall p, In p (riskRewardData trades strategies) ->
                          num_le (ratio p) (ratio best) = true) /\
  (goodRiskReward (riskRewardData trades strategies) <=
   length (riskRewardData trades strategies))%nat.
Proof.
  unfold riskRewardData.
  set (kept := List.filter hasAllInputs (getActiveStrategyTrades trades strategies)) in *.
  rewrite List.Forall_forall in Hprices.
  assert (Hall : Forall (fun p => exists r w q : Q,
                    risk p = Fin r /\ reward p = Fin w /\ ratio p = Fin q /\
                    (0 <= r)%Q /\ (0 <= w)%Q /\ (0 <= q)%Q /\
                    (num_gt (ratio p) (Fin 1) = true <-> (0 < r < w)%Q)) (map point kept)).
  { apply List.Forall_forall. intros p Hp. apply in_map_iff in Hp as (t & <- & Ht).
    apply point_figures, moderate_prices_numeric, Hprices, Ht. }
  split; [|split].
  - apply List.Forall_forall. intros p Hp.
    rewrite List.Forall_forall in Hall.
    destruct (Hall p Hp) as (r & w & q & Hr & Hw & Hq & R0 & W0 & Q0 & Hgood).
    apply in_map_iff in Hp as (t & <- & Ht).
    destruct (point_moderate t (Hprices t Ht)) as (Lr & Lw).
    split; [rewrite Hr; now apply num_ge_Fin|].
    split; [exact Lr|].
    split; [rewrite Hw; now apply num_ge_Fin|].
    split; [exact Lw|].
    split; [rewrite Hq; now apply num_ge_Fin|].
    rewrite Hgood, Hr, Hw, !num_gt_Fin. tauto.
  - intros Hne.
    assert (Hfin : Forall (fun x => is_finite x = true) (map ratio (map point kept))).
    { apply List.Forall_forall. intros x Hx. apply in_map_iff in Hx as (p & <- & Hp).
      rewrite List.Forall_forall in Hall. destruct (Hall p Hp) as (r & w & q & _ & _ & -> & _).
      reflexivity. }
    destruct (Math_max_finite _ Hfin) as (q & Hq & Hin & Hmax).
    { destruct (map point kept); [congruence | discriminate]. }
    apply in_map_iff in Hin as (best & Hbest & Hin).
    exists best. split; [exact Hin|]. split; [unfold bestRiskReward; now rewrite Hq|].
    intros p Hp. rewrite Hbest.
    rewrite List.Forall_forall in Hall. destruct (Hall p Hp) as (r & w & q' & _ & _ & Eq & _).
    rewrite Eq. unfold num_le. rewrite num_cmp_Fin.
    assert (L : (q' <= q)%Q) by (apply Hmax; rewrite <- Eq; now apply in_map).
    destruct (Qcompare_spec q' q); try reflexivity. lra.
  - unfold goodRiskReward. apply filter_length_le.
Qed.

Lemma riskReward_summary_figures_witness :
  (goodRiskReward (riskRewardData [example_trade (Some "95")] []) <=
   length (riskRewardData [example_trade (Some "95")] []))%nat.
Proof.
  apply (riskReward_summary_figures [example_trade (Some "95")] []).
  Forall_by_evaluation.
Defined.

(** ** The bars of the adherence chart count every trade *)

Lemma update_group_count (k : string) (t : TradeEx) (props : list (string * list TradeEx)) :
  In k (map fst props) ->
  list_sum (map (fun g => length (snd g)) (update_property k (fun ts => (ts ++ [t])%list) props)) =
  S (list_sum (map (fun g => length (snd g)) props)).
Proof.
  induction props as [|[k' ts] props IH]; simpl; [tauto|].
  intros Hin. destruct (String.eqb_spec k k') as [->|Hne]; simpl.
  - rewrite length_app. simpl. lia.
  - rewrite IH; [lia|]. destruct Hin as [E|Hin]; [congruence | assumption].
Qed.

Lemma push_group_count (acc : list (string * list TradeEx)) (t : TradeEx) :
  list_sum (map (fun g => length (snd g)) (push_group acc t)) =
  S (list_sum (map (fun g => length (snd g)) acc)).
Proof.
  unfold push_group. destruct (assoc (adherenceLevel t) acc) as [ts|] eqn:E.
  - apply update_group_count. now apply assoc_In_keys in E.
  - pose proof (define_property_Permutation (adherenceLevel t) (@nil TradeEx) acc) as P.
    rewrite update_group_count.
    + f_equal.
      rewrite (list_sum_Permutation _ _ (Permutation_map (fun g => length (snd g)) P)).
      reflexivity.
    + apply (Permutation_in _ (Permutation_sym (Permutation_map fst P))). now left.
Qed.

Lemma adherenceGroups_count (twc : list TradeEx) :
  list_sum (map (fun g => length (snd g)) (adherenceGroups twc)) = length twc.
Proof.
  unfold adherenceGroups.
  assert (G : forall acc,
            list_sum (map (fun g => length (snd g)) (fold_left push_group twc acc)) =
            (list_sum (map (fun g => length (snd g)) acc) + length twc)%nat).
  { induction twc as [|t twc IH]; intros acc; simpl; [lia|].
    rewrite IH, push_group_count. lia. }
  now rewrite G.
Qed.

(** X20: the bars of the adherence chart partition the active trades:
    the counts of the bars add up to the number of active trades, every
    bar counts at least one trade, and its win rate is a number from 0 to
    100. *)
Theorem adherenceData_counts_every_trade (JSON_parse : string -> completion value)
    (items : list ChecklistItem) (trades : list Trade) (strategies : list Strategy) :
  exists twc,
    tradesWithChecklist (useChecklist JSON_parse items) trades strategies = Normal twc /\
    length twc = length (getActiveStrategyTrades trades strategies) /\
    list_sum (map ChecklistAdherenceChart.trades (adherenceData strategies twc)) = length twc /\
    Forall (fun row => (1 <= ChecklistAdherenceChart.trades row)%nat /\
                       between 0 100 (winRate row))
           (adherenceData strategies twc).
Proof.
  rewrite tradesWithChecklist_enrich. eexists; split; [reflexivity|].
  set (twc := map (enrich JSON_parse) (getActiveStrategyTrades trades strategies)).
  split; [apply length_map|].
  assert (Hb : Forall (fun t => In (adherenceLevel t) bands) twc).
  { apply List.Forall_forall. intros t Ht. apply in_map_iff in Ht as (x & <- & _).
    apply enrich_band. }
  assert (P : Permutation (adherenceData strategies twc)
                          (map (levelRow strategies) (adherenceGroups twc)))
    by apply Array_sort_Permutation.
  split.
  - rewrite (list_sum_Permutation _ _ (Permutation_map ChecklistAdherenceChart.trades P)).
    rewrite map_map. rewrite <- (adherenceGroups_count twc). f_equal.
    apply map_ext. now intros [level ts].
  - apply List.Forall_forall. intros row Hrow. apply (Permutation_in _ P) in Hrow.
    apply in_map_iff in Hrow as ([level ts] & <- & Hg).
    pose proof (adherenceGroups_nonempty twc Hb) as Hne.
    rewrite List.Forall_forall in Hne. specialize (Hne _ Hg). cbn [snd] in Hne.
    cbn [levelRow ChecklistAdherenceChart.trades winRate]. split.
    + destruct ts; [congruence | simpl; lia].
    + unfold winRateOf. destruct (0 <? length ts)%nat eqn:E;
        [|exists 0%Q; split; [reflexivity | lra]].
      apply Nat.ltb_lt in E. apply ratio100_range; [exact E | apply filter_length_le].
Qed.

(** ** Decimal numerals *)

Lemma is_digit_cases (c : ascii) :
  is_digit c = true ->
  In c (list_ascii_of_string "0123456789").
Proof.
  destruct c as [[] [] [] [] [] [] [] []]; intros H; try discriminate H; vm_compute; tauto.
Qed.

Lemma uint_of_digits (cs : list ascii) :
  forallb is_digit cs = true ->
  exists u,
    NilEmpty.uint_of_string (string_of_list_ascii cs) = Some u /\
    Decimal.nb_digits u = length cs /\
    forall acc : nat,
      Z.of_nat (Nat.of_uint_acc u acc) =
      fold_left (fun a c => 10 * a + Z.of_nat (nat_of_ascii c - 48)) cs (Z.of_nat acc).
Proof.
  induction cs as [|c cs IH]; intros H.
  - exists Decimal.Nil. repeat split.
  - cbn [forallb] in H. apply andb_prop in H as [Hc Hcs].
    destruct (IH Hcs) as (u & Hu & Hn & Hacc).
    cbn [string_of_list_ascii NilEmpty.uint_of_string]. rewrite Hu.
    apply is_digit_cases in Hc. cbn [list_ascii_of_string In] in Hc.
    repeat (destruct Hc as [<-|Hc];
            [eexists; split; [reflexivity|]; split;
               [cbn [Decimal.nb_digits length]; now rewrite Hn|];
             intros acc; cbn [Nat.of_uint_acc fold_left]; rewrite Hacc; f_equal;
             rewrite Nat.tail_mul_spec;
             match goal with
             | |- context [Z.of_nat (nat_of_ascii ?c - 48)] =>
                 let v := eval vm_compute in (Z.of_nat (nat_of_ascii c - 48)) in
                 change (Z.of_nat (nat_of_ascii c - 48)) with v
             end; lia|]).
    contradiction.
Qed.

Lemma string_of_uint_length (u : Decimal.uint) :
  String.length (NilEmpty.string_of_uint u) = Decimal.nb_digits u.
Proof. induction u; simpl; congruence. Qed.

Lemma string_of_uint_zeros (k : nat) (u : Decimal.uint) :
  NilEmpty.string_of_uint (Nat.iter k Decimal.D0 u) =
  string_of_list_ascii (repeat "0"%char k) ++ NilEmpty.string_of_uint u.
Proof. induction k as [|k IH]; simpl; [reflexivity | now rewrite IH]. Qed.

(** The numeral of the value of a digit text, padded to the length of
    the text, is the text. *)
Lemma digits_of_digit_text (cs : list ascii) :
  forallb is_digit cs = true -> cs <> [] ->
  JSDate.digits (length cs) (digits_Z cs) = string_of_list_ascii cs.
Proof.
  intros H Hne. destruct (uint_of_digits cs H) as (u & Hu & Hn & Hacc).
  assert (Hval : Z.to_nat (digits_Z cs) = Nat.of_uint u).
  { unfold digits_Z, Nat.of_uint. rewrite <- (Nat2Z.id (Nat.of_uint_acc u 0)).
    f_equal. symmetry. apply (Hacc 0%nat). }
  assert (Hu0 : u <> Decimal.Nil).
  { intros ->. simpl in Hn. destruct cs; [congruence | discriminate]. }
  unfold JSDate.digits, JSDate.pad_left, string_of_nat.
  rewrite Hval, DecimalNat.Unsigned.to_of.
  assert (Hz : NilZero.string_of_uint (Decimal.unorm u) =
               NilEmpty.string_of_uint (Decimal.unorm u)).
  { pose proof (DecimalFacts.unorm_nonnil u) as N. now destruct (Decimal.unorm u). }
  rewrite Hz, string_of_uint_length, <- Hn, <- string_of_uint_zeros.
  rewrite (DecimalFacts.iter_D0_unorm u Hu0). now apply NilEmpty.sus.
Qed.

Lemma digits_Z_bounds (cs : list ascii) :
  forallb is_digit cs = true -> 0 <= digits_Z cs < 10 ^ Z.of_nat (length cs).
Proof.
  unfold digits_Z. intros H.
  assert (G : forall a, 0 <= a ->
            0 <= fold_left (fun a c => 10 * a + Z.of_nat (nat_of_ascii c - 48)) cs a
            < (a + 1) * 10 ^ Z.of_nat (length cs)).
  { induction cs as [|c cs IH]; intros a Ha.
    - simpl. lia.
    - cbn [forallb] in H. apply andb_prop in H as [Hc Hcs].
      cbn [fold_left length]. rewrite Nat2Z.inj_succ, Z.pow_succ_r by lia.
      assert (Hd : 0 <= Z.of_nat (nat_of_ascii c - 48) <= 9).
      { unfold is_digit in Hc. apply andb_prop in Hc as [H1 H2].
        apply Nat.leb_le in H1, H2. lia. }
      specialize (IH Hcs (10 * a + Z.of_nat (nat_of_ascii c - 48)) ltac:(lia)).
      split; [lia|]. eapply Z.lt_le_trans; [apply IH|].
      assert (0 < 10 ^ Z.of_nat (length cs)) by (apply Z.pow_pos_nonneg; lia). nia. }
  specialize (G 0 ltac:(lia)). lia.
Qed.

(** ** Calendar dates and their texts *)

Section DateUtilsFacts.
Import DateUtils.

Lemma parse_ymd_text (s : string) (y m d : Z) :
  JSDate.parse_ymd s = Some (y, m, d) ->
  matches_ymd s = true /\ split_ymd s = (y, m, d) /\
  1 <= m <= 12 /\ 1 <= d <= JSDate.days_in_month y m /\ 0 <= y <= 9999 /\
  JSDate.iso_date (y, m, d) = s.
Proof.
  unfold JSDate.parse_ymd, matches_ymd, split_ymd.
  pose proof (string_of_list_ascii_of_string s) as Hs.
  destruct (list_ascii_of_string s) as [|y1 [|y2 [|y3 [|y4 [|d1 [|m1 [|m2 [|d2 [|a1 [|a2 [|]]]]]]]]]]];
    try discriminate.
  destruct (forallb is_digit [y1; y2; y3; y4; m1; m2; a1; a2] && Ascii.eqb d1 "-"
            && Ascii.eqb d2 "-") eqn:E; [|discriminate].
  apply andb_prop in E as [E E2]. apply andb_prop in E as [E E1].
  apply Ascii.eqb_eq in E1, E2. subst d1 d2.
  destruct ((1 <=? digits_Z [m1; m2]) && (digits_Z [m1; m2] <=? 12) &&
            (1 <=? digits_Z [a1; a2]) &&
            (digits_Z [a1; a2] <=? JSDate.days_in_month (digits_Z [y1; y2; y3; y4])
                                      (digits_Z [m1; m2]))) eqn:V; [|discriminate].
  intros H. injection H as <- <- <-.
  repeat (apply andb_prop in V as [V ?]).
  repeat match goal with H : (_ <=? _) = true |- _ => apply Z.leb_le in H end.
  cbn [forallb] in E. repeat (apply andb_prop in E as [? E]).
  assert (Hy : forallb is_digit [y1; y2; y3; y4] = true) by (cbn [forallb];
      repeat match goal with
             | H : is_digit ?c = true |- context [is_digit ?c] => rewrite H
             end; reflexivity).
  assert (Hm : forallb is_digit [m1; m2] = true) by (cbn [forallb];
      repeat match goal with
             | H : is_digit ?c = true |- context [is_digit ?c] => rewrite H
             end; reflexivity).
  assert (Ha : forallb is_digit [a1; a2] = true) by (cbn [forallb];
      repeat match goal with
             | H : is_digit ?c = true |- context [is_digit ?c] => rewrite H
             end; reflexivity).
  pose proof (digits_Z_bounds _ Hy) as By. change (10 ^ Z.of_nat (length [y1; y2; y3; y4])) with 10000 in By.
  split; [reflexivity|]. split; [reflexivity|].
  split; [lia|]. split; [lia|]. split; [lia|].
  unfold JSDate.iso_date.
  replace ((0 <=? digits_Z [y1; y2; y3; y4]) && (digits_Z [y1; y2; y3; y4] <=? 9999)) with true
    by (symmetry; apply andb_true_intro; split; apply Z.leb_le; lia).
  pose proof (digits_of_digit_text [y1; y2; y3; y4] Hy ltac:(discriminate)) as Ry.
  pose proof (digits_of_digit_text [m1; m2] Hm ltac:(discriminate)) as Rm.
  pose proof (digits_of_digit_text [a1; a2] Ha ltac:(discriminate)) as Ra.
  cbn [length] in Ry, Rm, Ra. rewrite Ry, Rm, Ra, <- Hs. reflexivity.
Qed.

(** The year of the era is recovered from the day of the era. *)
Lemma yoe_recover (yoe doy : Z) :
  0 <= yoe <= 399 -> 0 <= doy ->
  doy <= 364 + (if ((yoe + 1) mod 4 =? 0) && (negb ((yoe + 1) mod 100 =? 0) || (yoe + 1 =? 400)) then 1 else 0) ->
  let doe := yoe * 365 + yoe / 4 - yoe / 100 + doy in
  0 <= doe <= 146096 /\
  (doe - doe / 1460 + doe / 36524 - doe / 146096) / 365 = yoe.
Proof.
  intros Hy Hd Hl. cbv zeta.
  destruct ((yoe + 1) mod 4 =? 0) eqn:E4; [apply Z.eqb_eq in E4 | apply Z.eqb_neq in E4];
  destruct ((yoe + 1) mod 100 =? 0) eqn:E100; [apply Z.eqb_eq in E100 | apply Z.eqb_neq in E100 | apply Z.eqb_eq in E100 | apply Z.eqb_neq in E100];
  destruct (yoe + 1 =? 400) eqn:E400; [apply Z.eqb_eq in E400 | apply Z.eqb_neq in E400| apply Z.eqb_eq in E400 | apply Z.eqb_neq in E400| apply Z.eqb_eq in E400 | apply Z.eqb_neq in E400| apply Z.eqb_eq in E400 | apply Z.eqb_neq in E400];
  simpl in Hl; Z.to_euclidean_division_equations; lia.
Qed.

(** The calendar date of the day count of a calendar date is that date. *)
Lemma civil_from_days_from_civil (y m d : Z) :
  1 <= m <= 12 -> 1 <= d <= JSDate.days_in_month y m ->
  JSDate.civil_from_days (JSDate.days_from_civil y m d) = (y, m, d).
Proof.
  intros Hm Hd. unfold JSDate.days_from_civil.
  set (y' := if m <=? 2 then y - 1 else y).
  set (era := y' / 400).
  set (yoe := y' - era * 400).
  assert (Hyoe : 0 <= yoe <= 399).
  { unfold yoe, era. Z.to_euclidean_division_equations. lia. }
  remember (m + (if 2 <? m then -3 else 9)) as mp eqn:Hmpdef.
  assert (Hmp : 0 <= mp <= 11 /\ m = (if mp <? 10 then mp + 3 else mp - 9) /\
                (m <=? 2) = negb (mp <? 10)).
  { rewrite Hmpdef. destruct (2 <? m) eqn:E; [apply Z.ltb_lt in E | apply Z.ltb_ge in E].
    - replace (m + -3 <? 10) with true by (symmetry; apply Z.ltb_lt; lia).
      replace (m <=? 2) with false by (symmetry; apply Z.leb_gt; lia). simpl. lia.
    - replace (m + 9 <? 10) with false by (symmetry; apply Z.ltb_ge; lia).
      replace (m <=? 2) with true by (symmetry; apply Z.leb_le; lia). simpl. lia. }
  destruct Hmp as (Hmp & Em & Ele).
  clear Hmpdef.
  set (doy := (153 * mp + 2) / 5 + d - 1).
  assert (Hleap : mp = 11 ->
            JSDate.is_leap y = ((yoe + 1) mod 4 =? 0) &&
                        (negb ((yoe + 1) mod 100 =? 0) || (yoe + 1 =? 400))).
  { intros E11. assert (H2 : m = 2) by (rewrite Em, E11; reflexivity).
    assert (Ey : y = yoe + 1 + era * 400).
    { unfold yoe, y'. rewrite H2. simpl. lia. }
    unfold JSDate.is_leap.
    assert (E4 : y mod 4 = (yoe + 1) mod 4).
    { rewrite Ey. clearbody yoe era. Z.to_euclidean_division_equations. lia. }
    assert (E100 : y mod 100 = (yoe + 1) mod 100).
    { rewrite Ey. clearbody yoe era. Z.to_euclidean_division_equations. lia. }
    assert (E400 : (y mod 400 =? 0) = (yoe + 1 =? 400)).
    { rewrite Ey. clearbody yoe era. apply eq_true_iff_eq. rewrite !Z.eqb_eq.
      Z.to_euclidean_division_equations. lia. }
    rewrite E4, E100, E400.
    destruct ((yoe + 1) mod 4 =? 0) eqn:A4; destruct ((yoe + 1) mod 100 =? 0) eqn:A100;
      destruct (yoe + 1 =? 400) eqn:A400; try reflexivity;
      apply Z.eqb_eq in A400; apply Z.eqb_neq in A4; exfalso; apply A4; rewrite A400;
      reflexivity. }
  assert (Hdoy : 0 <= doy /\
                 doy <= 364 + (if ((yoe + 1) mod 4 =? 0) &&
                                  (negb ((yoe + 1) mod 100 =? 0) || (yoe + 1 =? 400))
                               then 1 else 0) /\
                 (5 * doy + 2) / 153 = mp /\
                 doy - (153 * mp + 2) / 5 + 1 = d).
  { unfold doy. unfold JSDate.days_in_month in Hd.
    assert (Cases : mp = 0 \/ mp = 1 \/ mp = 2 \/ mp = 3 \/ mp = 4 \/ mp = 5 \/ mp = 6 \/
                    mp = 7 \/ mp = 8 \/ mp = 9 \/ mp = 10 \/ mp = 11) by lia.
    destruct Cases as [E|[E|[E|[E|[E|[E|[E|[E|[E|[E|[E|E]]]]]]]]]]];
      try (rewrite E in *; simpl in Em; subst m; simpl in Hd;
           destruct (_ && _); cbv iota; repeat split;
           Z.to_euclidean_division_equations; lia).
    rewrite <- (Hleap E). rewrite E in *. simpl in Em. subst m. simpl in Hd.
    destruct (JSDate.is_leap y); cbv iota; repeat split; Z.to_euclidean_division_equations; lia. }
  destruct Hdoy as (Hd0 & Hd1 & Emp & Ed).
  destruct (yoe_recover yoe doy Hyoe Hd0 Hd1) as [Hdoe Eyoe].
  unfold JSDate.civil_from_days.
  set (doe := yoe * 365 + yoe / 4 - yoe / 100 + doy) in *.
  replace (era * 146097 + doe - 719468 + 719468) with (era * 146097 + doe) by lia.
  replace ((era * 146097 + doe) / 146097) with era
    by (clearbody doe era; Z.to_euclidean_division_equations; lia).
  replace (era * 146097 + doe - era * 146097) with doe by lia.
  rewrite Eyoe.
  replace (doe - (365 * yoe + yoe / 4 - yoe / 100)) with doy by (unfold doe; lia).
  rewrite Emp, Ed, <- Em, Ele. rewrite <- Ele.
  do 2 f_equal. unfold yoe, y'. destruct (m <=? 2); lia.
Qed.

(** ** The date utilities *)

Lemma days_from_civil_bounds (y m d : Z) :
  0 <= y <= 10100 -> 1 <= m <= 12 -> 0 <= d <= 99 ->
  -720000 <= JSDate.days_from_civil y m d <= 3000000 + 720000.
Proof.
  intros Hy Hm Hd. unfold JSDate.days_from_civil.
  destruct (m <=? 2); destruct (2 <? m); Z.to_euclidean_division_equations; lia.
Qed.

Lemma matches_ymd_fields (s : string) :
  matches_ymd s = true ->
  s <> "" /\
  exists year month day,
    split_ymd s = (year, month, day) /\
    0 <= year <= 9999 /\ 0 <= month <= 99 /\ 0 <= day <= 99.
Proof.
  unfold matches_ymd, split_ymd. intros H. split; [intros ->; discriminate H|].
  destruct (list_ascii_of_string s) as [|y1 [|y2 [|y3 [|y4 [|d1 [|m1 [|m2 [|d2 [|a1 [|a2 [|]]]]]]]]]]];
    try discriminate.
  apply andb_prop in H as [H _]. apply andb_prop in H as [H _].
  cbn [forallb] in H. repeat (apply andb_prop in H as [? H]).
  assert (Hy : forallb is_digit [y1; y2; y3; y4] = true)
    by (cbn [forallb];
        repeat match goal with
               | H : is_digit ?c = true |- context [is_digit ?c] => rewrite H
               end; reflexivity).
  assert (Hm : forallb is_digit [m1; m2] = true)
    by (cbn [forallb];
        repeat match goal with
               | H : is_digit ?c = true |- context [is_digit ?c] => rewrite H
               end; reflexivity).
  assert (Ha : forallb is_digit [a1; a2] = true)
    by (cbn [forallb];
        repeat match goal with
               | H : is_digit ?c = true |- context [is_digit ?c] => rewrite H
               end; reflexivity).
  pose proof (digits_Z_bounds _ Hy) as By. pose proof (digits_Z_bounds _ Hm) as Bm.
  pose proof (digits_Z_bounds _ Ha) as Ba.
  change (10 ^ Z.of_nat (length [y1; y2; y3; y4])) with 10000 in By.
  change (10 ^ Z.of_nat (length [m1; m2])) with 100 in Bm.
  change (10 ^ Z.of_nat (length [a1; a2])) with 100 in Ba.
  do 3 eexists. split; [reflexivity|]. lia.
Qed.

Lemma new_Date_fields_valid (tz year month day : Z) :
  -1440 < tz < 1440 ->
  0 <= year <= 9999 -> -1 <= month <= 98 -> 0 <= day <= 99 ->
  new_Date_fields tz year month day =
    Some ((JSDate.days_from_civil
             ((if (0 <=? year) && (year <=? 99) then 1900 + year else year) + month / 12)
             (month mod 12 + 1) 1 + day - 1) * JSDate.msPerDay - tz * JSDate.msPerMinute).
Proof.
  intros Htz Hy Hm Hd. unfold new_Date_fields, TimeClip.
  set (yr := if (0 <=? year) && (year <=? 99) then 1900 + year else year).
  assert (Hyr : 100 <= yr <= 9999).
  { unfold yr. destruct ((0 <=? year) && (year <=? 99)) eqn:E.
    - apply andb_prop in E as [E1 E2]. apply Z.leb_le in E1, E2. lia.
    - apply andb_false_iff in E as [E|E]; [apply Z.leb_gt in E | apply Z.leb_gt in E]; lia. }
  assert (Hq : -1 <= month / 12 <= 8 /\ 1 <= month mod 12 + 1 <= 12).
  { Z.to_euclidean_division_equations. lia. }
  pose proof (days_from_civil_bounds (yr + month / 12) (month mod 12 + 1) 1
                ltac:(lia) ltac:(lia) ltac:(lia)) as B.
  replace (Z.abs _ <=? 8640000000000000) with true; [reflexivity|].
  symmetry. apply Z.leb_le. unfold JSDate.msPerDay, JSDate.msPerMinute. lia.
Qed.

(** X21: [isValidDate] takes every text of the form of four digits, two
    digits and two digits between hyphens for a valid date, whether the
    calendar has such a day or not (the day 31 of February, the month 13),
    and [parseDate] returns a date for it, never [null]. *)
Theorem isValidDate_takes_every_text_of_the_form (tz : Z) (legacy_parse : string -> number)
    (s : string)
    (Hzone : -1440 < tz < 1440)
    (Hform : matches_ymd s = true) :
  isValidDate tz legacy_parse (Text s) = true /\
  exists t, parseDate tz legacy_parse s = Some t.
Proof.
  destruct (matches_ymd_fields s Hform) as (Hne & year & month & day & Hsplit & Hy & Hm & Hd).
  apply String.eqb_neq in Hne.
  unfold isValidDate, parseDate, read_text. rewrite Hne, Hform, Hsplit.
  rewrite new_Date_fields_valid by lia. split; [reflexivity | eexists; reflexivity].
Qed.

Lemma isValidDate_takes_every_text_of_the_form_witness :
  isValidDate 330 no_legacy (Text "2024-02-31") = true /\
  exists t, parseDate 330 no_legacy "2024-02-31" = Some t.
Proof.
  apply (isValidDate_takes_every_text_of_the_form 330 no_legacy "2024-02-31").
  - lia.
  - vm_compute. reflexivity.
Defined.

(** X22: for a calendar date from the year 100 on, [parseDate] returns the
    local midnight of that day, as the charts read it.  Formatting this
    date object with [formatDateForInput] gives the date text back in the
    zones at or behind UTC, and the text of the day before in the zones
    ahead of UTC; the text itself is formatted as it is. *)
Theorem parseDate_then_formatDateForInput (tz : Z) (legacy_parse : string -> number)
    (now : Z) (s : string) (y m d : Z)
    (Hzone : -1440 < tz < 1440)
    (Hdate : JSDate.parse_ymd s = Some (y, m, d))
    (Hyear : 100 <= y) :
  parseDate tz legacy_parse s = JSDate.new_Date_local_midnight tz s /\
  formatDateForInput legacy_parse now (DateObject (parseDate tz legacy_parse s)) =
    (if 0 <? tz
     then JSDate.iso_date (JSDate.civil_from_days (JSDate.days_from_civil y m d - 1))
     else s) /\
  formatDateForInput legacy_parse now (Text s) = s.
Proof.
  destruct (parse_ymd_text s y m d Hdate) as (Hform & Hsplit & Hm & Hd & Hy & Hiso).
  destruct (matches_ymd_fields s Hform) as (Hne & _).
  apply String.eqb_neq in Hne.
  assert (Hdim : JSDate.days_in_month y m <= 31).
  { unfold JSDate.days_in_month. repeat destruct (_ =? _); cbn; try lia.
    all: destruct (JSDate.is_leap y); lia. }
  assert (Hp : parseDate tz legacy_parse s =
               Some (JSDate.days_from_civil y m d * JSDate.msPerDay - tz * JSDate.msPerMinute)).
  { unfold parseDate, read_text. rewrite Hne, Hform, Hsplit.
    rewrite new_Date_fields_valid by lia.
    replace ((0 <=? y) && (y <=? 99)) with false
      by (symmetry; apply andb_false_iff; right; apply Z.leb_gt; lia).
    replace ((m - 1) / 12) with 0 by (Z.to_euclidean_division_equations; lia).
    replace ((m - 1) mod 12 + 1) with m by (Z.to_euclidean_division_equations; lia).
    rewrite Z.add_0_r, <- days_from_civil_day. reflexivity. }
  split; [|split].
  - rewrite Hp. unfold JSDate.new_Date_local_midnight. now rewrite Hdate.
  - rewrite Hp. cbn [formatDateForInput]. unfold JSDate.toISOString_date.
    rewrite (utc_day_of_local_midnight _ _ Hzone).
    destruct (0 <? tz); [reflexivity|].
    rewrite Z.sub_0_r, civil_from_days_from_civil by lia. exact Hiso.
  - cbn [formatDateForInput]. now rewrite Hne, Hform.
Qed.

Lemma parseDate_then_formatDateForInput_witness :
  formatDateForInput no_legacy 0 (DateObject (parseDate 330 no_legacy "2024-03-04")) =
    "2024-03-03" /\
  formatDateForInput no_legacy 0 (DateObject (parseDate (-300) no_legacy "2024-03-04")) =
    "2024-03-04".
Proof.
  split.
  - rewrite (proj1 (proj2 (parseDate_then_formatDateForInput 330 no_legacy 0 "2024-03-04"
                             2024 3 4 ltac:(lia) eq_refl ltac:(lia)))).
    vm_compute. reflexivity.
  - rewrite (proj1 (proj2 (parseDate_then_formatDateForInput (-300) no_legacy 0 "2024-03-04"
                             2024 3 4 ltac:(lia) eq_refl ltac:(lia)))).
    vm_compute. reflexivity.
Defined.

End DateUtilsFacts.

(** ** The best and the worst trade of the day *)

Import PsychologyEnhanced.

Lemma fold_better (l : list Trade) (first : Trade) :
  is_finite (pnl_read first) = true ->
  Forall (fun t => is_finite (pnl_read t) = true) l ->
  let best := fold_left better l first in
  (best = first \/ In best l) /\
  is_finite (pnl_read best) = true /\
  (to_Q (pnl_read first) <= to_Q (pnl_read best))%Q /\
  (forall t, In t l -> (to_Q (pnl_read t) <= to_Q (pnl_read best))%Q).
Proof.
  intros Hf Hl. revert first Hf. induction Hl as [|x l Hx _ IH]; intros first Hf; cbv zeta.
  - repeat split; [now left | assumption | apply Qle_refl | intros t []].
  - cbn [fold_left].
    assert (Hb : is_finite (pnl_read (better first x)) = true /\
                 (better first x = first \/ better first x = x) /\
                 (to_Q (pnl_read first) <= to_Q (pnl_read (better first x)))%Q /\
                 (to_Q (pnl_read x) <= to_Q (pnl_read (better first x)))%Q).
    { unfold better. cbv zeta. fold (pnl_read x) (pnl_read first).
      destruct (pnl_read x) as [ | | |a] eqn:Ea; try discriminate.
      destruct (pnl_read first) as [ | | |b] eqn:Eb; try discriminate.
      destruct (num_gt (Fin a) (Fin b)) eqn:G.
      - apply num_gt_Fin in G. rewrite Ea. repeat split; [now right | simpl; lra | simpl; lra].
      - rewrite Eb. repeat split; [now left | simpl; lra |].
        simpl. apply Qnot_lt_le. intros L. apply num_gt_Fin in L. congruence. }
    destruct Hb as (Hbf & Hbc & Hb1 & Hb2).
    destruct (IH (better first x) Hbf) as (Hin & Hfin & Hle & Hall).
    repeat split.
    + destruct Hin as [->|Hin]; [|right; now right].
      destruct Hbc as [->| ->]; [now left | right; now left].
    + assumption.
    + lra.
    + intros t [<-|Ht]; [lra | now apply Hall].
Qed.

Lemma fold_worse (l : list Trade) (first : Trade) :
  is_finite (pnl_read first) = true ->
  Forall (fun t => is_finite (pnl_read t) = true) l ->
  let worst := fold_left worse l first in
  (worst = first \/ In worst l) /\
  is_finite (pnl_read worst) = true /\
  (to_Q (pnl_read worst) <= to_Q (pnl_read first))%Q /\
  (forall t, In t l -> (to_Q (pnl_read worst) <= to_Q (pnl_read t))%Q).
Proof.
  intros Hf Hl. revert first Hf. induction Hl as [|x l Hx _ IH]; intros first Hf; cbv zeta.
  - repeat split; [now left | assumption | apply Qle_refl | intros t []].
  - cbn [fold_left].
    assert (Hb : is_finite (pnl_read (worse first x)) = true /\
                 (worse first x = first \/ worse first x = x) /\
                 (to_Q (pnl_read (worse first x)) <= to_Q (pnl_read first))%Q /\
                 (to_Q (pnl_read (worse first x)) <= to_Q (pnl_read x))%Q).
    { unfold worse. cbv zeta. fold (pnl_read x) (pnl_read first).
      destruct (pnl_read x) as [ | | |a] eqn:Ea; try discriminate.
      destruct (pnl_read first) as [ | | |b] eqn:Eb; try discriminate.
      destruct (num_lt (Fin a) (Fin b)) eqn:G.
      - apply num_lt_Fin in G. rewrite Ea. repeat split; [now right | simpl; lra | simpl; lra].
      - rewrite Eb. repeat split; [now left | simpl; lra |].
        simpl. apply Qnot_lt_le. intros L. apply num_lt_Fin in L. congruence. }
    destruct Hb as (Hbf & Hbc & Hb1 & Hb2).
    destruct (IH (worse first x) Hbf) as (Hin & Hfin & Hle & Hall).
    repeat split.
    + destruct Hin as [->|Hin]; [|right; now right].
      destruct Hbc as [->| ->]; [now left | right; now left].
    + assumption.
    + lra.
    + intros t [<-|Ht]; [lra | now apply Hall].
Qed.

Lemma fold_better_NaN (l : list Trade) (first : Trade) :
  pnl_read first = NaN -> fold_left better l first = first.
Proof.
  intros H. induction l as [|x l IH]; [reflexivity|].
  cbn [fold_left]. unfold better at 2. cbv zeta. fold (pnl_read x) (pnl_read first).
  rewrite H. replace (num_gt (pnl_read x) NaN) with false by now destruct (pnl_read x).
  exact IH.
Qed.

Lemma fold_worse_NaN (l : list Trade) (first : Trade) :
  pnl_read first = NaN -> fold_left worse l first = first.
Proof.
  intros H. induction l as [|x l IH]; [reflexivity|].
  cbn [fold_left]. unfold worse at 2. cbv zeta. fold (pnl_read x) (pnl_read first).
  rewrite H. replace (num_lt (pnl_read x) NaN) with false by now destruct (pnl_read x).
  exact IH.
Qed.

(** X23: the best and the worst trade of the day.  When the profit/loss of
    every trade of the day parses to a finite number, the best trade is a
    trade of the day that no other exceeds and the worst one a trade that
    none falls below; a day without trades has neither.  When the
    profit/loss of the first trade of the day does not parse, that trade
    is reported as the best and as the worst one, whatever the others
    are. *)
Theorem bestTrade_and_worstTrade (today : string) (trades : list Trade) :
  (Forall (fun t => is_finite (pnl_read t) = true) (todaysTrades today trades) ->
   todaysTrades today trades <> [] ->
   exists best worst,
     bestTrade (todaysTrades today trades) = Some best /\
     worstTrade (todaysTrades today trades) = Some worst /\
     In best (todaysTrades today trades) /\ In worst (todaysTrades today trades) /\
     forall t, In t (todaysTrades today trades) ->
               (to_Q (pnl_read worst) <= to_Q (pnl_read t) <= to_Q (pnl_read best))%Q) /\
  (todaysTrades today trades = [] ->
   bestTrade (todaysTrades today trades) = None /\
   worstTrade (todaysTrades today trades) = None) /\
  (forall first rest,
     todaysTrades today trades = first :: rest -> pnl_read first = NaN ->
     bestTrade (todaysTrades today trades) = Some first /\
     worstTrade (todaysTrades today trades) = Some first).
Proof.
  split; [|split].
  - intros Hfin Hne. destruct (todaysTrades today trades) as [|first rest] eqn:E; [congruence|].
    inversion Hfin as [|? ? Hf Hrest]; subst.
    destruct (fold_better (first :: rest) first Hf Hfin) as (Bin & _ & _ & Ball).
    destruct (fold_worse (first :: rest) first Hf Hfin) as (Win & _ & _ & Wall).
    exists (fold_left better (first :: rest) first), (fold_left worse (first :: rest) first).
    split; [reflexivity|]. split; [reflexivity|].
    split; [destruct Bin as [->|Bin]; [now left | exact Bin]|].
    split; [destruct Win as [->|Win]; [now left | exact Win]|].
    intros t Ht. split; [now apply Wall | now apply Ball].
  - intros ->. split; reflexivity.
  - intros first rest -> Hnan. unfold bestTrade, worstTrade.
    now rewrite (fold_better_NaN _ _ Hnan), (fold_worse_NaN _ _ Hnan).
Qed.
